(** * contract-genai: the streaming reassembly core of [utils/api.ts]

    A shallow embedding of [streamContract] and the helpers it calls
    ([formatTextContent], [processTextContent], [processBufferContent],
    [cleanupAccumulatedContent], [convertToPlainText],
    [accumulateStreamingContent]), followed by the properties of the
    stream session that the specification states.

    ECMAScript strings are sequences of UTF-16 code units; they are modelled
    as lists of [N].  Regular-expression literals of the source are written
    as terms of a small regular-expression type and run by a backtracking
    matcher, so each pattern can be compared with its literal.

    What the browser provides is a parameter of the model: the decoding of
    character references through a [textarea], [JSON.parse], the
    conversion of a value that is not a string to a string, the results of
    the reads of the response body (each chunk as the text the
    [TextDecoder] makes of it), and whether a callback of the caller aborts
    the signal while it runs. *)

From Stdlib Require Import List NArith ZArith Bool Lia String Ascii.
From Stdlib Require Import DecimalString PrimFloat.
Import ListNotations.
Local Open Scope list_scope.

Set Implicit Arguments.

(** ** ECMAScript strings *)

Module JsString.

Definition char := N.
Definition jsstring := list char.

(** An ASCII literal as code units. *)
Definition js (s : string) : jsstring :=
  map N_of_ascii (list_ascii_of_string s).

(** A literal in which the apostrophe stands for the double quote, so that
    JSON samples can be written on one line: [jsq "{'text':'a'}"]. *)
Definition jsq (s : string) : jsstring :=
  map (fun c => if N.eqb c 39%N then 34%N else c) (js s).

Definition LF : char := 10%N.
Definition QUOTE : char := 34%N.
Definition BACKSLASH : char := 92%N.
Definition LBRACE : char := 123%N.
Definition RBRACE : char := 125%N.
Definition LBRACKET : char := 91%N.

Definition inRange (lo hi c : char) : bool := N.leb lo c && N.leb c hi.

(** WhiteSpace and LineTerminator of ECMAScript: what [trim] strips and
    what the class [\s] matches. *)
Definition isLineTerminator (c : char) : bool :=
  (N.eqb c 10 || N.eqb c 13 || N.eqb c 8232 || N.eqb c 8233)%N.

Definition isWhiteSpace (c : char) : bool :=
  (inRange 9 13 c || N.eqb c 32 || N.eqb c 160 || N.eqb c 5760
   || inRange 8192 8202 c || N.eqb c 8232 || N.eqb c 8233 || N.eqb c 8239
   || N.eqb c 8287 || N.eqb c 12288 || N.eqb c 65279)%N.

Fixpoint eqb (s t : jsstring) : bool :=
  match s, t with
  | [], [] => true
  | c :: s', d :: t' => N.eqb c d && eqb s' t'
  | _, _ => false
  end.

(** [s.startsWith(p)] *)
Fixpoint startsWith (s p : jsstring) {struct p} : bool :=
  match p with
  | [] => true
  | d :: p' => match s with
               | c :: s' => N.eqb c d && startsWith s' p'
               | [] => false
               end
  end.

(** [s.includes(t)] *)
Fixpoint includes (s t : jsstring) : bool :=
  startsWith s t ||
  match s with
  | [] => false
  | _ :: s' => includes s' t
  end.

Fixpoint trimStart (s : jsstring) : jsstring :=
  match s with
  | c :: s' => if isWhiteSpace c then trimStart s' else s
  | [] => []
  end.

Definition trimEnd (s : jsstring) : jsstring := rev (trimStart (rev s)).

(** [s.trim()] *)
Definition trim (s : jsstring) : jsstring := trimEnd (trimStart s).

(** [s.slice(n)] for a non-negative [n] *)
Definition slice (n : nat) (s : jsstring) : jsstring := skipn n s.

(** Truthiness of a string: the empty string is the only falsy one. *)
Definition truthy (s : jsstring) : bool :=
  match s with [] => false | _ :: _ => true end.

(** [s.split('\n')]: never empty; the empty string gives one empty piece. *)
Fixpoint splitLines (s : jsstring) : list jsstring :=
  match s with
  | [] => [[]]
  | c :: s' =>
      if N.eqb c LF then [] :: splitLines s'
      else match splitLines s' with
           | l :: ls => (c :: l) :: ls
           | [] => [[c]]
           end
  end.

(** The decimal digits of a number, as [String(n)] gives them for a
    non-negative integer. *)
Definition decimal (n : nat) : jsstring :=
  js (NilZero.string_of_uint (Nat.to_uint n)).

End JsString.
Import JsString.

(** ** Regular expressions

    The patterns of [api.ts] use literals, character classes, quantified
    classes (greedy and lazy), the anchors and capture groups.  The matcher
    is the backtracking one of ECMAScript: a greedy quantifier tries the
    longest run first, a lazy one the shortest. *)

Module RegExp.

Inductive regex : Type :=
| Eps
| Lit (c : char)
| Cls (p : char -> bool)
| Rep (greedy : bool) (min : nat) (p : char -> bool)
| Bol
| Eol
| Cat (r1 r2 : regex)
| Grp (n : nat) (r : regex).

(** A literal word of the pattern. *)
Fixpoint Str (w : jsstring) : regex :=
  match w with
  | [] => Eps
  | c :: w' => Cat (Lit c) (Str w')
  end.

Fixpoint Seq (rs : list regex) : regex :=
  match rs with
  | [] => Eps
  | r :: rs' => Cat r (Seq rs')
  end.

(** Character classes of the patterns. *)
Definition cSpace : char -> bool := isWhiteSpace.                    (* \s *)
Definition cDigit : char -> bool := inRange 48%N 57%N.                   (* \d *)
Definition cDot (c : char) : bool := negb (isLineTerminator c).      (* .  *)
Definition cLF (c : char) : bool := N.eqb c LF.                      (* \n *)
Definition cAlphaSpace (c : char) : bool :=                          (* [a-zA-Z\s] *)
  inRange 97%N 122%N c || inRange 65%N 90%N c || isWhiteSpace c.
Definition cNotGt (c : char) : bool := negb (N.eqb c 62%N).            (* [^>] *)
Definition c1to6 : char -> bool := inRange 49%N 54%N.                    (* [1-6] *)

Definition Star (p : char -> bool) : regex := Rep true 0 p.         (* p*  *)
Definition Plus (p : char -> bool) : regex := Rep true 1 p.         (* p+  *)
Definition LazyStar (p : char -> bool) : regex := Rep false 0 p.    (* p*? *)

Definition captures := list (nat * jsstring).
Definition result : Type := jsstring * captures.

Fixpoint capture (n : nat) (caps : captures) : jsstring :=
  match caps with
  | [] => []
  | (m, s) :: caps' => if Nat.eqb m n then s else capture n caps'
  end.

Section Matcher.

(** The [m] flag. *)
Variable multiline : bool.

Definition atBol (prev : option char) : bool :=
  match prev with
  | None => true
  | Some c => multiline && isLineTerminator c
  end.

Definition atEol (s : jsstring) : bool :=
  match s with
  | [] => true
  | c :: _ => multiline && isLineTerminator c
  end.

Section Repeat.
Variable p : char -> bool.
Variable k : option char -> jsstring -> option result.

Fixpoint repGreedy (min : nat) (prev : option char) (s : jsstring)
  : option result :=
  let stop := if Nat.eqb min 0 then k prev s else None in
  match s with
  | c :: s' =>
      if p c then
        match repGreedy (pred min) (Some c) s' with
        | Some r => Some r
        | None => stop
        end
      else stop
  | [] => stop
  end.

Fixpoint repLazy (min : nat) (prev : option char) (s : jsstring)
  : option result :=
  match (if Nat.eqb min 0 then k prev s else None) with
  | Some r => Some r
  | None =>
      match s with
      | c :: s' => if p c then repLazy (pred min) (Some c) s' else None
      | [] => None
      end
  end.
End Repeat.

(** [rmatch r prev s caps k]: match [r] at the front of [s], the
    character before it being [prev], then continue with [k]. *)
Fixpoint rmatch (r : regex) (prev : option char) (s : jsstring)
  (caps : captures)
  (k : option char -> jsstring -> captures -> option result)
  : option result :=
  match r with
  | Eps => k prev s caps
  | Lit c =>
      match s with
      | x :: s' => if N.eqb x c then k (Some x) s' caps else None
      | [] => None
      end
  | Cls p =>
      match s with
      | x :: s' => if p x then k (Some x) s' caps else None
      | [] => None
      end
  | Rep greedy min p =>
      (if greedy then repGreedy else repLazy)
        p (fun prev' s' => k prev' s' caps) min prev s
  | Bol => if atBol prev then k prev s caps else None
  | Eol => if atEol s then k prev s caps else None
  | Cat r1 r2 =>
      rmatch r1 prev s caps
        (fun prev' s' caps' => rmatch r2 prev' s' caps' k)
  | Grp n r' =>
      rmatch r' prev s caps
        (fun prev' s' caps' =>
           k prev' s' ((n, firstn (List.length s - List.length s') s) :: caps'))
  end.

(** A match starting exactly here: what is left of the input after it,
    and the captures. *)
Definition matchAt (r : regex) (prev : option char) (s : jsstring)
  : option result :=
  rmatch r prev s [] (fun _ s' caps => Some (s', caps)).

(** Replacement patterns: literal text and [$n]. *)
Inductive piece : Type :=
| TLit (w : jsstring)
| TCap (n : nat).

Fixpoint expand (tmpl : list piece) (caps : captures) : jsstring :=
  match tmpl with
  | [] => []
  | TLit w :: t => w ++ expand t caps
  | TCap n :: t => capture n caps ++ expand t caps
  end.

Section Replace.
Variable r : regex.
Variable tmpl : list piece.

(** [s.replace(/r/g, tmpl)]; [skip] counts the characters still inside
    the match just replaced. *)
Fixpoint replaceFrom (prev : option char) (s : jsstring) (skip : nat)
  : jsstring :=
  match skip with
  | S skip' =>
      match s with
      | [] => []
      | c :: s' => replaceFrom (Some c) s' skip'
      end
  | O =>
      match matchAt r prev s with
      | Some (rest, caps) =>
          let len := List.length s - List.length rest in
          expand tmpl caps ++
          match s with
          | [] => []
          | c :: s' =>
              if Nat.eqb len 0 then c :: replaceFrom (Some c) s' 0
              else replaceFrom (Some c) s' (len - 1)
          end
      | None =>
          match s with
          | [] => []
          | c :: s' => c :: replaceFrom (Some c) s' 0
          end
      end
  end.

Definition replaceAll (s : jsstring) : jsstring := replaceFrom None s 0.

(** [s.replace(/r/, tmpl)]: the leftmost match only. *)
Fixpoint replaceFirstFrom (prev : option char) (s : jsstring) : jsstring :=
  match matchAt r prev s with
  | Some (rest, caps) => expand tmpl caps ++ rest
  | None =>
      match s with
      | [] => []
      | c :: s' => c :: replaceFirstFrom (Some c) s'
      end
  end.

Definition replaceFirst (s : jsstring) : jsstring :=
  replaceFirstFrom None s.

(** [/r/.test(s)], which is also whether [s.match(/r/)] is not null. *)
Fixpoint testFrom (prev : option char) (s : jsstring) : bool :=
  match matchAt r prev s with
  | Some _ => true
  | None =>
      match s with
      | [] => false
      | c :: s' => testFrom (Some c) s'
      end
  end.

Definition test (s : jsstring) : bool := testFrom None s.

(** [s.split(/r/)] for a pattern with one capture group around the
    whole separator: pieces and separators alternate.  [cur] is the
    piece being read, in reverse. *)
Fixpoint splitFrom (prev : option char) (s : jsstring) (skip : nat)
  (cur : jsstring) : list jsstring :=
  match s with
  | [] => [rev cur]
  | c :: s' =>
      match skip with
      | S skip' => splitFrom (Some c) s' skip' cur
      | O =>
          match matchAt r prev s with
          | Some (rest, caps) =>
              let len := List.length s - List.length rest in
              if Nat.eqb len 0 then
                match cur with
                | [] => splitFrom (Some c) s' 0 [c]
                | _ :: _ =>
                    rev cur :: capture 1 caps
                      :: splitFrom (Some c) s' 0 [c]
                end
              else
                rev cur :: capture 1 caps
                  :: splitFrom (Some c) s' (len - 1) []
          | None => splitFrom (Some c) s' 0 (c :: cur)
          end
      end
  end.

Definition split (s : jsstring) : list jsstring :=
  match s with
  | [] => match matchAt r None [] with
          | Some _ => []
          | None => [[]]
          end
  | _ :: _ => splitFrom None s 0 []
  end.
End Replace.

End Matcher.

End RegExp.
Import RegExp.

(** Method chaining: [s |> f |> g] is [g (f s)], read like [s.f().g()]. *)
Notation "x |> f" := (f x) (at level 61, left associativity, only parsing).

(** ** The formatters *)

Module Format.

Definition html : jsstring := js "html".

(** The patterns, each next to its literal. *)
Definition re_html_html : regex :=                  (* /html\s*html/g *)
  Seq [Str html; Star cSpace; Str html].
Definition re_html_nl_html : regex :=               (* /html\s*\n\s*html/g *)
  Seq [Str html; Star cSpace; Lit LF; Star cSpace; Str html].
Definition re_html_nl_nl_html : regex :=            (* /html\s*\n\s*\n\s*html/g *)
  Seq [Str html; Star cSpace; Lit LF; Star cSpace; Lit LF; Star cSpace;
       Str html].
Definition re_text_html_end : regex :=              (* /([a-zA-Z\s]+)html$/g *)
  Seq [Grp 1 (Plus cAlphaSpace); Str html; Eol].
Definition re_newlines3 : regex := Rep true 3 cLF.  (* /\n{3,}/g *)
Definition re_spaces2 : regex := Rep true 2 cSpace. (* /\s{2,}/g *)
Definition re_html_trailing : regex :=              (* /html\s*$/g *)
  Seq [Str html; Star cSpace; Eol].
Definition re_html_leading : regex :=               (* /^\s*html\s*/g *)
  Seq [Bol; Star cSpace; Str html; Star cSpace].
Definition re_tag : regex :=                        (* /<[^>]*>/g *)
  Seq [Lit 60%N; Star cNotGt; Lit 62%N].
Definition re_header : regex :=           (* /(<h[1-6][^>]*>.*?<\/h[1-6]>)/ *)
  Grp 1 (Seq [Str (js "<h"); Cls c1to6; Star cNotGt; Lit 62%N; LazyStar cDot;
              Str (js "</h"); Cls c1to6; Lit 62%N]).
Definition re_numbered : regex :=                   (* /^\d+\./ *)
  Seq [Bol; Plus cDigit; Lit 46%N].
Definition re_numbered_header : regex :=
                               (* /<h[1-6][^>]*>(\d+\.)(.*?)<\/h[1-6]>/ *)
  Seq [Str (js "<h"); Cls c1to6; Star cNotGt; Lit 62%N;
       Grp 1 (Cat (Plus cDigit) (Lit 46%N)); Grp 2 (LazyStar cDot);
       Str (js "</h"); Cls c1to6; Lit 62%N].
Definition re_bold : regex :=                       (* /\*\*(.*?)\*\*/g *)
  Seq [Lit 42%N; Lit 42%N; Grp 1 (LazyStar cDot); Lit 42%N; Lit 42%N].
Definition re_italic : regex :=                     (* /\*(.*?)\*/g *)
  Seq [Lit 42%N; Grp 1 (LazyStar cDot); Lit 42%N].
Definition re_code : regex :=                       (* /`(.*?)`/g *)
  Seq [Lit 96%N; Grp 1 (LazyStar cDot); Lit 96%N].
Definition restOfLine : regex := Grp 1 (Cat (Star cDot) Eol).    (* (.*$) *)
Definition re_h1 : regex :=                         (* /^# (.*$)/gm *)
  Seq [Bol; Str (js "# "); restOfLine].
Definition re_h2 : regex :=                         (* /^## (.*$)/gm *)
  Seq [Bol; Str (js "## "); restOfLine].
Definition re_h3 : regex :=                         (* /^### (.*$)/gm *)
  Seq [Bol; Str (js "### "); restOfLine].
Definition re_dash : regex :=                       (* /^- (.*$)/gm *)
  Seq [Bol; Str (js "- "); restOfLine].
Definition re_number_item : regex :=                (* /^\d+\. (.*$)/gm *)
  Seq [Bol; Plus cDigit; Lit 46%N; Lit 32%N; restOfLine].

(** The text put in front of a list item in place of its dash, as the
    file has it: U+00E2, U+20AC, U+00A2 (the UTF-8 bytes of the bullet
    U+2022 read as Windows-1252 characters) and a space. *)
Definition bullet : jsstring := [226%N; 8364%N; 162%N; 32%N].

(** [s.replace(/r/g, ...)] and [s.replace(/r/gm, ...)] *)
Definition replace_g (r : regex) (tmpl : list piece) (s : jsstring) :=
  replaceAll false r tmpl s.
Definition replace_gm (r : regex) (tmpl : list piece) (s : jsstring) :=
  replaceAll true r tmpl s.

Section WithDom.

(** [decodeHtmlEntities] assigns the text to the [innerHTML] of a fresh
    [textarea] and reads its [value] back: the work is the browser's, so
    the function is a parameter of the model. *)
Variable decodeHtmlEntities : jsstring -> jsstring.

(** [formatTextContent], api.ts lines 60-95. *)
Definition formatTextContent (text : jsstring) : jsstring :=
  let decoded := decodeHtmlEntities text in
  let cleaned := decoded in
  let cleaned :=
    cleaned
    |> replace_g re_html_html [TLit html]
    |> replace_g re_html_nl_html [TLit html]
    |> replace_g re_html_nl_nl_html [TLit html]
    |> replace_g re_html_html [TLit html] in
  let cleaned := cleaned |> replace_g re_text_html_end [TCap 1] in
  let cleaned :=
    cleaned
    |> replace_g re_newlines3 [TLit [LF; LF]]
    |> replace_g re_spaces2 [TLit [32%N]]
    |> trim in
  cleaned.

(** [processTextContent], api.ts lines 333-361. *)
Definition processTextContent (text accumulatedContent : jsstring)
  : jsstring :=
  let formattedText := formatTextContent text in
  if truthy accumulatedContent then
    if includes accumulatedContent formattedText then accumulatedContent
    else accumulatedContent ++ formattedText
  else formattedText.

(** [convertToPlainText], api.ts lines 655-681. *)
Definition convertToPlainText (rawText : jsstring) : jsstring :=
  let decoded := decodeHtmlEntities rawText in
  let cleaned :=
    decoded
    |> replace_g re_html_html [TLit html]
    |> replace_g re_html_nl_html [TLit html]
    |> replace_g re_text_html_end [TCap 1]
    |> trim in
  let cleaned :=
    cleaned
    |> replace_g re_bold [TCap 1]
    |> replace_g re_italic [TCap 1]
    |> replace_g re_code [TCap 1]
    |> replace_gm re_h1 [TCap 1]
    |> replace_gm re_h2 [TCap 1]
    |> replace_gm re_h3 [TCap 1]
    |> replace_gm re_dash [TLit bullet; TCap 1]
    |> replace_gm re_number_item [TCap 1] in
  cleaned.

(** [accumulateStreamingContent], api.ts lines 754-764. *)
Definition accumulateStreamingContent (newText accumulatedContent : jsstring)
  : jsstring :=
  if negb (truthy accumulatedContent) then convertToPlainText newText
  else
    let combinedText := accumulatedContent ++ [LF] ++ newText in
    convertToPlainText combinedText.

End WithDom.

(** The [Map] of [cleanupAccumulatedContent], in insertion order. *)
Definition sectionMap := list (jsstring * jsstring).

Definition has (m : sectionMap) (key : jsstring) : bool :=
  existsb (fun kv => JsString.eqb (fst kv) key) m.

(** One round of the loop over [sections], [header = sections[i]] and
    [content = sections[i + 1] || '']. *)
Definition addSection (header content : jsstring) (uniqueSections : sectionMap)
  : sectionMap :=
  if truthy header && truthy (trim header) then
    let headerText := header |> replace_g re_tag [] |> trim in
    if negb (has uniqueSections headerText)
    then uniqueSections ++ [(headerText, header ++ content)]
    else uniqueSections
  else uniqueSections.

Fixpoint collectSections (sections : list jsstring)
  (uniqueSections : sectionMap) : sectionMap :=
  match sections with
  | [] => uniqueSections
  | [header] => addSection header [] uniqueSections
  | header :: content :: rest =>
      collectSections rest (addSection header content uniqueSections)
  end.

(** The loop over [uniqueSections] that rebuilds the content and renumbers
    the numbered headers. *)
Fixpoint rebuildSections (uniqueSections : sectionMap) (sectionNumber : nat)
  : jsstring :=
  match uniqueSections with
  | [] => []
  | (headerText, sectionContent) :: rest =>
      if test false re_numbered headerText then
        let newHeader :=
          replaceFirst false re_numbered_header
            [TLit (js "<h2>" ++ decimal sectionNumber ++ js "."); TCap 2;
             TLit (js "</h2>")]
            sectionContent in
        newHeader ++ rebuildSections rest (S sectionNumber)
      else sectionContent ++ rebuildSections rest sectionNumber
  end.

(** [cleanupAccumulatedContent], api.ts lines 554-610. *)
Definition cleanupAccumulatedContent (content : jsstring) : jsstring :=
  let cleanedContent :=
    content
    |> replace_g re_html_html [TLit html]
    |> replace_g re_html_nl_html [TLit html]
    |> replace_g re_html_nl_nl_html [TLit html]
    |> replace_g re_text_html_end [TCap 1]
    |> replace_g re_html_trailing []
    |> replace_g re_html_leading []
    |> trim in
  let sections := split false re_header cleanedContent in
  let uniqueSections := collectSections sections [] in
  let finalContent := rebuildSections uniqueSections 1 in
  finalContent
  |> replace_g re_html_html [TLit html]
  |> replace_g re_html_nl_html [TLit html]
  |> replace_g re_text_html_end [TCap 1]
  |> trim.

End Format.
Import Format.

(** ** JSON values and the reads of [streamContract] *)

Module Json.

(** What [JSON.parse] returns.  A number is an IEEE double, as in
    ECMAScript. *)
#[local] Unset Elimination Schemes.
Inductive JSON : Type :=
| JNull
| JBool (b : bool)
| JNumber (x : float)
| JString (s : jsstring)
| JArray (items : list JSON)
| JObject (members : list (jsstring * JSON)).
#[local] Set Elimination Schemes.

(** ToBoolean. *)
Definition truthyValue (v : JSON) : bool :=
  match v with
  | JNull => false
  | JBool b => b
  | JNumber x => negb (PrimFloat.eqb x 0%float || PrimFloat.is_nan x)
  | JString s => truthy s
  | JArray _ => true
  | JObject _ => true
  end.

(** [v.key] for [v] other than [null], and [key] one of the names the code
    reads ([text], [candidates], [content], [parts]): a member of an object
    (the last one, should the text repeat a key), [undefined] on a string,
    number, boolean or array, none of which has a property of these
    names. *)
Definition member (key : jsstring) (v : JSON) : option JSON :=
  match v with
  | JObject members =>
      fold_left
        (fun found kv => if JsString.eqb (fst kv) key then Some (snd kv)
                         else found)
        members None
  | _ => None
  end.

End Json.
Import Json.

(** ** The stream session *)

Module Stream.

(** The calls of the caller's callbacks, [options.onData],
    [options.onError] and [options.onComplete] (the last two are optional:
    the call is [onError?.(...)], [onComplete?.()]).  A callback is taken
    to return normally. *)
Inductive Callback : Type :=
| OnData (chunk : jsstring) (isFinal : bool)
| OnError
| OnComplete.

(** The lines written to the console that tell what became of a payload
    (the other [console.log] lines are debugging output and are left out). *)
Inductive Diagnostic : Type :=
| FailedToParse (jsonData : jsstring)       (* console.error, line 286 *)
| UnexpectedFormat (parsed : JSON)          (* console.warn, line 283 *)
| IncompleteBuffered (braceCount : Z)       (* console.log, line 304 *)
| SkippingArray (jsonData : jsstring)       (* console.warn, line 310 *)
| SkippingNonJson (jsonData : jsstring).    (* console.debug, line 313 *)

(** What [fetch] and [reader.read()] may throw: the [AbortError] of an
    aborted signal, or anything else. *)
Inductive Thrown : Type := AbortError | OtherError.

(** The result of one [await reader.read()]; a chunk is given as the text
    the [TextDecoder] makes of it. *)
Inductive ReadResult : Type :=
| ReadChunk (value : jsstring)
| ReadDone
| ReadThrows (e : Thrown).

(** How the request went up to [response.body.getReader()]: something was
    thrown ([fetch] rejected, [handleApiResponse] threw on a response that
    is not ok, the body was null), or the reader delivers [reads]. *)
Inductive Connection : Type :=
| ConnectThrows (e : Thrown)
| Connected (reads : list ReadResult).

(** The variables of [streamContract], the callbacks made and console lines
    written so far (oldest first), and [signal.aborted]. *)
Record Session : Type := mkSession {
  buffer : jsstring;
  accumulatedContent : jsstring;
  incompleteJsonBuffer : jsstring;
  braceCount : Z;
  calls : list Callback;
  consoleLines : list Diagnostic;
  aborted : bool
}.

Definition initial : Session :=
  {| buffer := []; accumulatedContent := []; incompleteJsonBuffer := [];
     braceCount := 0; calls := []; consoleLines := []; aborted := false |}.

Definition setBuffer (b : jsstring) (st : Session) : Session :=
  mkSession b (accumulatedContent st) (incompleteJsonBuffer st)
    (braceCount st) (calls st) (consoleLines st) (aborted st).
Definition setAccumulatedContent (a : jsstring) (st : Session) : Session :=
  mkSession (buffer st) a (incompleteJsonBuffer st) (braceCount st)
    (calls st) (consoleLines st) (aborted st).
Definition setIncompleteJsonBuffer (b : jsstring) (st : Session) : Session :=
  mkSession (buffer st) (accumulatedContent st) b (braceCount st) (calls st)
    (consoleLines st) (aborted st).
Definition setBraceCount (n : Z) (st : Session) : Session :=
  mkSession (buffer st) (accumulatedContent st) (incompleteJsonBuffer st) n
    (calls st) (consoleLines st) (aborted st).
Definition report (d : Diagnostic) (st : Session) : Session :=
  mkSession (buffer st) (accumulatedContent st) (incompleteJsonBuffer st)
    (braceCount st) (calls st) (consoleLines st ++ [d]) (aborted st).

(** *** The brace scan, api.ts lines 201-227 *)

Record Scan : Type := mkScan {
  depth : Z;          (* braceCount *)
  inString : bool;
  escapeNext : bool
}.

Definition scanStart : Scan := mkScan 0 false false.

(** One round of the [for] loop over the characters of [jsonData]. *)
Definition scanChar (sc : Scan) (c : char) : Scan :=
  if escapeNext sc then mkScan (depth sc) (inString sc) false
  else if N.eqb c BACKSLASH then mkScan (depth sc) (inString sc) true
  else if N.eqb c QUOTE && negb (escapeNext sc)
       then mkScan (depth sc) (negb (inString sc)) (escapeNext sc)
  else if negb (inString sc) then
    let d := if N.eqb c LBRACE then (depth sc + 1)%Z else depth sc in
    let d := if N.eqb c RBRACE then (d - 1)%Z else d in
    mkScan d (inString sc) (escapeNext sc)
  else sc.

Definition scanBraces (jsonData : jsstring) : Z :=
  depth (fold_left scanChar jsonData scanStart).

(** *** The Fragment Assembler, api.ts lines 179-199 and 302-314

    What one line of the event stream comes to, given the pending
    buffer. *)
Inductive Assembled : Type :=
| NotAnEvent                              (* no "data: " prefix *)
| Sentinel                                (* data === '[DONE]' *)
| EmptyPayload                            (* !data *)
| Complete (jsonData : jsstring)          (* braceCount === 0 *)
| Incomplete (jsonData : jsstring) (braceCount : Z)
| ArrayData (jsonData : jsstring)
| NonJson (jsonData : jsstring).

Definition assemble (incompleteJsonBuffer line : jsstring) : Assembled :=
  if startsWith line (js "data: ") then
    let data := trim (slice 6 line) in
    if JsString.eqb data (js "[DONE]") then Sentinel
    else if negb (truthy data) then EmptyPayload
    else
      let jsonData :=
        if truthy incompleteJsonBuffer then incompleteJsonBuffer ++ data
        else data in
      if startsWith jsonData [LBRACE] then
        let braceCount := scanBraces jsonData in
        if Z.eqb braceCount 0 then Complete jsonData
        else Incomplete jsonData braceCount
      else if startsWith jsonData [LBRACKET] then ArrayData jsonData
      else NonJson jsonData
  else NotAnEvent.

(** The pending buffer after the line. *)
Definition pendingAfter (incompleteJsonBuffer : jsstring) (a : Assembled)
  : jsstring :=
  match a with
  | NotAnEvent | Sentinel | EmptyPayload => incompleteJsonBuffer
  | Incomplete jsonData _ => jsonData
  | Complete _ | ArrayData _ | NonJson _ => []
  end.



(** *** Statements that may throw

    [JSON.parse] and the reads of the parsed value throw inside the [try]
    of lines 241-301; what they changed before stays changed. *)
Definition M (A : Type) : Type := Session -> Session * option A.

Definition ret {A : Type} (a : A) : M A := fun st => (st, Some a).
Definition throw {A : Type} : M A := fun st => (st, None).
Definition bind {A B : Type} (m : M A) (f : A -> M B) : M B :=
  fun st =>
    match m st with
    | (st', Some a) => f a st'
    | (st', None) => (st', None)
    end.
Definition lift (f : Session -> Session) : M unit :=
  fun st => (f st, Some tt).
Definition tryCatch (body handler : M unit) : M unit :=
  fun st =>
    match body st with
    | (st', Some a) => (st', Some a)
    | (st', None) => handler st'
    end.

Notation "x <- m ;; k" := (bind m (fun x => k))
  (at level 100, m at next level, right associativity).
Notation "m ;;; k" := (bind m (fun _ => k))
  (at level 100, right associativity).

(** [for (const x of items) body(x)] *)
Fixpoint forEach {A : Type} (items : list A) (body : A -> M unit) : M unit :=
  match items with
  | [] => ret tt
  | x :: rest => body x ;;; forEach rest body
  end.

Section WithEnvironment.

(** The browser and the caller, as far as the code depends on them. *)
Variable decodeHtmlEntities : jsstring -> jsstring.

(** [JSON.parse]; [None] when it throws a [SyntaxError]. *)
Variable JSON_parse : jsstring -> option JSON.

(** The string made of a value that is not a string when it is assigned
    to [innerHTML] or added to a string (number formatting, array
    joining); [None] when the conversion throws a [TypeError]. *)
Variable ToString : JSON -> option jsstring.

(** Whether the caller's callback aborts the signal while it runs, by the
    number of callbacks made before it in the session. *)
Variable abortsDuring : nat -> bool.

Definition toText (v : JSON) : option jsstring :=
  match v with
  | JString s => Some s
  | _ => ToString v
  end.

(** A callback is invoked. *)
Definition invoke (c : Callback) (st : Session) : Session :=
  mkSession (buffer st) (accumulatedContent st) (incompleteJsonBuffer st)
    (braceCount st) (calls st ++ [c]) (consoleLines st)
    (aborted st || abortsDuring (List.length (calls st))).

(** Lines 246-257 and 265-276: one text fragment is accumulated and the
    plain text is sent to the caller. *)
Definition processFragment (text : JSON) : M unit :=
  fun st =>
    match toText text with
    | None => (st, None)
    | Some text =>
        let formattedContent :=
          processTextContent decodeHtmlEntities text
            (accumulatedContent st) in
        if truthy formattedContent then
          let st := setAccumulatedContent formattedContent st in
          let plainTextContent :=
            accumulateStreamingContent decodeHtmlEntities text
              (accumulatedContent st) in
          if truthy plainTextContent
          then (invoke (OnData plainTextContent false) st, Some tt)
          else (st, Some tt)
        else (st, Some tt)
    end.

(** Lines 263-277: [for (const part of candidate.content.parts)]. *)
Definition processPart (part : JSON) : M unit :=
  match part with
  | JNull => throw
  | _ =>
      match member (js "text") part with
      | Some text => if truthyValue text then processFragment text
                     else ret tt
      | None => ret tt
      end
  end.

Definition processParts (parts : JSON) : M unit :=
  match parts with
  | JArray items => forEach items processPart
  | JString _ => ret tt      (* its characters have no [text] *)
  | _ => throw               (* not iterable *)
  end.

(** Lines 261-280: [for (const candidate of parsed.candidates)]. *)
Definition processCandidate (candidate : JSON) : M unit :=
  match candidate with
  | JNull => throw
  | _ =>
      match member (js "content") candidate with
      | Some content =>
          if truthyValue content then
            match member (js "parts") content with
            | Some parts => if truthyValue parts then processParts parts
                            else ret tt
            | None => ret tt
            end
          else ret tt
      | None => ret tt
      end
  end.

(** Lines 244-284: what is done with the parsed object. *)
Definition processParsed (parsed : JSON) : M unit :=
  match (if truthyValue parsed then member (js "text") parsed else None)
  with
  | Some (JString text) => processFragment (JString text)
  | _ =>
      match parsed with
      | JNull => throw
      | _ =>
          match member (js "candidates") parsed with
          | Some (JArray candidates) => forEach candidates processCandidate
          | _ => lift (report (UnexpectedFormat parsed))
          end
      end
  end.

(** Lines 241-301: the [try] around a complete object. *)
Definition processComplete (jsonData : jsstring) : M unit :=
  tryCatch
    (match JSON_parse jsonData with
     | Some parsed => processParsed parsed
     | None => throw
     end)
    (lift (report (FailedToParse jsonData))).

(** Lines 178-315: one round of [for (const line of lines)]. *)
Definition processLine (st : Session) (line : jsstring) : Session :=
  let a := assemble (incompleteJsonBuffer st) line in
  let st := setIncompleteJsonBuffer
              (pendingAfter (incompleteJsonBuffer st) a) st in
  match a with
  | NotAnEvent | Sentinel | EmptyPayload => st
  | Complete jsonData =>
      fst (processComplete jsonData (setBraceCount 0 st))
  | Incomplete jsonData n =>
      report (IncompleteBuffered n) (setBraceCount n st)
  | ArrayData jsonData => report (SkippingArray jsonData) st
  | NonJson jsonData => report (SkippingNonJson jsonData) st
  end.

(** Lines 171-316: a chunk has been read. *)
Definition processChunk (chunk : jsstring) (st : Session) : Session :=
  let buffer := buffer st ++ chunk in
  let lines := splitLines buffer in
  let st := setBuffer (last lines []) st in
  fold_left processLine (removelast lines) st.

(** [processBufferContent], api.ts lines 416-433. *)
Definition processBufferContent (buffer accumulatedContent : jsstring)
  : jsstring :=
  if negb (truthy (trim buffer)) then accumulatedContent
  else
    match JSON_parse buffer with
    | Some parsed =>
        match (if truthyValue parsed then member (js "text") parsed
               else None) with
        | Some (JString text) =>
            accumulatedContent ++ formatTextContent decodeHtmlEntities text
        | _ => accumulatedContent
        end
    | None =>
        accumulatedContent ++ formatTextContent decodeHtmlEntities buffer
    end.

(** Lines 151-157: what is left in the line buffer at the end is
    flushed into the accumulation. *)
Definition flushBuffer (st : Session) : Session :=
  if truthy (trim (buffer st)) then
    let finalContent :=
      processBufferContent (buffer st) (accumulatedContent st) in
    if truthy finalContent then setAccumulatedContent finalContent st
    else st
  else st.

(** Lines 150-169: the reader is done. *)
Definition finish (st : Session) : Session :=
  let st := flushBuffer st in
  let st :=
    if truthy (accumulatedContent st) then
      let cleanedContent :=
        cleanupAccumulatedContent (accumulatedContent st) in
      let finalPlainText :=
        convertToPlainText decodeHtmlEntities cleanedContent in
      invoke (OnData finalPlainText true) st
    else st in
  invoke OnComplete st.

(** Lines 321-329: the outer [catch]. *)
Definition caught (e : Thrown) (st : Session) : Session :=
  match e with
  | AbortError => st
  | OtherError => invoke OnError st
  end.

(** Lines 143-317: the [while (true)] loop over the reads.  When the
    list ends the session is waiting for the next read. *)
Fixpoint readLoop (reads : list ReadResult) (st : Session) : Session :=
  if aborted st then st
  else
    match reads with
    | [] => st
    | ReadDone :: _ => finish st
    | ReadChunk value :: rest => readLoop rest (processChunk value st)
    | ReadThrows e :: _ => caught e st
    end.

(** [streamContract], api.ts lines 111-330. *)
Definition streamContract (c : Connection) : Session :=
  match c with
  | ConnectThrows e => caught e initial
  | Connected reads => readLoop reads initial
  end.

End WithEnvironment.

End Stream.
Import Stream.

(** ** A sample environment

    Instances of the parameters on which the model can be run: a decoder
    for text without character references, and [JSON.parse] on the flat
    objects [{"text":"..."}] whose string has no escape. *)

Module Sample.

Definition decodePlain (text : jsstring) : jsstring := text.

Definition parseTextObject (s : jsstring) : option JSON :=
  let opening := jsq "{'text':'" in
  if startsWith s opening then
    let body := skipn (List.length opening) s in
    let text := firstn (List.length body - 2) body in
    if JsString.eqb (skipn (List.length body - 2) body) (jsq "'}")
       && forallb (fun c => negb (N.eqb c QUOTE || N.eqb c BACKSLASH
                                  || N.ltb c 32)) text
    then Some (JObject [(js "text", JString text)])
    else None
  else None.

Definition noToString (v : JSON) : option jsstring := None.

Definition neverAborts (n : nat) : bool := false.

(** The line of an event whose payload is [payload]. *)
Definition dataLine (payload : jsstring) : jsstring := js "data: " ++ payload.

(** A chunk holding the given lines, each ended by a newline. *)
Fixpoint chunkOf (lines : list jsstring) : jsstring :=
  match lines with
  | [] => []
  | l :: rest => l ++ [LF] ++ chunkOf rest
  end.

End Sample.
Import Sample.

(** ** Split deliveries

    The vocabulary of the statements about payloads delivered in pieces. *)

Module Delivery.




End Delivery.
Import Delivery.

(** ** Reading the trace of callbacks *)

Module Trace.

Definition isNonFinal (c : Callback) : bool :=
  match c with OnData _ false => true | _ => false end.
Definition isFinal (c : Callback) : bool :=
  match c with OnData _ true => true | _ => false end.
Definition isComplete (c : Callback) : bool :=
  match c with OnComplete => true | _ => false end.
Definition isError (c : Callback) : bool :=
  match c with OnError => true | _ => false end.

Definition count (p : Callback -> bool) (cs : list Callback) : nat :=
  List.length (filter p cs).

End Trace.
Import Trace.

(** ** The vocabulary of the proofs *)

Module Invariants.

(** Neither end of the string is white space. *)
Definition cleanEdges (s : jsstring) : Prop :=
  s <> [] /\ trimStart s = s /\ trimStart (rev s) = rev s.

(** The line holds no newline. *)
Definition noLF (l : jsstring) : bool :=
  forallb (fun c => negb (N.eqb c LF)) l.

(** A statement keeps the relation [R] between the session before it and
    the session after it. *)
Definition keeps (R : Session -> Session -> Prop) {A : Type} (m : M A)
  : Prop :=
  forall st, R st (fst (m st)).

(** The second session has the callbacks of the first and then non-final
    emissions only. *)
Definition emitsNonFinal (st st' : Session) : Prop :=
  exists new, calls st' = calls st ++ new /\ forallb isNonFinal new = true.

(** A session in which no callback has been made is not cancelled, and one
    in which a callback has been made has a non-empty accumulation. *)
Definition silentOrAccumulated (st : Session) : Prop :=
  (calls st = [] /\ aborted st = false)
  \/ truthy (accumulatedContent st) = true.



End Invariants.
Import Invariants.

(** ** The shape of sessions *)

Module Shape.

(** A non-final emission of a text that is not empty. *)
Definition isUpdate (c : Callback) : bool :=
  match c with OnData (_ :: _) false => true | _ => false end.

(** How the callbacks of a session may end: with nothing more, with
    [onError], with [onComplete], or with the final emission followed by
    [onComplete]. *)
Definition terminal (tail : list Callback) : bool :=
  match tail with
  | [] => true
  | [OnError] => true
  | [OnComplete] => true
  | [OnData _ true; OnComplete] => true
  | _ => false
  end.

(** The pending buffer holds nothing, or text that opens with a brace and
    whose scan ends at a depth other than zero. *)
Definition pendingOpen (pending : jsstring) : Prop :=
  pending = []
  \/ (startsWith pending [LBRACE] = true /\ scanBraces pending <> 0%Z).

(** No two white-space characters stand side by side. *)
Fixpoint noAdjacentSpace (s : jsstring) : bool :=
  match s with
  | a :: (b :: _) as t =>
      negb (isWhiteSpace a && isWhiteSpace b) && noAdjacentSpace t
  | _ => true
  end.

(** The first character, if there is one, is not white space. *)
Definition startsDark (s : jsstring) : bool :=
  match s with
  | [] => true
  | c :: _ => negb (isWhiteSpace c)
  end.

(** No white space at either end and no two white-space characters side by
    side. *)
Definition tidy (s : jsstring) : bool :=
  noAdjacentSpace s && startsDark s && startsDark (rev s).

(** A statement that treats two sessions related by [Q] alike. *)
Definition alike (Q : Session -> Session -> Prop) {A : Type} (m : M A)
  : Prop :=
  forall a b, Q a b -> Q (fst (m a)) (fst (m b)) /\ snd (m a) = snd (m b).

(** The nested response shape: [part.text] is the non-empty string [t]. *)
Definition isPart (t : jsstring) (part : JSON) : Prop :=
  member (js "text") part = Some (JString t) /\ t <> [].

(** [candidate.content.parts] is an array of parts with the texts [ts]. *)
Definition isCandidate (ts : list jsstring) (candidate : JSON) : Prop :=
  exists content parts,
    member (js "content") candidate = Some content
    /\ member (js "parts") content = Some (JArray parts)
    /\ Forall2 isPart ts parts.

(** [parsed.text] is no string and [parsed.candidates] is an array of
    candidates with the texts [tss]. *)
Definition isNested (tss : list (list jsstring)) (parsed : JSON) : Prop :=
  (forall t, member (js "text") parsed <> Some (JString t))
  /\ exists candidates,
       member (js "candidates") parsed = Some (JArray candidates)
       /\ Forall2 isCandidate tss candidates.

End Shape.
Import Shape.

(** ** The helpers of the display

    The functions of [api.ts] that [ContractDisplay] and
    [streamCharacters] call on the emitted texts. *)

Module Display.

(** The patterns of [convertToStructuredHtml]. *)
Definition re_li : regex :=                         (* /(<li>.*?<\/li>)/g *)
  Grp 1 (Seq [Str (js "<li>"); LazyStar cDot; Str (js "</li>")]).
Definition re_ul_join : regex :=                    (* /<\/ul>\s*<ul>/g *)
  Seq [Str (js "</ul>"); Star cSpace; Str (js "<ul>")].

Section WithDom.

Variable decodeHtmlEntities : jsstring -> jsstring.

(** [isHtmlContent], api.ts lines 98-100. *)
Definition isHtmlContent (text : jsstring) : bool :=
  test false re_tag text.

(** [extractPlainText], api.ts lines 541-545. *)
Definition extractPlainText (content : jsstring) : jsstring :=
  let decoded := decodeHtmlEntities content in
  decoded |> replace_g re_tag [] |> trim.

(** [isStreamComplete], api.ts lines 547-551. *)
Definition isStreamComplete (content : jsstring) : bool :=
  includes content (js "```")
  && includes content (js "**Key improvements")
  && includes content (js "**How to Use This Template:").

(** [getPlainTextContent], api.ts lines 785-787. *)
Definition getPlainTextContent (content : jsstring) : jsstring :=
  convertToPlainText decodeHtmlEntities content.

(** One round of the loop of [convertToStructuredHtml], lines 701-740:
    what the line adds to [htmlContent]. *)
Definition lineToHtml (line : jsstring) : jsstring :=
  let line := trim line in
  if negb (truthy line) then []
  else if startsWith line (js "# ") then
    let title := trim (skipn 2 line) in
    js "<h1>" ++ title ++ js "</h1>"
  else if startsWith line (js "## ") then
    let header := trim (skipn 3 line) in
    js "<h2>" ++ header ++ js "</h2>"
  else if startsWith line (js "### ") then
    let subheader := trim (skipn 4 line) in
    js "<h3>" ++ subheader ++ js "</h3>"
  else if startsWith line (js "* ") then
    let bullet := trim (skipn 2 line) in
    js "<li>" ++ bullet ++ js "</li>"
  else if test false re_numbered line then
    let numbered := trim line in
    js "<li>" ++ numbered ++ js "</li>"
  else if includes line (js "**") then
    let boldText :=
      replace_g re_bold
        [TLit (js "<strong>"); TCap 1; TLit (js "</strong>")] line in
    js "<p>" ++ boldText ++ js "</p>"
  else js "<p>" ++ line ++ js "</p>".

(** [convertToStructuredHtml], api.ts lines 684-751. *)
Definition convertToStructuredHtml (rawText : jsstring) : jsstring :=
  let decoded := decodeHtmlEntities rawText in
  let cleaned :=
    decoded
    |> replace_g re_html_html [TLit html]
    |> replace_g re_html_nl_html [TLit html]
    |> replace_g re_text_html_end [TCap 1]
    |> trim in
  let lines := filter (fun line => truthy (trim line)) (splitLines cleaned) in
  let htmlContent := jsq "<div class='contract-content'>" in
  let htmlContent :=
    fold_left (fun htmlContent line => htmlContent ++ lineToHtml line)
      lines htmlContent in
  let htmlContent := htmlContent ++ js "</div>" in
  htmlContent
  |> replace_g re_li [TLit (js "<ul>"); TCap 1; TLit (js "</ul>")]
  |> replace_g re_ul_join [].

(** [accumulateStreamingHtml], api.ts lines 767-777. *)
Definition accumulateStreamingHtml (newText accumulatedContent : jsstring)
  : jsstring :=
  if negb (truthy accumulatedContent) then convertToStructuredHtml newText
  else
    let combinedText := accumulatedContent ++ [LF] ++ newText in
    convertToStructuredHtml combinedText.

(** [getHtmlContent], api.ts lines 780-782. *)
Definition getHtmlContent (content : jsstring) : jsstring :=
  convertToStructuredHtml content.

End WithDom.

End Display.
Import Display.

(** ** Runs of characters *)

Module Runs.

(** The longest prefix of characters in the class [p], and what follows
    it. *)
Fixpoint takeRun (p : char -> bool) (s : jsstring) : jsstring :=
  match s with
  | c :: s' => if p c then c :: takeRun p s' else []
  | [] => []
  end.

Fixpoint dropRun (p : char -> bool) (s : jsstring) : jsstring :=
  match s with
  | c :: s' => if p c then dropRun p s' else s
  | [] => []
  end.

(** [t] is what is left of [s] from some position on. *)
Definition Suffix (t s : jsstring) : Prop := exists pre, s = pre ++ t.

(** The pattern matches nowhere in [s], whatever stands before. *)
Definition matchesNowhere (multiline : bool) (r : regex) (s : jsstring)
  : Prop :=
  forall prev t, Suffix t s -> matchAt multiline r prev t = None.

(** No [<] of the text has a [>] anywhere after it. *)
Fixpoint tagFree (s : jsstring) : bool :=
  match s with
  | [] => true
  | c :: t => (negb (N.eqb c 60%N) || forallb cNotGt t) && tagFree t
  end.

(** No two characters [q] stand side by side. *)
Fixpoint apart (q : char) (s : jsstring) : bool :=
  match s with
  | a :: (b :: _) as t => negb (N.eqb a q && N.eqb b q) && apart q t
  | _ => true
  end.

(** The character [q] does not occur. *)
Definition free (q : char) (s : jsstring) : bool :=
  forallb (fun c => negb (N.eqb c q)) s.

Definition BACKQUOTE : char := 96%N.

(** The characters that the inside of a code span is made of. *)
Definition inCode (c : char) : bool := cDot c && negb (N.eqb c BACKQUOTE).

(** Every match of the pattern [r] in multiline mode starts at the start
    of a line with a character that ends no line and runs to the end of
    a line, and its replacement by [tmpl] is a text without [q] followed
    by the end [run] of the match. *)
Definition lineRule (q : char) (r : regex) (tmpl : list piece) : Prop :=
  forall prev s rest caps,
    matchAt true r prev s = Some (rest, caps) ->
    atBol true prev = true
    /\ exists pre lead run,
         s = pre ++ run ++ rest
         /\ atEol true pre = false
         /\ expand tmpl caps = lead ++ run
         /\ free q lead = true
         /\ atEol true rest = true.

(** The text of the callback, if it has one, is not complete in the sense
    of [isStreamComplete]. *)
Definition notComplete (c : Callback) : bool :=
  match c with
  | OnData text _ => negb (isStreamComplete text)
  | _ => true
  end.

(** The literal text of a piece of a replacement is made of characters
    of the class [q]. *)
Definition pieceWithin (q : char -> bool) (p : piece) : bool :=
  match p with
  | TLit w => forallb q w
  | TCap _ => true
  end.

(** The captured texts are made of characters of the class [q]. *)
Definition capturesWithin (q : char -> bool) (caps : captures) : bool :=
  forallb (fun nw => forallb q (snd nw)) caps.

End Runs.
Import Runs.

(** ** Well-formed events *)

Module Events.

(** The payload of an event that holds one object on one line, and the
    texts that the object carries: the text of the flat shape, or the
    texts of the parts of the candidates of the nested shape. *)
Definition carries (JSON_parse : jsstring -> option JSON)
  (payload : jsstring) (texts : list jsstring) : Prop :=
  trim payload = payload
  /\ startsWith payload [LBRACE] = true
  /\ scanBraces payload = 0%Z
  /\ noLF payload = true
  /\ exists parsed,
       JSON_parse payload = Some parsed
       /\ ((exists t,
              member (js "text") parsed = Some (JString t) /\ texts = [t])
           \/ (exists tss, isNested tss parsed /\ texts = List.concat tss)).

End Events.
Import Events.

(** * Properties *)

(** ** Strings *)

Module StringFacts.

Lemma eqb_eq (s t : jsstring) : JsString.eqb s t = true <-> s = t.
Proof.
  revert t; induction s as [|c s IH]; intros [|d t]; simpl;
    try (split; [discriminate | discriminate]); try tauto.
  rewrite andb_true_iff, N.eqb_eq, IH.
  split; [intros [-> ->]; reflexivity | intros H; inversion H; auto].
Qed.

Lemma eqb_refl (s : jsstring) : JsString.eqb s s = true.
Proof. apply eqb_eq; reflexivity. Qed.

Lemma startsWith_spec (s p : jsstring) :
  startsWith s p = true <-> exists r, s = p ++ r.
Proof.
  revert s; induction p as [|d p IH]; intros s; simpl.
  - split; [intros _; exists s; reflexivity | reflexivity].
  - destruct s as [|c s].
    + split; [discriminate | intros [r H]; discriminate].
    + rewrite andb_true_iff, N.eqb_eq, IH. split.
      * intros [-> [r ->]]. exists r; reflexivity.
      * intros [r H]. inversion H; subst. split; [reflexivity | exists r; reflexivity].
Qed.

Lemma startsWith_app (p r : jsstring) : startsWith (p ++ r) p = true.
Proof. apply startsWith_spec; exists r; reflexivity. Qed.

Lemma startsWith_refl (s : jsstring) : startsWith s s = true.
Proof. apply startsWith_spec; exists []; rewrite app_nil_r; reflexivity. Qed.

(** [includes] is the substring test. *)
Lemma includes_spec (s t : jsstring) :
  includes s t = true <-> exists a b, s = a ++ t ++ b.
Proof.
  induction s as [|c s IH].
  - simpl. rewrite orb_false_r, startsWith_spec. split.
    + intros [r H]. exists [], r. exact H.
    + intros (a & b & H). destruct a as [|x a]; [|discriminate].
      exists b. exact H.
  - cbn [includes]. rewrite orb_true_iff, startsWith_spec, IH. split.
    + intros [[r H] | (a & b & H)].
      * exists [], r. exact H.
      * exists (c :: a), b. rewrite H. reflexivity.
    + intros (a & b & H). destruct a as [|x a].
      * left. exists b. exact H.
      * right. inversion H; subst. exists a, b. reflexivity.
Qed.

Lemma includes_refl (s : jsstring) : includes s s = true.
Proof. apply includes_spec. exists [], []. rewrite app_nil_r. reflexivity. Qed.

Lemma includes_app_r (a t : jsstring) : includes (a ++ t) t = true.
Proof. apply includes_spec. exists a, []. rewrite app_nil_r. reflexivity. Qed.

Lemma includes_nil_l (t : jsstring) : includes [] t = true -> t = [].
Proof.
  intros H. apply includes_spec in H. destruct H as (a & b & H).
  symmetry in H. apply app_eq_nil in H. destruct H as [_ H].
  apply app_eq_nil in H. tauto.
Qed.

Lemma truthy_true (s : jsstring) : truthy s = true <-> s <> [].
Proof. destruct s; simpl; split; congruence. Qed.

Lemma truthy_false (s : jsstring) : truthy s = false <-> s = [].
Proof. destruct s; simpl; split; congruence. Qed.

End StringFacts.
Import StringFacts.

(** ** The Document Accumulator *)

Section Accumulator.

Variable decodeHtmlEntities : jsstring -> jsstring.

Local Abbreviation fmt := (formatTextContent decodeHtmlEntities).
Local Abbreviation process := (processTextContent decodeHtmlEntities).

Lemma processTextContent_duplicate (text acc : jsstring) :
  includes acc (fmt text) = true -> process text acc = acc.
Proof.
  unfold processTextContent. intros H.
  destruct acc as [|c acc]; simpl truthy; cbv iota.
  - apply includes_nil_l in H. exact H.
  - rewrite H. reflexivity.
Qed.

Lemma processTextContent_includes (text acc : jsstring) :
  includes (process text acc) (fmt text) = true.
Proof.
  unfold processTextContent.
  destruct acc as [|c acc]; simpl truthy; cbv iota.
  - apply includes_refl.
  - destruct (includes (c :: acc) _) eqn:E; [exact E | apply includes_app_r].
Qed.

End Accumulator.

(** C4.  A fragment whose formatted text already occurs in the accumulation
    leaves it as it is: [processTextContent] returns the accumulation, and
    the session's [accumulatedContent] is the same after the fragment.  So
    delivering a fragment a second time changes nothing. *)
Theorem C4_duplicate_fragment_changes_nothing
  (decodeHtmlEntities : jsstring -> jsstring)
  (ToString : JSON -> option jsstring) (abortsDuring : nat -> bool)
  (text acc : jsstring) (st : Session) :
  let fmt := formatTextContent decodeHtmlEntities in
  let process := processTextContent decodeHtmlEntities in
  (forall before after,
      acc = before ++ fmt text ++ after -> process text acc = acc)
  /\ process text (process text acc) = process text acc
  /\ (forall before after,
         accumulatedContent st = before ++ fmt text ++ after ->
         accumulatedContent
           (fst (processFragment decodeHtmlEntities ToString abortsDuring
                   (JString text) st))
         = accumulatedContent st).
Proof.
  intros fmt process. split; [|split].
  - intros before after H. apply processTextContent_duplicate.
    apply includes_spec. exists before, after. exact H.
  - apply processTextContent_duplicate, processTextContent_includes.
  - intros before after H.
    assert (D : process text (accumulatedContent st) = accumulatedContent st).
    { apply processTextContent_duplicate, includes_spec.
      exists before, after. exact H. }
    unfold processFragment. cbn [toText]. subst process. rewrite D.
    destruct (truthy (accumulatedContent st)); [|reflexivity].
    cbv zeta. cbn [accumulatedContent setAccumulatedContent].
    destruct (truthy (accumulateStreamingContent _ _ _)); reflexivity.
Qed.

Lemma C4_duplicate_fragment_witness :
  processTextContent decodePlain (js " Hello") (js "Hello world")
  = js "Hello world"
  /\ processTextContent decodePlain (js "again")
       (processTextContent decodePlain (js "again") (js "Hello"))
     = processTextContent decodePlain (js "again") (js "Hello").
Proof.
  pose proof (C4_duplicate_fragment_changes_nothing decodePlain noToString
                neverAborts (js " Hello") (js "Hello world") initial)
    as (D & _ & _).
  pose proof (C4_duplicate_fragment_changes_nothing decodePlain noToString
                neverAborts (js "again") (js "Hello") initial)
    as (_ & T & _).
  cbv zeta in *. split; [|exact T].
  apply (D [] (js " world")). reflexivity.
Defined.

(** ** The plain-text cleanup of [formatTextContent] *)

(** C9.  On [a\n\n\nb] the three newlines first become two, and the two are
    then taken by [/\s{2,}/g] and become one space: no newline is left.
    The text has no character reference, so decoding leaves it alone. *)
Theorem C9_newline_run_becomes_one_space
  (decodeHtmlEntities : jsstring -> jsstring) :
  let text := js "a" ++ [LF; LF; LF] ++ js "b" in
  decodeHtmlEntities text = text ->
  formatTextContent decodeHtmlEntities text = js "a b"
  /\ replace_g re_newlines3 [TLit [LF; LF]] text = js "a" ++ [LF; LF] ++ js "b"
  /\ ~ In LF (formatTextContent decodeHtmlEntities text).
Proof.
  intros text H.
  assert (E : formatTextContent decodeHtmlEntities text = js "a b").
  { unfold formatTextContent. rewrite H. vm_compute. reflexivity. }
  split; [exact E | split].
  - vm_compute. reflexivity.
  - rewrite E. vm_compute. intuition discriminate.
Qed.

Lemma C9_newline_run_witness :
  formatTextContent decodePlain (js "a" ++ [LF; LF; LF] ++ js "b") = js "a b"
  /\ replace_g re_newlines3 [TLit [LF; LF]] (js "a" ++ [LF; LF; LF] ++ js "b")
     = js "a" ++ [LF; LF] ++ js "b"
  /\ ~ In LF (formatTextContent decodePlain (js "a" ++ [LF; LF; LF] ++ js "b")).
Proof.
  apply (C9_newline_run_becomes_one_space decodePlain). reflexivity.
Defined.

(** ** The Fragment Assembler *)

Module AssemblerFacts.

Lemma length_trimStart (s : jsstring) :
  List.length (trimStart s) <= List.length s.
Proof.
  induction s as [|c s IH]; simpl; [lia|].
  destruct (isWhiteSpace c); simpl; lia.
Qed.

Lemma trimStart_same_or_shorter (s : jsstring) :
  trimStart s = s \/ List.length (trimStart s) < List.length s.
Proof.
  destruct s as [|c s]; simpl; [left; reflexivity|].
  destruct (isWhiteSpace c); [right | left; reflexivity].
  pose proof (length_trimStart s). lia.
Qed.


Lemma cleanEdges_trim (s : jsstring) : cleanEdges s -> trim s = s.
Proof.
  intros (_ & H1 & H2). unfold trim, trimEnd.
  rewrite H1, H2. apply rev_involutive.
Qed.

Lemma trim_cleanEdges (s : jsstring) : s <> [] -> trim s = s -> cleanEdges s.
Proof.
  intros Hne H.
  assert (H1 : trimStart s = s).
  { destruct (trimStart_same_or_shorter s) as [E | L]; [exact E|].
    exfalso.
    assert (List.length (trim s) <= List.length (trimStart s)).
    { unfold trim, trimEnd. rewrite length_rev.
      etransitivity; [apply length_trimStart|]. rewrite length_rev. lia. }
    rewrite H in *. lia. }
  split; [exact Hne | split; [exact H1|]].
  unfold trim, trimEnd in H. rewrite H1 in H.
  apply (f_equal (@rev char)) in H. rewrite rev_involutive in H. exact H.
Qed.




(** What the assembler makes of a piece that passes unchanged: the pending
    buffer followed by the piece, classified by its first character and
    the depth at its end. *)
Lemma assemble_piece (pending p : jsstring) :
  cleanEdges p -> JsString.eqb p (js "[DONE]") = false ->
  assemble pending (dataLine p) =
    let jsonData := pending ++ p in
    if startsWith jsonData [LBRACE] then
      if Z.eqb (scanBraces jsonData) 0 then Complete jsonData
      else Incomplete jsonData (scanBraces jsonData)
    else if startsWith jsonData [LBRACKET] then ArrayData jsonData
    else NonJson jsonData.
Proof.
  intros C D. unfold assemble, dataLine.
  rewrite startsWith_app.
  change (slice 6 (js "data: " ++ p)) with p.
  rewrite (cleanEdges_trim C), D.
  destruct C as (N & _). apply truthy_true in N. rewrite N. cbn [negb].
  destruct pending; reflexivity.
Qed.





End AssemblerFacts.
Import AssemblerFacts.

(** ** What the processing of a chunk preserves

    A relation between the session before and after that holds across the
    assignments and calls of lines 171-316 holds across a whole chunk. *)

Section Preserved.

Variable decodeHtmlEntities : jsstring -> jsstring.
Variable JSON_parse : jsstring -> option JSON.
Variable ToString : JSON -> option jsstring.
Variable abortsDuring : nat -> bool.

Variable R : Session -> Session -> Prop.
Hypothesis R_refl : forall st, R st st.
Hypothesis R_trans : forall a b c, R a b -> R b c -> R a c.
Hypothesis R_accumulate :
  forall a st, truthy a = true -> R st (setAccumulatedContent a st).
Hypothesis R_onData :
  forall t st, truthy (accumulatedContent st) = true ->
               R st (invoke abortsDuring (OnData t false) st).
Hypothesis R_report : forall d st, R st (report d st).
Hypothesis R_pending : forall b st, R st (setIncompleteJsonBuffer b st).
Hypothesis R_braceCount : forall n st, R st (setBraceCount n st).
Hypothesis R_buffer : forall b st, R st (setBuffer b st).

Local Abbreviation keeps := (Invariants.keeps R).

Lemma keeps_ret {A : Type} (a : A) : keeps (ret a).
Proof. intros st. apply R_refl. Qed.

Lemma keeps_throw {A : Type} : keeps (@throw A).
Proof. intros st. apply R_refl. Qed.

Lemma keeps_lift_report (d : Diagnostic) : keeps (lift (report d)).
Proof. intros st. apply R_report. Qed.

Lemma keeps_bind {A B : Type} (m : M A) (f : A -> M B) :
  keeps m -> (forall a, keeps (f a)) -> keeps (bind m f).
Proof.
  intros Hm Hf st. unfold bind. specialize (Hm st).
  destruct (m st) as [st' [a|]]; cbn [fst] in *.
  - eapply R_trans; [exact Hm | apply Hf].
  - exact Hm.
Qed.

Lemma keeps_tryCatch (body handler : M unit) :
  keeps body -> keeps handler -> keeps (tryCatch body handler).
Proof.
  intros Hb Hh st. unfold tryCatch. specialize (Hb st).
  destruct (body st) as [st' [a|]]; cbn [fst] in *.
  - exact Hb.
  - eapply R_trans; [exact Hb | apply Hh].
Qed.

Lemma keeps_forEach {A : Type} (items : list A) (body : A -> M unit) :
  (forall x, keeps (body x)) -> keeps (forEach items body).
Proof.
  intros Hb. induction items as [|x items IH]; cbn [forEach].
  - apply keeps_ret.
  - apply keeps_bind; [apply Hb | intros _; exact IH].
Qed.

Lemma keeps_processFragment (text : JSON) :
  keeps (processFragment decodeHtmlEntities ToString abortsDuring text).
Proof.
  intros st. unfold processFragment.
  destruct (toText ToString text) as [s|]; [|apply R_refl].
  destruct (truthy (processTextContent _ s _)) eqn:T; [|apply R_refl].
  cbv zeta.
  destruct (truthy (accumulateStreamingContent _ _ _)); cbn [fst].
  - eapply R_trans; [apply R_accumulate, T|]. apply R_onData. exact T.
  - apply R_accumulate, T.
Qed.

Lemma keeps_processPart (part : JSON) :
  keeps (processPart decodeHtmlEntities ToString abortsDuring part).
Proof.
  unfold processPart.
  destruct part; try apply keeps_throw;
    (destruct (member _ _) as [text|]; [|apply keeps_ret];
     destruct (truthyValue text);
     [apply keeps_processFragment | apply keeps_ret]).
Qed.

Lemma keeps_processParts (parts : JSON) :
  keeps (processParts decodeHtmlEntities ToString abortsDuring parts).
Proof.
  unfold processParts.
  destruct parts; try apply keeps_throw; try apply keeps_ret.
  apply keeps_forEach. intros x. apply keeps_processPart.
Qed.

Lemma keeps_processCandidate (candidate : JSON) :
  keeps (processCandidate decodeHtmlEntities ToString abortsDuring
           candidate).
Proof.
  unfold processCandidate.
  destruct candidate; try apply keeps_throw;
    (destruct (member _ _) as [content|]; [|apply keeps_ret];
     destruct (truthyValue content); [|apply keeps_ret];
     destruct (member _ content) as [parts|]; [|apply keeps_ret];
     destruct (truthyValue parts);
     [apply keeps_processParts | apply keeps_ret]).
Qed.

Lemma keeps_processParsed (parsed : JSON) :
  keeps (processParsed decodeHtmlEntities ToString abortsDuring parsed).
Proof.
  assert (C : forall v : JSON,
             keeps (match member (js "candidates") v with
                    | Some (JArray candidates) =>
                        forEach candidates
                          (processCandidate decodeHtmlEntities ToString
                             abortsDuring)
                    | _ => lift (report (UnexpectedFormat v))
                    end)).
  { intros v. destruct (member _ v) as [[| | | |cs|]|];
      try apply keeps_lift_report.
    apply keeps_forEach. intros x. apply keeps_processCandidate. }
  unfold processParsed.
  destruct (if truthyValue parsed then member (js "text") parsed else None)
    as [[| | |text| |]|];
    try apply keeps_processFragment;
    (destruct parsed; [apply keeps_throw | apply C ..]).
Qed.

Lemma keeps_processComplete (jsonData : jsstring) :
  keeps (processComplete decodeHtmlEntities JSON_parse ToString
           abortsDuring jsonData).
Proof.
  unfold processComplete. apply keeps_tryCatch.
  - destruct (JSON_parse jsonData);
      [apply keeps_processParsed | apply keeps_throw].
  - apply keeps_lift_report.
Qed.

Lemma keeps_processLine (st : Session) (line : jsstring) :
  R st (processLine decodeHtmlEntities JSON_parse ToString abortsDuring
          st line).
Proof.
  unfold processLine.
  destruct (assemble (incompleteJsonBuffer st) line);
    cbv zeta; try apply R_pending.
  - eapply R_trans; [apply R_pending|].
    eapply R_trans; [apply R_braceCount|]. apply keeps_processComplete.
  - eapply R_trans; [apply R_pending|].
    eapply R_trans; [apply R_braceCount|]. apply R_report.
  - eapply R_trans; [apply R_pending | apply R_report].
  - eapply R_trans; [apply R_pending | apply R_report].
Qed.

Lemma keeps_processLines (lines : list jsstring) :
  forall st,
    R st (fold_left
            (processLine decodeHtmlEntities JSON_parse ToString
               abortsDuring) lines st).
Proof.
  induction lines as [|l lines IH]; intros st; cbn [fold_left].
  - apply R_refl.
  - eapply R_trans; [apply keeps_processLine | apply IH].
Qed.

Lemma keeps_processChunk (chunk : jsstring) (st : Session) :
  R st (processChunk decodeHtmlEntities JSON_parse ToString abortsDuring
          chunk st).
Proof.
  unfold processChunk.
  eapply R_trans; [apply R_buffer | apply keeps_processLines].
Qed.

(** The chunks read before the reader is done. *)
Lemma keeps_chunks (chunks : list jsstring) :
  forall st,
    R st (readLoop decodeHtmlEntities JSON_parse ToString abortsDuring
            (map ReadChunk chunks) st).
Proof.
  induction chunks as [|c chunks IH]; intros st; cbn [map readLoop].
  - destruct (aborted st); apply R_refl.
  - destruct (aborted st); [apply R_refl|].
    eapply R_trans; [apply keeps_processChunk | apply IH].
Qed.

End Preserved.

Module TraceFacts.

Lemma count_app (p : Callback -> bool) (a b : list Callback) :
  count p (a ++ b) = count p a + count p b.
Proof. unfold count. rewrite filter_app, length_app. reflexivity. Qed.

Lemma count_nonFinal (cs : list Callback) :
  forallb isNonFinal cs = true ->
  count isFinal cs = 0 /\ count isComplete cs = 0 /\ count isError cs = 0.
Proof.
  induction cs as [|c cs IH]; [intros _; repeat split|].
  cbn [forallb]. rewrite andb_true_iff. intros [N F].
  destruct (IH F) as (I1 & I2 & I3). unfold count in *.
  destruct c as [t [|]| |]; try discriminate. cbn. auto.
Qed.

End TraceFacts.
Import TraceFacts.

(** ** The read loop *)

Section ReadLoop.

Variable decodeHtmlEntities : jsstring -> jsstring.
Variable JSON_parse : jsstring -> option JSON.
Variable ToString : JSON -> option jsstring.
Variable abortsDuring : nat -> bool.

Local Abbreviation loop :=
  (readLoop decodeHtmlEntities JSON_parse ToString abortsDuring).

(** Once the signal is seen aborted, or the session has ended, later
    reads are never made. *)
Lemma readLoop_stopped (pre post : list ReadResult) :
  forall st, aborted (loop pre st) = true ->
             loop (pre ++ post) st = loop pre st.
Proof.
  induction pre as [|r pre IH]; intros st H; cbn [app readLoop] in *.
  - destruct post as [|r post]; cbn [readLoop];
      destruct (aborted st) eqn:A; try reflexivity; congruence.
  - destruct (aborted st); [reflexivity|].
    destruct r; try reflexivity. apply IH, H.
Qed.

Lemma readLoop_abortError (pre post : list ReadResult) :
  forall st, loop (pre ++ ReadThrows AbortError :: post) st = loop pre st.
Proof.
  induction pre as [|r pre IH]; intros st; cbn [app readLoop].
  - destruct (aborted st); reflexivity.
  - destruct (aborted st); [reflexivity|].
    destruct r; try reflexivity. apply IH.
Qed.

Lemma readLoop_chunks_then (chunks : list jsstring) (rest : list ReadResult) :
  forall st, loop (map ReadChunk chunks ++ rest) st
             = loop rest (loop (map ReadChunk chunks) st).
Proof.
  induction chunks as [|c chunks IH]; intros st; cbn [map app readLoop].
  - destruct (aborted st) eqn:A; [|reflexivity].
    destruct rest; cbn [readLoop]; rewrite A; reflexivity.
  - destruct (aborted st) eqn:A; [|apply IH].
    destruct rest; cbn [readLoop]; rewrite A; reflexivity.
Qed.

(** The assignments and calls that a chunk is made of add non-final
    emissions only. *)
Ltac emits_nothing :=
  intros; exists []; rewrite app_nil_r; split; reflexivity.

Lemma processChunk_emitsNonFinal (chunk : jsstring) (st : Session) :
  emitsNonFinal st
    (processChunk decodeHtmlEntities JSON_parse ToString abortsDuring
       chunk st).
Proof.
  apply keeps_processChunk; unfold emitsNonFinal; clear;
    try solve [emits_nothing].
  - intros a b c (n1 & E1 & F1) (n2 & E2 & F2). exists (n1 ++ n2).
    rewrite E2, E1, app_assoc, forallb_app, F1, F2. split; reflexivity.
  - intros t st _. exists [OnData t false]. split; reflexivity.
Qed.

Lemma chunks_emitNonFinal (chunks : list jsstring) (st : Session) :
  emitsNonFinal st (loop (map ReadChunk chunks) st).
Proof.
  apply keeps_chunks; unfold emitsNonFinal; clear;
    try solve [emits_nothing].
  - intros a b c (n1 & E1 & F1) (n2 & E2 & F2). exists (n1 ++ n2).
    rewrite E2, E1, app_assoc, forallb_app, F1, F2. split; reflexivity.
  - intros t st _. exists [OnData t false]. split; reflexivity.
Qed.

Lemma chunks_silentOrAccumulated (chunks : list jsstring) (st : Session) :
  silentOrAccumulated st ->
  silentOrAccumulated (loop (map ReadChunk chunks) st).
Proof.
  apply (keeps_chunks decodeHtmlEntities JSON_parse ToString abortsDuring
           (fun a b => silentOrAccumulated a -> silentOrAccumulated b));
    unfold silentOrAccumulated; clear; tauto.
Qed.

Lemma flushBuffer_calls (st : Session) :
  calls (flushBuffer decodeHtmlEntities JSON_parse st) = calls st
  /\ aborted (flushBuffer decodeHtmlEntities JSON_parse st) = aborted st.
Proof.
  unfold flushBuffer. destruct (truthy (trim (buffer st))); [|tauto].
  cbv zeta. destruct (truthy (processBufferContent _ _ _ _)); tauto.
Qed.

Lemma flushBuffer_keeps_truthy (st : Session) :
  truthy (accumulatedContent st) = true ->
  truthy (accumulatedContent (flushBuffer decodeHtmlEntities JSON_parse st))
  = true.
Proof.
  intros T. unfold flushBuffer.
  destruct (truthy (trim (buffer st))); [|exact T]. cbv zeta.
  destruct (truthy (processBufferContent _ _ _ _)) eqn:F; [exact F | exact T].
Qed.

(** The callbacks made when the reader is done. *)
Lemma finish_calls (st : Session) :
  let st' := finish decodeHtmlEntities JSON_parse abortsDuring st in
  accumulatedContent st'
  = accumulatedContent (flushBuffer decodeHtmlEntities JSON_parse st)
  /\ calls st'
     = calls st
       ++ (if truthy (accumulatedContent st')
           then [OnData
                   (convertToPlainText decodeHtmlEntities
                      (cleanupAccumulatedContent (accumulatedContent st')))
                   true]
           else [])
       ++ [OnComplete].
Proof.
  cbv zeta. unfold finish.
  destruct (flushBuffer_calls st) as [C _]. revert C.
  generalize (flushBuffer decodeHtmlEntities JSON_parse st). intros s C.
  destruct (truthy (accumulatedContent s)) eqn:T;
    cbn [invoke calls accumulatedContent]; rewrite ?T, C;
    [rewrite <- app_assoc|]; split; reflexivity.
Qed.

(** [onError] is called for a failure of the transport only. *)
Lemma readLoop_no_error (reads : list ReadResult) :
  (forall r, In r reads -> r <> ReadThrows OtherError) ->
  forall st, count isError (calls st) = 0 ->
             count isError (calls (loop reads st)) = 0.
Proof.
  induction reads as [|r reads IH]; intros N st H; cbn [readLoop].
  - destruct (aborted st); exact H.
  - destruct (aborted st); [exact H|].
    destruct r as [chunk| |[|]].
    + apply IH; [intros r I; apply N; right; exact I|].
      destruct (processChunk_emitsNonFinal chunk st) as (new & E & F).
      rewrite E, count_app, H. apply count_nonFinal, F.
    + destruct (finish_calls st) as [_ K]. rewrite K, !count_app, H.
      destruct (truthy _); reflexivity.
    + exact H.
    + exfalso. apply (N (ReadThrows OtherError)); [left|]; reflexivity.
Qed.

End ReadLoop.


(** ** The end of the stream *)

(** C2, as amended.  When the chunks have been read and the reader is done,
    and no callback cancels the session, the callbacks made are the
    non-final emissions, then one final emission when the accumulation is
    not empty and none when it is empty, then [onComplete], once. *)
Theorem C2_final_emission_after_the_nonfinal_ones
  (decodeHtmlEntities : jsstring -> jsstring)
  (JSON_parse : jsstring -> option JSON) (ToString : JSON -> option jsstring)
  (abortsDuring : nat -> bool) (chunks : list jsstring) :
  (forall n, abortsDuring n = false) ->
  let st := streamContract decodeHtmlEntities JSON_parse ToString abortsDuring
              (Connected (map ReadChunk chunks ++ [ReadDone])) in
  let final :=
    if truthy (accumulatedContent st)
    then [OnData (convertToPlainText decodeHtmlEntities
                    (cleanupAccumulatedContent (accumulatedContent st))) true]
    else [] in
  (exists nonFinal,
      calls st = nonFinal ++ final ++ [OnComplete]
      /\ forallb isNonFinal nonFinal = true)
  /\ count isFinal (calls st) = (if truthy (accumulatedContent st) then 1 else 0)
  /\ count isComplete (calls st) = 1
  /\ count isError (calls st) = 0.
Proof.
  intros H st final.
  set (st0 := readLoop decodeHtmlEntities JSON_parse ToString abortsDuring
                (map ReadChunk chunks) initial).
  assert (A : aborted st0 = false).
  { change false with (aborted initial). subst st0.
    apply (keeps_chunks decodeHtmlEntities JSON_parse ToString abortsDuring
             (fun a b => aborted b = aborted a)); clear - H; try reflexivity.
    - intros a b c E1 E2. congruence.
    - intros t st _. cbn [invoke aborted]. rewrite H. apply orb_false_r. }
  assert (E : st = finish decodeHtmlEntities JSON_parse abortsDuring st0).
  { subst st. unfold streamContract. rewrite readLoop_chunks_then.
    fold st0. cbn [readLoop]. rewrite A. reflexivity. }
  destruct (chunks_emitNonFinal decodeHtmlEntities JSON_parse ToString
              abortsDuring chunks initial) as (new & C & F).
  fold st0 in C. cbn [calls initial app] in C.
  destruct (finish_calls decodeHtmlEntities JSON_parse abortsDuring st0)
    as [_ K].
  rewrite <- E, C in K. fold final in K.
  destruct (count_nonFinal new F) as (N1 & N2 & N3).
  split; [exists new; split; [exact K | exact F]|].
  rewrite K, !count_app, N1, N2, N3. subst final.
  destruct (truthy (accumulatedContent st)); repeat split; reflexivity.
Qed.

Lemma C2_final_emission_witness :
  let st := streamContract decodePlain parseTextObject noToString neverAborts
              (Connected
                 (map ReadChunk
                    [chunkOf [dataLine (jsq "{'text':'Hello'}");
                              dataLine (js "[DONE]")]]
                  ++ [ReadDone])) in
  count isFinal (calls st) = 1 /\ count isComplete (calls st) = 1.
Proof.
  pose proof (C2_final_emission_after_the_nonfinal_ones
                decodePlain parseTextObject noToString neverAborts
                [chunkOf [dataLine (jsq "{'text':'Hello'}");
                          dataLine (js "[DONE]")]]
                (fun n => eq_refl)) as (_ & F & C & _).
  cbv zeta. split; [exact F | exact C].
Defined.

(** C2 as stated fails: a stream whose only fragment is a space, followed
    by the sentinel and the end of the stream, leaves the accumulation
    empty, and no final emission is made. *)
Lemma C2_blank_stream_gives_no_final_emission :
  let st := streamContract decodePlain parseTextObject noToString neverAborts
              (Connected [ReadChunk (chunkOf [dataLine (jsq "{'text':' '}");
                                              dataLine (js "[DONE]")]);
                          ReadDone]) in
  calls st = [OnComplete] /\ count isFinal (calls st) = 0.
Proof. vm_compute. split; reflexivity. Qed.

(** C10.  When the accumulation is empty at the end of the stream (after
    the flush of the line buffer), no callback has been made before and
    the only callback made is [onComplete]: there is no final emission. *)
Theorem C10_empty_accumulation_gives_onComplete_alone
  (decodeHtmlEntities : jsstring -> jsstring)
  (JSON_parse : jsstring -> option JSON) (ToString : JSON -> option jsstring)
  (abortsDuring : nat -> bool) (chunks : list jsstring) :
  let st := streamContract decodeHtmlEntities JSON_parse ToString abortsDuring
              (Connected (map ReadChunk chunks ++ [ReadDone])) in
  accumulatedContent st = [] ->
  calls st = [OnComplete]
  /\ count isFinal (calls st) = 0 /\ count isComplete (calls st) = 1.
Proof.
  intros st H.
  set (st0 := readLoop decodeHtmlEntities JSON_parse ToString abortsDuring
                (map ReadChunk chunks) initial).
  assert (E0 : st = readLoop decodeHtmlEntities JSON_parse ToString
                      abortsDuring [ReadDone] st0).
  { subst st. unfold streamContract. apply readLoop_chunks_then. }
  assert (S : silentOrAccumulated st0).
  { apply chunks_silentOrAccumulated. left. split; reflexivity. }
  assert (C : calls st = [OnComplete]).
  { destruct S as [[C A] | T].
    - assert (E : st = finish decodeHtmlEntities JSON_parse abortsDuring st0).
      { rewrite E0. cbn [readLoop]. rewrite A. reflexivity. }
      destruct (finish_calls decodeHtmlEntities JSON_parse abortsDuring st0)
        as [_ K].
      rewrite <- E, H, C in K. exact K.
    - exfalso.
      assert (T' : truthy (accumulatedContent st) = true).
      { rewrite E0. cbn [readLoop]. destruct (aborted st0); [exact T|].
        destruct (finish_calls decodeHtmlEntities JSON_parse abortsDuring st0)
          as [K _].
        rewrite K. apply flushBuffer_keeps_truthy, T. }
      rewrite H in T'. discriminate. }
  rewrite C. repeat split; reflexivity.
Qed.

Lemma C10_empty_accumulation_witness :
  let st := streamContract decodePlain parseTextObject noToString neverAborts
              (Connected
                 (map ReadChunk
                    [chunkOf [dataLine (jsq "{'text':''}")];
                     chunkOf [dataLine (js "[DONE]")]]
                  ++ [ReadDone])) in
  accumulatedContent st = [] /\ calls st = [OnComplete].
Proof.
  split; [reflexivity|].
  apply (C10_empty_accumulation_gives_onComplete_alone
           decodePlain parseTextObject noToString neverAborts
           [chunkOf [dataLine (jsq "{'text':''}")];
            chunkOf [dataLine (js "[DONE]")]]).
  reflexivity.
Defined.

(** ** Cancellation *)

(** C6, as amended.  The signal is looked at where the loop is about to
    read, and an aborted read or request surfaces as an [AbortError]:
    once the session has seen the cancellation in either way, whatever the
    reader would still deliver leads to no callback, and the
    [AbortError] itself leads to none.  [onError] is called only when a
    read fails otherwise, never for a cancellation. *)
Theorem C6_no_callback_once_cancellation_is_seen
  (decodeHtmlEntities : jsstring -> jsstring)
  (JSON_parse : jsstring -> option JSON) (ToString : JSON -> option jsstring)
  (abortsDuring : nat -> bool) (pre post : list ReadResult) :
  let session := fun reads =>
    streamContract decodeHtmlEntities JSON_parse ToString abortsDuring
      (Connected reads) in
  (aborted (session pre) = true -> session (pre ++ post) = session pre)
  /\ session (pre ++ ReadThrows AbortError :: post) = session pre
  /\ streamContract decodeHtmlEntities JSON_parse ToString abortsDuring
       (ConnectThrows AbortError) = initial
  /\ ((forall r, In r pre -> r <> ReadThrows OtherError) ->
      count isError (calls (session pre)) = 0).
Proof.
  cbv zeta. unfold streamContract. split; [|split; [|split]].
  - apply readLoop_stopped.
  - apply readLoop_abortError.
  - reflexivity.
  - intros N. apply readLoop_no_error; [exact N | reflexivity].
Qed.

Lemma C6_no_callback_witness :
  let abortsInFirst := fun n : nat => Nat.eqb n 0 in
  let session := fun reads =>
    streamContract decodePlain parseTextObject noToString abortsInFirst
      (Connected reads) in
  let pre := [ReadChunk (chunkOf [dataLine (jsq "{'text':'a'}")])] in
  let post := [ReadChunk (chunkOf [dataLine (jsq "{'text':'c'}")]); ReadDone] in
  aborted (session pre) = true
  /\ session (pre ++ post) = session pre
  /\ calls (session (pre ++ post)) = [OnData (js "a" ++ [LF] ++ js "a") false].
Proof.
  pose proof (C6_no_callback_once_cancellation_is_seen
                decodePlain parseTextObject noToString
                (fun n : nat => Nat.eqb n 0)
                [ReadChunk (chunkOf [dataLine (jsq "{'text':'a'}")])]
                [ReadChunk (chunkOf [dataLine (jsq "{'text':'c'}")]);
                 ReadDone]) as (S & _ & _ & _).
  cbv zeta in *. split; [reflexivity | split].
  - apply S. reflexivity.
  - rewrite (S eq_refl). reflexivity.
Defined.

(** C6 as stated fails when the signal is aborted from inside a callback:
    the first [onData] of a chunk aborts it, and the second event of the
    same chunk is still emitted.  The chunk read after that is not. *)
Lemma C6_emission_after_cancellation_in_a_callback :
  let abortsInFirst := fun n : nat => Nat.eqb n 0 in
  let session := fun reads =>
    streamContract decodePlain parseTextObject noToString abortsInFirst
      (Connected reads) in
  aborted (session [ReadChunk (chunkOf [dataLine (jsq "{'text':'a'}")])])
  = true
  /\ calls (session [ReadChunk (chunkOf [dataLine (jsq "{'text':'a'}");
                                         dataLine (jsq "{'text':'b'}")]);
                     ReadChunk (chunkOf [dataLine (jsq "{'text':'c'}")]);
                     ReadDone])
     = [OnData (js "a" ++ [LF] ++ js "a") false;
        OnData (js "ab" ++ [LF] ++ js "b") false].
Proof. vm_compute. split; reflexivity. Qed.

(** ** Recoverable failures *)

(** Two sessions that differ at most in the console lines and in
    [braceCount] are handled alike: neither is read. *)
Section Frame.

Variable decodeHtmlEntities : jsstring -> jsstring.
Variable JSON_parse : jsstring -> option JSON.
Variable ToString : JSON -> option jsstring.
Variable abortsDuring : nat -> bool.














Local Abbreviation line1 :=
  (processLine decodeHtmlEntities JSON_parse ToString abortsDuring).





(** The handling of a complete object leaves the pending buffer alone. *)
Lemma processComplete_pending (jsonData : jsstring) (st : Session) :
  incompleteJsonBuffer
    (fst (processComplete decodeHtmlEntities JSON_parse ToString abortsDuring
            jsonData st))
  = incompleteJsonBuffer st.
Proof.
  apply (@keeps_processComplete decodeHtmlEntities JSON_parse ToString
           abortsDuring
           (fun a b => incompleteJsonBuffer b = incompleteJsonBuffer a));
    clear; try reflexivity.
  intros a b c E1 E2. congruence.
Qed.



End Frame.




(** ** The pending buffer *)

Module ChunkFacts.

Definition noLF (l : jsstring) : bool := forallb (fun c => negb (N.eqb c LF)) l.

Lemma splitLines_line (l r : jsstring) :
  noLF l = true -> splitLines (l ++ LF :: r) = l :: splitLines r.
Proof.
  induction l as [|c l IH]; cbn [noLF forallb app splitLines].
  - intros _. reflexivity.
  - rewrite andb_true_iff, negb_true_iff. intros [C L].
    rewrite C. unfold noLF in IH. rewrite (IH L). reflexivity.
Qed.

Lemma splitLines_chunkOf (lines : list jsstring) :
  forallb noLF lines = true -> splitLines (chunkOf lines) = lines ++ [[]].
Proof.
  induction lines as [|l lines IH]; cbn [forallb chunkOf app].
  - intros _. reflexivity.
  - rewrite andb_true_iff. intros [L Ls].
    rewrite splitLines_line, (IH Ls) by exact L. reflexivity.
Qed.

(** A chunk of whole lines, read with an empty line buffer, is handled
    line by line and leaves the line buffer empty. *)
Lemma processChunk_chunkOf
  (decodeHtmlEntities : jsstring -> jsstring)
  (JSON_parse : jsstring -> option JSON) (ToString : JSON -> option jsstring)
  (abortsDuring : nat -> bool) (lines : list jsstring) (st : Session) :
  forallb noLF lines = true -> buffer st = [] ->
  processChunk decodeHtmlEntities JSON_parse ToString abortsDuring
    (chunkOf lines) st
  = fold_left
      (processLine decodeHtmlEntities JSON_parse ToString abortsDuring)
      lines (setBuffer [] st).
Proof.
  intros L B. unfold processChunk. rewrite B. cbn [app].
  rewrite (splitLines_chunkOf lines L), last_last, removelast_last.
  reflexivity.
Qed.

Lemma scan_braces (n : nat) :
  forall d, fold_left scanChar (repeat LBRACE n) (mkScan d false false)
            = mkScan (d + Z.of_nat n) false false.
Proof.
  induction n as [|n IH]; intros d; cbn [repeat fold_left].
  - rewrite Z.add_0_r. reflexivity.
  - change (scanChar (mkScan d false false) LBRACE)
      with (mkScan (d + 1) false false).
    rewrite IH. f_equal. lia.
Qed.

Lemma scanBraces_braces (n : nat) : scanBraces (repeat LBRACE n) = Z.of_nat n.
Proof. unfold scanBraces, scanStart. rewrite scan_braces. reflexivity. Qed.

Lemma trimStart_noSpace (s : jsstring) :
  Forall (fun c => isWhiteSpace c = false) s -> trimStart s = s.
Proof.
  intros F. destruct F as [|c s W _]; [reflexivity|].
  cbn [trimStart]. rewrite W. reflexivity.
Qed.

Lemma trim_noSpace (s : jsstring) :
  Forall (fun c => isWhiteSpace c = false) s -> trim s = s.
Proof.
  intros F. unfold trim, trimEnd.
  rewrite (trimStart_noSpace F), trimStart_noSpace by (apply Forall_rev, F).
  apply rev_involutive.
Qed.

End ChunkFacts.
Import ChunkFacts.



(** An incomplete payload is joined to what is pending. *)
Lemma assemble_incomplete (pending line jsonData : jsstring) (n : Z) :
  assemble pending line = Incomplete jsonData n ->
  jsonData = pending ++ trim (slice 6 line)
  /\ n = scanBraces jsonData /\ n <> 0%Z.
Proof.
  unfold assemble.
  destruct (startsWith line (js "data: ")); [|discriminate].
  cbv zeta.
  destruct (JsString.eqb (trim (slice 6 line)) (js "[DONE]")); [discriminate|].
  destruct (truthy (trim (slice 6 line))); [|discriminate]. cbn [negb].
  set (data := trim (slice 6 line)).
  assert (J : (if truthy pending then pending ++ data else data)
              = pending ++ data) by (destruct pending; reflexivity).
  rewrite J.
  destruct (startsWith (pending ++ data) [LBRACE]).
  - destruct (Z.eqb (scanBraces (pending ++ data)) 0) eqn:Z0; [discriminate|].
    intros H. inversion H; subst. apply Z.eqb_neq in Z0. auto.
  - destruct (startsWith (pending ++ data) [LBRACKET]); discriminate.
Qed.

(** C8, as amended.  The pending buffer has no maximum size.  A payload
    whose scan ends at a depth other than zero is kept whole behind what
    was pending, so the buffer grows by the length of the payload; nothing
    is discarded and no error is reported: the console gets the line that
    says the payload is buffered, and no callback is made.  A buffer that
    holds text is emptied by a line if and only if the line is an event
    whose payload is neither empty nor the sentinel and either the scan
    of the joined text ends at depth zero or the joined text does not
    start with a brace; and after every line the buffer is empty or
    begins with what it held before. *)
Theorem C8_pending_buffer_is_kept_until_the_object_ends
  (decodeHtmlEntities : jsstring -> jsstring)
  (JSON_parse : jsstring -> option JSON) (ToString : JSON -> option jsstring)
  (abortsDuring : nat -> bool)
  (st : Session) (line : jsstring) :
  let pending := incompleteJsonBuffer st in
  let payload := trim (slice 6 line) in
  let st' :=
    processLine decodeHtmlEntities JSON_parse ToString abortsDuring st line in
  (forall jsonData n,
     assemble pending line = Incomplete jsonData n ->
     incompleteJsonBuffer st' = pending ++ payload
     /\ List.length (incompleteJsonBuffer st')
        = List.length pending + List.length payload
     /\ consoleLines st' = consoleLines st ++ [IncompleteBuffered n]
     /\ calls st' = calls st
     /\ accumulatedContent st' = accumulatedContent st)
  /\ (pending <> [] ->
      (incompleteJsonBuffer st' = [] <->
       startsWith line (js "data: ") = true
       /\ payload <> []
       /\ payload <> js "[DONE]"
       /\ (scanBraces (pending ++ payload) = 0%Z
           \/ startsWith (pending ++ payload) [LBRACE] = false)))
  /\ (incompleteJsonBuffer st' = []
      \/ exists more, incompleteJsonBuffer st' = pending ++ more).
Proof.
  intros pending payload st'.
  assert (Pd : incompleteJsonBuffer st'
               = pendingAfter pending (assemble pending line)).
  { subst st' pending. unfold processLine. cbv zeta.
    destruct (assemble (incompleteJsonBuffer st) line); try reflexivity.
    rewrite processComplete_pending. reflexivity. }
  split; [|split].
  - intros jsonData n A.
    destruct (assemble_incomplete _ _ A) as (J & _ & _). fold payload in J.
    assert (E : st' = report (IncompleteBuffered n)
                        (setBraceCount n
                           (setIncompleteJsonBuffer jsonData st))).
    { subst st' pending. unfold processLine. rewrite A. reflexivity. }
    rewrite E. cbn [incompleteJsonBuffer report setBraceCount
                    setIncompleteJsonBuffer consoleLines calls
                    accumulatedContent].
    rewrite J, length_app. repeat split; reflexivity.
  - intros Ne. rewrite Pd. unfold assemble. fold payload.
    assert (J : (if truthy pending then pending ++ payload else payload)
                = pending ++ payload)
      by (destruct pending; [congruence | reflexivity]).
    rewrite J.
    assert (Nj : pending ++ payload <> [])
      by (destruct pending; [congruence | discriminate]).
    destruct (startsWith line (js "data: "));
      [|cbn [pendingAfter]; split; [congruence | intros [H _]; discriminate]].
    cbv zeta.
    destruct (JsString.eqb payload (js "[DONE]")) eqn:D.
    { apply eqb_eq in D. cbn [pendingAfter].
      split; [congruence | intros (_ & _ & H & _); congruence]. }
    assert (Dn : payload <> js "[DONE]").
    { intros H. rewrite H, eqb_refl in D. discriminate. }
    destruct (truthy payload) eqn:T; cbn [negb].
    2:{ apply truthy_false in T. cbn [pendingAfter].
        split; [congruence | intros (_ & H & _); congruence]. }
    apply truthy_true in T.
    destruct (startsWith (pending ++ payload) [LBRACE]) eqn:S.
    + destruct (Z.eqb_spec (scanBraces (pending ++ payload)) 0) as [Z0 | Z0];
        cbn [pendingAfter].
      * split; [intros _; repeat split; auto | reflexivity].
      * split; [congruence|].
        intros (_ & _ & _ & [H | H]); [contradiction | discriminate].
    + assert (R : pendingAfter pending
                    (if startsWith (pending ++ payload) [LBRACKET]
                     then ArrayData (pending ++ payload)
                     else NonJson (pending ++ payload)) = [])
        by (destruct (startsWith (pending ++ payload) [LBRACKET]);
            reflexivity).
      rewrite R. split; [intros _; repeat split; auto | reflexivity].
  - rewrite Pd.
    destruct (assemble pending line) as [| | |j|j n|j|j] eqn:A;
      cbn [pendingAfter];
      try (left; reflexivity);
      try (right; exists []; rewrite app_nil_r; reflexivity).
    right. destruct (assemble_incomplete _ _ A) as (J & _ & _).
    exists (trim (slice 6 line)). exact J.
Qed.

Lemma C8_incomplete_payload_witness :
  let st :=
    processLine decodePlain parseTextObject noToString neverAborts initial
      (dataLine (jsq "{'te")) in
  let st' :=
    processLine decodePlain parseTextObject noToString neverAborts st
      (dataLine (jsq "xt':'wor")) in
  let st'' :=
    processLine decodePlain parseTextObject noToString neverAborts st'
      (dataLine (jsq "ld'}")) in
  incompleteJsonBuffer st' = jsq "{'te" ++ jsq "xt':'wor"
  /\ calls st' = []
  /\ incompleteJsonBuffer st'' = [].
Proof.
  intros st st' st''.
  destruct (@C8_pending_buffer_is_kept_until_the_object_ends
              decodePlain parseTextObject noToString neverAborts
              st (dataLine (jsq "xt':'wor"))) as (K & _ & _).
  destruct (K (jsq "{'text':'wor") 1%Z eq_refl) as (B & _ & _ & C & _).
  destruct (@C8_pending_buffer_is_kept_until_the_object_ends
              decodePlain parseTextObject noToString neverAborts
              st' (dataLine (jsq "ld'}"))) as (_ & E & _).
  split; [exact B|]. split; [exact C|].
  apply E; [discriminate|].
  split; [reflexivity|]. split; [discriminate|]. split; [discriminate|].
  left. reflexivity.
Defined.

(** C8 as stated fails: for every bound there is a stream that leaves a
    longer pending buffer, here one event whose payload is a run of
    opening braces. *)
Lemma C8_no_bound_on_the_pending_buffer :
  ~ exists bound : nat, forall chunks : list jsstring,
      List.length
        (incompleteJsonBuffer
           (streamContract decodePlain parseTextObject noToString neverAborts
              (Connected (map ReadChunk chunks))))
      <= bound.
Proof.
  intros [bound H].
  specialize (H [chunkOf [dataLine (repeat LBRACE (S bound))]]).
  cbn [map streamContract readLoop aborted initial] in H.
  set (payload := repeat LBRACE (S bound)) in *.
  assert (W : Forall (fun c => isWhiteSpace c = false) payload).
  { apply Forall_forall. intros c I. apply repeat_spec in I. subst c.
    reflexivity. }
  assert (A : assemble [] (dataLine payload)
              = Incomplete payload (Z.of_nat (S bound))).
  { rewrite assemble_piece.
    - cbn [app]. cbv zeta. unfold payload at 1. cbn [repeat startsWith].
      rewrite N.eqb_refl. cbn [andb].
      unfold payload. rewrite scanBraces_braces.
      destruct (Z.eqb_spec (Z.of_nat (S bound)) 0); [lia | reflexivity].
    - apply trim_cleanEdges; [discriminate | apply trim_noSpace, W].
    - reflexivity. }
  assert (L : List.length payload = S bound) by apply repeat_length.
  assert (N : forallb noLF [dataLine payload] = true).
  { cbn [forallb]. rewrite andb_true_r. unfold noLF, dataLine.
    rewrite forallb_app. apply andb_true_iff. split; [reflexivity|].
    apply forallb_forall. intros c I. apply repeat_spec in I. subst c.
    reflexivity. }
  rewrite (processChunk_chunkOf decodePlain parseTextObject noToString
             neverAborts [dataLine payload] initial N eq_refl) in H.
  cbn [fold_left] in H. unfold processLine in H.
  cbn [incompleteJsonBuffer setBuffer initial] in H. rewrite A in H.
  cbn [pendingAfter] in H.
  destruct (aborted _) in H;
    cbn [incompleteJsonBuffer report setBraceCount setIncompleteJsonBuffer]
      in H; lia.
Qed.

(** ** The non-final emissions *)

Section Emission.

Variable decodeHtmlEntities : jsstring -> jsstring.
Variable JSON_parse : jsstring -> option JSON.
Variable ToString : JSON -> option jsstring.
Variable abortsDuring : nat -> bool.

(** A complete object of the flat shape goes to [processFragment]. *)
Lemma processLine_text_event (st : Session) (line obj text : jsstring) :
  assemble (incompleteJsonBuffer st) line = Complete obj ->
  JSON_parse obj = Some (JObject [(js "text", JString text)]) ->
  processLine decodeHtmlEntities JSON_parse ToString abortsDuring st line
  = fst (processFragment decodeHtmlEntities ToString abortsDuring
           (JString text)
           (setBraceCount 0 (setIncompleteJsonBuffer [] st))).
Proof.
  intros A P. unfold processLine. rewrite A. cbv zeta.
  cbn [pendingAfter]. unfold processComplete, tryCatch. rewrite P.
  change (processParsed decodeHtmlEntities ToString abortsDuring
            (JObject [(js "text", JString text)]))
    with (processFragment decodeHtmlEntities ToString abortsDuring
            (JString text)).
  destruct (processFragment _ _ _ _ _) as [st' [u|]] eqn:F;
    [reflexivity|].
  exfalso. revert F. unfold processFragment. cbn [toText].
  destruct (truthy (processTextContent _ _ _)); cbv zeta;
    [destruct (truthy (accumulateStreamingContent _ _ _))|]; discriminate.
Qed.

(** What [processFragment] does once the two strings it computes are
    known. *)
Lemma processFragment_emits (st : Session) (text acc' plain : jsstring) :
  processTextContent decodeHtmlEntities text (accumulatedContent st) = acc' ->
  truthy acc' = true ->
  accumulateStreamingContent decodeHtmlEntities text acc' = plain ->
  truthy plain = true ->
  fst (processFragment decodeHtmlEntities ToString abortsDuring
         (JString text) st)
  = invoke abortsDuring (OnData plain false)
      (setAccumulatedContent acc' st).
Proof.
  intros P T Q U. unfold processFragment. cbn [toText].
  rewrite P, T. cbv zeta. cbn [accumulatedContent setAccumulatedContent].
  rewrite Q, U. reflexivity.
Qed.

(** A session that reads one chunk of whole lines. *)
Lemma session_one_chunk (lines : list jsstring) :
  forallb noLF lines = true ->
  streamContract decodeHtmlEntities JSON_parse ToString abortsDuring
    (Connected [ReadChunk (chunkOf lines)])
  = fold_left
      (processLine decodeHtmlEntities JSON_parse ToString abortsDuring)
      lines initial.
Proof.
  intros L. unfold streamContract. cbn [readLoop aborted initial].
  rewrite (processChunk_chunkOf decodeHtmlEntities JSON_parse ToString
             abortsDuring lines initial L eq_refl).
  change (setBuffer [] initial) with initial.
  destruct (aborted _); reflexivity.
Qed.

End Emission.

(** C3.  What the code does on the single event [data: {"text":"Hello"}]:
    the accumulation becomes [Hello], and the text sent to [onData] is the
    plain text of the accumulation followed by a newline and the fragment
    once more, [Hello\nHello], which is not the plain text of the
    accumulation.  The hypotheses say what the browser does on the strings
    involved: the object parses to its one member and the texts, which
    hold no character reference, decode to themselves. *)
Theorem C3_emission_repeats_the_fragment
  (decodeHtmlEntities : jsstring -> jsstring)
  (JSON_parse : jsstring -> option JSON) (ToString : JSON -> option jsstring)
  (abortsDuring : nat -> bool) :
  JSON_parse (jsq "{'text':'Hello'}")
  = Some (JObject [(js "text", JString (js "Hello"))]) ->
  decodeHtmlEntities (js "Hello") = js "Hello" ->
  decodeHtmlEntities (js "Hello" ++ [LF] ++ js "Hello")
  = js "Hello" ++ [LF] ++ js "Hello" ->
  let st := streamContract decodeHtmlEntities JSON_parse ToString abortsDuring
              (Connected
                 [ReadChunk (chunkOf [dataLine (jsq "{'text':'Hello'}")])]) in
  accumulatedContent st = js "Hello"
  /\ calls st = [OnData (js "Hello" ++ [LF] ++ js "Hello") false]
  /\ convertToPlainText decodeHtmlEntities (accumulatedContent st)
     = js "Hello".
Proof.
  intros P D1 D2 st.
  assert (F : formatTextContent decodeHtmlEntities (js "Hello") = js "Hello").
  { unfold formatTextContent. rewrite D1. reflexivity. }
  assert (C1 : convertToPlainText decodeHtmlEntities (js "Hello") = js "Hello").
  { unfold convertToPlainText. rewrite D1. reflexivity. }
  assert (C2 : convertToPlainText decodeHtmlEntities
                 (js "Hello" ++ [LF] ++ js "Hello")
               = js "Hello" ++ [LF] ++ js "Hello").
  { unfold convertToPlainText. rewrite D2. reflexivity. }
  assert (E : st = invoke abortsDuring
                     (OnData (js "Hello" ++ [LF] ++ js "Hello") false)
                     (setAccumulatedContent (js "Hello") initial)).
  { subst st. rewrite session_one_chunk by reflexivity. cbn [fold_left].
    rewrite (@processLine_text_event decodeHtmlEntities JSON_parse ToString
               abortsDuring initial (dataLine (jsq "{'text':'Hello'}"))
               (jsq "{'text':'Hello'}") (js "Hello") eq_refl P).
    apply processFragment_emits.
    - unfold processTextContent. rewrite F. reflexivity.
    - reflexivity.
    - unfold accumulateStreamingContent. cbn [truthy js negb].
      exact C2.
    - reflexivity. }
  rewrite E. cbn [accumulatedContent invoke setAccumulatedContent calls
                  initial app].
  repeat split. exact C1.
Qed.

Lemma C3_emission_witness :
  let st := streamContract decodePlain parseTextObject noToString neverAborts
              (Connected
                 [ReadChunk (chunkOf [dataLine (jsq "{'text':'Hello'}")])]) in
  calls st = [OnData (js "Hello" ++ [LF] ++ js "Hello") false]
  /\ convertToPlainText decodePlain (accumulatedContent st) = js "Hello".
Proof.
  pose proof (@C3_emission_repeats_the_fragment
                decodePlain parseTextObject noToString neverAborts
                eq_refl eq_refl eq_refl) as (_ & C & Q).
  cbv zeta. split; [exact C | exact Q].
Defined.

(** C5.  What the code does when the event [data: {"text":"Hello "}] comes
    twice: the second delivery leaves the accumulation as it is, [Hello],
    and [onData] is called a second time all the same.  The hypotheses say
    what the browser does on the strings involved. *)
Theorem C5_duplicate_fragment_is_emitted_again
  (decodeHtmlEntities : jsstring -> jsstring)
  (JSON_parse : jsstring -> option JSON) (ToString : JSON -> option jsstring)
  (abortsDuring : nat -> bool) :
  JSON_parse (jsq "{'text':'Hello '}")
  = Some (JObject [(js "text", JString (js "Hello "))]) ->
  decodeHtmlEntities (js "Hello ") = js "Hello " ->
  decodeHtmlEntities (js "Hello" ++ [LF] ++ js "Hello ")
  = js "Hello" ++ [LF] ++ js "Hello " ->
  let session := fun lines =>
    streamContract decodeHtmlEntities JSON_parse ToString abortsDuring
      (Connected [ReadChunk (chunkOf lines)]) in
  let event := dataLine (jsq "{'text':'Hello '}") in
  let once := session [event] in
  let twice := session [event; event] in
  accumulatedContent once = js "Hello"
  /\ accumulatedContent twice = accumulatedContent once
  /\ calls once = [OnData (js "Hello" ++ [LF] ++ js "Hello") false]
  /\ calls twice = calls once
                   ++ [OnData (js "Hello" ++ [LF] ++ js "Hello") false].
Proof.
  intros P D1 D2 session event once twice.
  assert (F : formatTextContent decodeHtmlEntities (js "Hello ") = js "Hello").
  { unfold formatTextContent. rewrite D1. reflexivity. }
  assert (C2 : convertToPlainText decodeHtmlEntities
                 (js "Hello" ++ [LF] ++ js "Hello ")
               = js "Hello" ++ [LF] ++ js "Hello").
  { unfold convertToPlainText. rewrite D2. reflexivity. }
  set (emission := OnData (js "Hello" ++ [LF] ++ js "Hello") false).
  assert (E1 : once = invoke abortsDuring emission
                        (setAccumulatedContent (js "Hello") initial)).
  { subst once session. cbv beta. rewrite session_one_chunk by reflexivity.
    cbn [fold_left].
    rewrite (@processLine_text_event decodeHtmlEntities JSON_parse ToString
               abortsDuring initial event (jsq "{'text':'Hello '}")
               (js "Hello ") eq_refl P).
    apply processFragment_emits.
    - unfold processTextContent. rewrite F. reflexivity.
    - reflexivity.
    - unfold accumulateStreamingContent. cbn [truthy js negb]. exact C2.
    - reflexivity. }
  assert (E2 : twice = invoke abortsDuring emission
                         (setAccumulatedContent (js "Hello")
                            (setBraceCount 0
                               (setIncompleteJsonBuffer [] once)))).
  { subst twice session. cbv beta. rewrite session_one_chunk by reflexivity.
    cbn [fold_left].
    replace (processLine decodeHtmlEntities JSON_parse ToString abortsDuring
               initial event) with once
      by (clear E1; subst once; cbv beta;
          rewrite session_one_chunk by reflexivity; reflexivity).
    assert (A : assemble (incompleteJsonBuffer once) event
                = Complete (jsq "{'text':'Hello '}"))
      by (rewrite E1; reflexivity).
    rewrite (@processLine_text_event decodeHtmlEntities JSON_parse ToString
               abortsDuring once event (jsq "{'text':'Hello '}")
               (js "Hello ") A P).
    apply processFragment_emits.
    - rewrite E1. unfold processTextContent. rewrite F. reflexivity.
    - reflexivity.
    - unfold accumulateStreamingContent. cbn [truthy js negb]. exact C2.
    - reflexivity. }
  rewrite E2. cbn [accumulatedContent calls invoke setAccumulatedContent
                   setBraceCount setIncompleteJsonBuffer].
  rewrite E1. cbn [accumulatedContent calls invoke setAccumulatedContent
                   initial app].
  repeat split.
Qed.

Lemma C5_duplicate_fragment_witness :
  let session := fun lines =>
    streamContract decodePlain parseTextObject noToString neverAborts
      (Connected [ReadChunk (chunkOf lines)]) in
  let event := dataLine (jsq "{'text':'Hello '}") in
  accumulatedContent (session [event; event])
  = accumulatedContent (session [event])
  /\ List.length (calls (session [event; event])) = 2.
Proof.
  pose proof (@C5_duplicate_fragment_is_emitted_again
                decodePlain parseTextObject noToString neverAborts
                eq_refl eq_refl eq_refl) as (_ & A & _ & C).
  cbv zeta in *. split; [exact A | rewrite C; reflexivity].
Defined.

(** * Further properties of the stream session *)

(** ** Relations kept by a chunk, read off each assignment and call

    As [Preserved], with the assignments and calls in the form they have in
    the code: the accumulation is only ever set to what [processTextContent]
    returns, the text sent is what [accumulateStreamingContent] returns,
    the pending buffer is set from the assembler's result, and the line
    buffer to the last piece of the split. *)

Section Stepwise.

Variable decodeHtmlEntities : jsstring -> jsstring.
Variable JSON_parse : jsstring -> option JSON.
Variable ToString : JSON -> option jsstring.
Variable abortsDuring : nat -> bool.

Variable R : Session -> Session -> Prop.
Hypothesis R_refl : forall st, R st st.
Hypothesis R_trans : forall a b c, R a b -> R b c -> R a c.
Hypothesis R_fragment :
  forall text st,
    truthy (processTextContent decodeHtmlEntities text
              (accumulatedContent st)) = true ->
    R st (setAccumulatedContent
            (processTextContent decodeHtmlEntities text
               (accumulatedContent st)) st).
Hypothesis R_update :
  forall text st,
    truthy (accumulatedContent st) = true ->
    truthy (accumulateStreamingContent decodeHtmlEntities text
              (accumulatedContent st)) = true ->
    R st (invoke abortsDuring
            (OnData (accumulateStreamingContent decodeHtmlEntities text
                       (accumulatedContent st)) false) st).
Hypothesis R_report : forall d st, R st (report d st).
Hypothesis R_pending :
  forall line st,
    R st (setIncompleteJsonBuffer
            (pendingAfter (incompleteJsonBuffer st)
               (assemble (incompleteJsonBuffer st) line)) st).
Hypothesis R_braceCount : forall n st, R st (setBraceCount n st).
Hypothesis R_buffer :
  forall chunk st,
    R st (setBuffer (last (splitLines (buffer st ++ chunk)) []) st).

Local Abbreviation steps := (Invariants.keeps R).

Lemma steps_bind {A B : Type} (m : M A) (f : A -> M B) :
  steps m -> (forall a, steps (f a)) -> steps (bind m f).
Proof.
  intros Hm Hf st. unfold bind. specialize (Hm st).
  destruct (m st) as [st' [a|]]; cbn [fst] in *.
  - eapply R_trans; [exact Hm | apply Hf].
  - exact Hm.
Qed.

Lemma steps_forEach {A : Type} (items : list A) (body : A -> M unit) :
  (forall x, steps (body x)) -> steps (forEach items body).
Proof.
  intros Hb. induction items as [|x items IH]; cbn [forEach].
  - intros st. apply R_refl.
  - apply steps_bind; [apply Hb | intros _; exact IH].
Qed.

Lemma steps_processFragment (text : JSON) :
  steps (processFragment decodeHtmlEntities ToString abortsDuring text).
Proof.
  intros st. unfold processFragment.
  destruct (toText ToString text) as [s|]; [|apply R_refl].
  destruct (truthy (processTextContent _ s _)) eqn:T; [|apply R_refl].
  cbv zeta.
  destruct (truthy (accumulateStreamingContent _ _ _)) eqn:U; cbn [fst].
  - eapply R_trans; [apply R_fragment, T|]. apply R_update; assumption.
  - apply R_fragment, T.
Qed.

Lemma steps_processPart (part : JSON) :
  steps (processPart decodeHtmlEntities ToString abortsDuring part).
Proof.
  unfold processPart.
  destruct part; try (intros st; apply R_refl);
    (destruct (member _ _) as [text|]; [|intros st; apply R_refl];
     destruct (truthyValue text);
     [apply steps_processFragment | intros st; apply R_refl]).
Qed.

Lemma steps_processParts (parts : JSON) :
  steps (processParts decodeHtmlEntities ToString abortsDuring parts).
Proof.
  unfold processParts.
  destruct parts; try (intros st; apply R_refl).
  apply steps_forEach. intros x. apply steps_processPart.
Qed.

Lemma steps_processCandidate (candidate : JSON) :
  steps (processCandidate decodeHtmlEntities ToString abortsDuring candidate).
Proof.
  unfold processCandidate.
  destruct candidate; try (intros st; apply R_refl);
    (destruct (member _ _) as [content|]; [|intros st; apply R_refl];
     destruct (truthyValue content); [|intros st; apply R_refl];
     destruct (member _ content) as [parts|]; [|intros st; apply R_refl];
     destruct (truthyValue parts);
     [apply steps_processParts | intros st; apply R_refl]).
Qed.

Lemma steps_processParsed (parsed : JSON) :
  steps (processParsed decodeHtmlEntities ToString abortsDuring parsed).
Proof.
  assert (C : forall v : JSON,
             steps (match member (js "candidates") v with
                    | Some (JArray candidates) =>
                        forEach candidates
                          (processCandidate decodeHtmlEntities ToString
                             abortsDuring)
                    | _ => lift (report (UnexpectedFormat v))
                    end)).
  { intros v. destruct (member _ v) as [[| | | |cs|]|];
      try (intros st; apply R_report).
    apply steps_forEach. intros x. apply steps_processCandidate. }
  unfold processParsed.
  destruct (if truthyValue parsed then member (js "text") parsed else None)
    as [[| | |text| |]|];
    try apply steps_processFragment;
    (destruct parsed; [intros st; apply R_refl | apply C ..]).
Qed.

Lemma steps_processComplete (jsonData : jsstring) :
  steps (processComplete decodeHtmlEntities JSON_parse ToString abortsDuring
           jsonData).
Proof.
  unfold processComplete.
  set (body := match JSON_parse jsonData with
               | Some parsed =>
                   processParsed decodeHtmlEntities ToString abortsDuring
                     parsed
               | None => throw
               end).
  assert (B : steps body).
  { subst body. destruct (JSON_parse jsonData);
      [apply steps_processParsed | intros s; apply R_refl]. }
  intros st. unfold tryCatch. specialize (B st).
  destruct (body st) as [st' [u|]]; cbn [fst] in *; [exact B|].
  eapply R_trans; [exact B | apply R_report].
Qed.

Lemma steps_processLine (st : Session) (line : jsstring) :
  R st (processLine decodeHtmlEntities JSON_parse ToString abortsDuring
          st line).
Proof.
  unfold processLine. pose proof (R_pending line st) as P.
  destruct (assemble (incompleteJsonBuffer st) line); cbv zeta;
    try exact P.
  - eapply R_trans; [exact P|].
    eapply R_trans; [apply R_braceCount|]. apply steps_processComplete.
  - eapply R_trans; [exact P|].
    eapply R_trans; [apply R_braceCount|]. apply R_report.
  - eapply R_trans; [exact P | apply R_report].
  - eapply R_trans; [exact P | apply R_report].
Qed.

Lemma steps_processLines (lines : list jsstring) :
  forall st,
    R st (fold_left
            (processLine decodeHtmlEntities JSON_parse ToString abortsDuring)
            lines st).
Proof.
  induction lines as [|l lines IH]; intros st; cbn [fold_left].
  - apply R_refl.
  - eapply R_trans; [apply steps_processLine | apply IH].
Qed.

Lemma steps_processChunk (chunk : jsstring) (st : Session) :
  R st (processChunk decodeHtmlEntities JSON_parse ToString abortsDuring
          chunk st).
Proof.
  unfold processChunk.
  eapply R_trans; [apply R_buffer | apply steps_processLines].
Qed.

End Stepwise.

(** ** The callbacks of a whole session *)

Section SessionShape.

Variable decodeHtmlEntities : jsstring -> jsstring.
Variable JSON_parse : jsstring -> option JSON.
Variable ToString : JSON -> option jsstring.
Variable abortsDuring : nat -> bool.

Local Abbreviation loop :=
  (readLoop decodeHtmlEntities JSON_parse ToString abortsDuring).

Lemma processChunk_updates (chunk : jsstring) (st : Session) :
  exists new,
    calls (processChunk decodeHtmlEntities JSON_parse ToString abortsDuring
             chunk st) = calls st ++ new
    /\ forallb isUpdate new = true.
Proof.
  apply (@steps_processChunk decodeHtmlEntities JSON_parse ToString
           abortsDuring
           (fun a b => exists new, calls b = calls a ++ new
                                   /\ forallb isUpdate new = true));
    clear; try solve [intros; exists []; rewrite app_nil_r; split; reflexivity].
  - intros a b c (n1 & E1 & F1) (n2 & E2 & F2). exists (n1 ++ n2).
    rewrite E2, E1, app_assoc, forallb_app, F1, F2. split; reflexivity.
  - intros text st _ U. eexists [_]. split; [reflexivity|].
    cbn [forallb isUpdate]. destruct (accumulateStreamingContent _ _ _);
      [discriminate | reflexivity].
Qed.

Lemma readLoop_shape (reads : list ReadResult) :
  forall st, exists updates tail,
    calls (loop reads st) = calls st ++ updates ++ tail
    /\ forallb isUpdate updates = true /\ terminal tail = true.
Proof.
  induction reads as [|r reads IH]; intros st; cbn [readLoop].
  - exists [], []. rewrite app_nil_r. destruct (aborted st); repeat split.
  - destruct (aborted st).
    { exists [], []. rewrite app_nil_r. repeat split. }
    destruct r as [chunk| |[|]].
    + destruct (processChunk_updates chunk st) as (n1 & E1 & F1).
      destruct (IH (processChunk decodeHtmlEntities JSON_parse ToString
                      abortsDuring chunk st)) as (u & tail & E & F & T).
      exists (n1 ++ u), tail. rewrite E, E1, forallb_app, F1, F, <- !app_assoc.
      repeat split. exact T.
    + destruct (finish_calls decodeHtmlEntities JSON_parse abortsDuring st)
        as [_ K].
      exists []. eexists. split; [rewrite K; reflexivity|].
      split; [reflexivity|]. destruct (truthy _); reflexivity.
    + exists [], []. rewrite app_nil_r. repeat split.
    + exists [], [OnError]. repeat split.
Qed.

Lemma count_updates (cs : list Callback) :
  forallb isUpdate cs = true ->
  count isFinal cs = 0 /\ count isComplete cs = 0 /\ count isError cs = 0.
Proof.
  induction cs as [|c cs IH]; [intros _; repeat split|].
  cbn [forallb]. rewrite andb_true_iff. intros [N F].
  destruct (IH F) as (I1 & I2 & I3). unfold count in *.
  destruct c as [[|x t] [|]| |]; try discriminate. cbn. auto.
Qed.

End SessionShape.

(** X1.  Whatever the request and the reads come to, and whichever callback
    aborts the signal, the callbacks of a session are non-final emissions of
    non-empty texts followed by at most one ending: [onError] alone,
    [onComplete] alone, or the final emission and then [onComplete].  So
    [onError] and [onComplete] are each called at most once and never
    both, at most one emission is final, and nothing is called after
    them. *)
Theorem X1_callbacks_end_at_most_once
  (decodeHtmlEntities : jsstring -> jsstring)
  (JSON_parse : jsstring -> option JSON) (ToString : JSON -> option jsstring)
  (abortsDuring : nat -> bool) (c : Connection) :
  let trace := calls (streamContract decodeHtmlEntities JSON_parse ToString
                        abortsDuring c) in
  (exists updates tail,
      trace = updates ++ tail
      /\ forallb isUpdate updates = true /\ terminal tail = true)
  /\ count isError trace + count isComplete trace <= 1
  /\ count isFinal trace <= count isComplete trace.
Proof.
  cbv zeta.
  assert (S : exists updates tail,
             calls (streamContract decodeHtmlEntities JSON_parse ToString
                      abortsDuring c) = updates ++ tail
             /\ forallb isUpdate updates = true /\ terminal tail = true).
  { destruct c as [[|]|reads]; cbn [streamContract caught].
    - exists [], []. repeat split.
    - exists [], [OnError]. repeat split.
    - destruct (readLoop_shape decodeHtmlEntities JSON_parse ToString
                  abortsDuring reads initial) as (u & tail & E & F & T).
      exists u, tail. repeat split; assumption. }
  split; [exact S|].
  destruct S as (u & tail & E & F & T). rewrite E, !count_app.
  destruct (count_updates u F) as (N1 & N2 & N3). rewrite N1, N2, N3.
  destruct tail as [|[t [|]| |] [|[t' [|]| |] [|? ?]]]; try discriminate;
    cbn; lia.
Qed.

(** ** The accumulation only grows *)

Section Growth.

Variable decodeHtmlEntities : jsstring -> jsstring.
Variable JSON_parse : jsstring -> option JSON.
Variable ToString : JSON -> option jsstring.
Variable abortsDuring : nat -> bool.

Local Abbreviation loop :=
  (readLoop decodeHtmlEntities JSON_parse ToString abortsDuring).

Lemma processTextContent_extends (text acc : jsstring) :
  exists suffix,
    processTextContent decodeHtmlEntities text acc = acc ++ suffix.
Proof.
  unfold processTextContent. destruct acc as [|c acc]; cbn [truthy].
  - eexists. reflexivity.
  - destruct (includes _ _); [exists []; rewrite app_nil_r|eexists];
      reflexivity.
Qed.

Lemma processBufferContent_extends (buffer acc : jsstring) :
  exists suffix,
    processBufferContent decodeHtmlEntities JSON_parse buffer acc
    = acc ++ suffix.
Proof.
  unfold processBufferContent.
  destruct (negb (truthy (trim buffer)));
    [exists []; rewrite app_nil_r; reflexivity|].
  destruct (JSON_parse buffer) as [parsed|]; [|eexists; reflexivity].
  destruct (if truthyValue parsed then member (js "text") parsed else None)
    as [[| | |text| |]|];
    try (exists []; rewrite app_nil_r; reflexivity).
  eexists. reflexivity.
Qed.

Lemma flushBuffer_extends (st : Session) :
  exists suffix,
    accumulatedContent (flushBuffer decodeHtmlEntities JSON_parse st)
    = accumulatedContent st ++ suffix.
Proof.
  unfold flushBuffer.
  destruct (truthy (trim (buffer st)));
    [|exists []; rewrite app_nil_r; reflexivity].
  cbv zeta. destruct (truthy (processBufferContent _ _ _ _));
    [|exists []; rewrite app_nil_r; reflexivity].
  apply processBufferContent_extends.
Qed.

Lemma processChunk_extends (chunk : jsstring) (st : Session) :
  exists suffix,
    accumulatedContent
      (processChunk decodeHtmlEntities JSON_parse ToString abortsDuring
         chunk st)
    = accumulatedContent st ++ suffix.
Proof.
  apply (@steps_processChunk decodeHtmlEntities JSON_parse ToString
           abortsDuring
           (fun a b => exists suffix,
                accumulatedContent b = accumulatedContent a ++ suffix));
    clear; try solve [intros; exists []; rewrite app_nil_r; reflexivity].
  - intros a b c (s1 & E1) (s2 & E2). exists (s1 ++ s2).
    rewrite E2, E1, app_assoc. reflexivity.
  - intros text st _. apply processTextContent_extends.
Qed.

Lemma readLoop_extends (reads : list ReadResult) :
  forall st, exists suffix,
    accumulatedContent (loop reads st) = accumulatedContent st ++ suffix.
Proof.
  induction reads as [|r reads IH]; intros st; cbn [readLoop].
  - exists []. rewrite app_nil_r. destruct (aborted st); reflexivity.
  - destruct (aborted st); [exists []; rewrite app_nil_r; reflexivity|].
    destruct r as [chunk| |[|]].
    + destruct (processChunk_extends chunk st) as (s1 & E1).
      destruct (IH (processChunk decodeHtmlEntities JSON_parse ToString
                      abortsDuring chunk st)) as (s2 & E2).
      exists (s1 ++ s2). rewrite E2, E1, app_assoc. reflexivity.
    + destruct (finish_calls decodeHtmlEntities JSON_parse abortsDuring st)
        as [K _].
      rewrite K. apply flushBuffer_extends.
    + exists []. rewrite app_nil_r. reflexivity.
    + exists []. rewrite app_nil_r. reflexivity.
Qed.

(** Reading on continues from where the reads so far have led, unless they
    have ended the session. *)
Lemma readLoop_continues (pre post : list ReadResult) :
  forall st, loop (pre ++ post) st = loop post (loop pre st)
             \/ loop (pre ++ post) st = loop pre st.
Proof.
  induction pre as [|r pre IH]; intros st; cbn [app readLoop].
  - left. destruct (aborted st) eqn:A; [|reflexivity].
    destruct post; cbn [readLoop]; rewrite A; reflexivity.
  - destruct (aborted st); [right; reflexivity|].
    destruct r; try (right; reflexivity). apply IH.
Qed.

End Growth.

(** X2.  The accumulation never shrinks and is never rewritten: whatever is
    read after a part of the stream, the accumulation reached after that
    part is a prefix of the later one. *)
Theorem X2_accumulation_only_grows
  (decodeHtmlEntities : jsstring -> jsstring)
  (JSON_parse : jsstring -> option JSON) (ToString : JSON -> option jsstring)
  (abortsDuring : nat -> bool) (pre post : list ReadResult) :
  let session := fun reads =>
    streamContract decodeHtmlEntities JSON_parse ToString abortsDuring
      (Connected reads) in
  (exists suffix,
      accumulatedContent (session (pre ++ post))
      = accumulatedContent (session pre) ++ suffix)
  /\ List.length (accumulatedContent (session pre))
     <= List.length (accumulatedContent (session (pre ++ post))).
Proof.
  cbv zeta. unfold streamContract.
  assert (S : exists suffix,
             accumulatedContent
               (readLoop decodeHtmlEntities JSON_parse ToString abortsDuring
                  (pre ++ post) initial)
             = accumulatedContent
                 (readLoop decodeHtmlEntities JSON_parse ToString abortsDuring
                    pre initial) ++ suffix).
  { destruct (readLoop_continues decodeHtmlEntities JSON_parse ToString
                abortsDuring pre post initial) as [E | E]; rewrite E.
    - apply readLoop_extends.
    - exists []. rewrite app_nil_r. reflexivity. }
  split; [exact S|]. destruct S as (suffix & E).
  rewrite E, length_app. lia.
Qed.

(** ** The Frame Decoder: lines across reads *)

Module SplitFacts.

Lemma splitLines_nonempty (t : jsstring) : splitLines t <> [].
Proof.
  destruct t as [|c t]; cbn [splitLines]; [discriminate|].
  destruct (N.eqb c LF); [discriminate|].
  destruct (splitLines t); discriminate.
Qed.

(** Splitting a text that continues: the whole lines of the first part,
    then the split of its last piece followed by the rest. *)
Lemma splitLines_app (t u : jsstring) :
  splitLines (t ++ u)
  = removelast (splitLines t) ++ splitLines (last (splitLines t) [] ++ u).
Proof.
  induction t as [|c t IH]; [reflexivity|].
  cbn [app splitLines]. rewrite IH.
  pose proof (splitLines_nonempty t) as N.
  destruct (N.eqb c LF) eqn:C.
  - destruct (splitLines t) as [|l ls]; [congruence|]. reflexivity.
  - destruct (splitLines t) as [|l [|x ls]]; [congruence| |].
    + cbn [removelast last app splitLines]. rewrite C. reflexivity.
    + reflexivity.
Qed.

Lemma last_app_nonempty {A : Type} (l m : list A) (d : A) :
  m <> [] -> last (l ++ m) d = last m d.
Proof.
  intros N. induction l as [|x l IH]; [reflexivity|].
  cbn [app]. rewrite <- IH. cbn [last].
  destruct (l ++ m) eqn:E; [|reflexivity].
  apply app_eq_nil in E. tauto.
Qed.

End SplitFacts.
Import SplitFacts.

Section Related.

Variable decodeHtmlEntities : jsstring -> jsstring.
Variable JSON_parse : jsstring -> option JSON.
Variable ToString : JSON -> option jsstring.
Variable abortsDuring : nat -> bool.

Variable Q : Session -> Session -> Prop.
Hypothesis Q_accumulated :
  forall a b, Q a b -> accumulatedContent a = accumulatedContent b.
Hypothesis Q_pending :
  forall a b, Q a b -> incompleteJsonBuffer a = incompleteJsonBuffer b.
Hypothesis Q_setAccumulated :
  forall x a b, Q a b ->
                Q (setAccumulatedContent x a) (setAccumulatedContent x b).
Hypothesis Q_invoke :
  forall c a b, Q a b -> Q (invoke abortsDuring c a) (invoke abortsDuring c b).
Hypothesis Q_report : forall d a b, Q a b -> Q (report d a) (report d b).
Hypothesis Q_setPending :
  forall x a b, Q a b ->
                Q (setIncompleteJsonBuffer x a) (setIncompleteJsonBuffer x b).
Hypothesis Q_setBraceCount :
  forall n a b, Q a b -> Q (setBraceCount n a) (setBraceCount n b).

Local Abbreviation same := (Shape.alike Q).

Lemma same_ret {A : Type} (x : A) : same (ret x).
Proof. intros a b H. split; [exact H | reflexivity]. Qed.

Lemma same_throw {A : Type} : same (@throw A).
Proof. intros a b H. split; [exact H | reflexivity]. Qed.

Lemma same_report (d : Diagnostic) : same (lift (report d)).
Proof. intros a b H. split; [apply Q_report, H | reflexivity]. Qed.

Lemma same_bind {A B : Type} (m : M A) (f : A -> M B) :
  same m -> (forall x, same (f x)) -> same (bind m f).
Proof.
  intros Hm Hf a b H. unfold bind. destruct (Hm a b H) as [G E].
  destruct (m a) as [a' [x|]], (m b) as [b' [y|]]; cbn [fst snd] in *;
    try discriminate.
  - inversion E; subst. apply Hf, G.
  - split; [exact G | reflexivity].
Qed.

Lemma same_tryCatch (body handler : M unit) :
  same body -> same handler -> same (tryCatch body handler).
Proof.
  intros Hb Hh a b H. unfold tryCatch. destruct (Hb a b H) as [G E].
  destruct (body a) as [a' [x|]], (body b) as [b' [y|]]; cbn [fst snd] in *;
    try discriminate.
  - split; [exact G | exact E].
  - apply Hh, G.
Qed.

Lemma same_forEach {A : Type} (items : list A) (body : A -> M unit) :
  (forall x, same (body x)) -> same (forEach items body).
Proof.
  intros Hb. induction items as [|x items IH]; cbn [forEach].
  - apply same_ret.
  - apply same_bind; [apply Hb | intros _; exact IH].
Qed.

Lemma same_processFragment (text : JSON) :
  same (processFragment decodeHtmlEntities ToString abortsDuring text).
Proof.
  intros a b H. unfold processFragment.
  destruct (toText ToString text) as [s|]; [|split; [exact H | reflexivity]].
  rewrite <- (Q_accumulated H).
  destruct (truthy (processTextContent _ s _));
    [|split; [exact H | reflexivity]].
  cbv zeta. cbn [accumulatedContent setAccumulatedContent].
  destruct (truthy (accumulateStreamingContent _ _ _));
    (split; [|reflexivity]); cbn [fst].
  - apply Q_invoke, Q_setAccumulated, H.
  - apply Q_setAccumulated, H.
Qed.

Lemma same_processPart (part : JSON) :
  same (processPart decodeHtmlEntities ToString abortsDuring part).
Proof.
  unfold processPart.
  destruct part; try apply same_throw;
    (destruct (member _ _) as [text|]; [|apply same_ret];
     destruct (truthyValue text);
     [apply same_processFragment | apply same_ret]).
Qed.

Lemma same_processParts (parts : JSON) :
  same (processParts decodeHtmlEntities ToString abortsDuring parts).
Proof.
  unfold processParts.
  destruct parts; try apply same_throw; try apply same_ret.
  apply same_forEach. intros x. apply same_processPart.
Qed.

Lemma same_processCandidate (candidate : JSON) :
  same (processCandidate decodeHtmlEntities ToString abortsDuring candidate).
Proof.
  unfold processCandidate.
  destruct candidate; try apply same_throw;
    (destruct (member _ _) as [content|]; [|apply same_ret];
     destruct (truthyValue content); [|apply same_ret];
     destruct (member _ content) as [parts|]; [|apply same_ret];
     destruct (truthyValue parts);
     [apply same_processParts | apply same_ret]).
Qed.

Lemma same_processParsed (parsed : JSON) :
  same (processParsed decodeHtmlEntities ToString abortsDuring parsed).
Proof.
  assert (C : forall v : JSON,
             same (match member (js "candidates") v with
                   | Some (JArray candidates) =>
                       forEach candidates
                         (processCandidate decodeHtmlEntities ToString
                            abortsDuring)
                   | _ => lift (report (UnexpectedFormat v))
                   end)).
  { intros v. destruct (member _ v) as [[| | | |cs|]|];
      try apply same_report.
    apply same_forEach. intros x. apply same_processCandidate. }
  unfold processParsed.
  destruct (if truthyValue parsed then member (js "text") parsed else None)
    as [[| | |text| |]|];
    try apply same_processFragment;
    (destruct parsed; [apply same_throw | apply C ..]).
Qed.

Lemma same_processComplete (jsonData : jsstring) :
  same (processComplete decodeHtmlEntities JSON_parse ToString abortsDuring
          jsonData).
Proof.
  unfold processComplete. apply same_tryCatch.
  - destruct (JSON_parse jsonData);
      [apply same_processParsed | apply same_throw].
  - apply same_report.
Qed.

Lemma same_processLine (a b : Session) (line : jsstring) :
  Q a b ->
  Q (processLine decodeHtmlEntities JSON_parse ToString abortsDuring a line)
    (processLine decodeHtmlEntities JSON_parse ToString abortsDuring b line).
Proof.
  intros H. unfold processLine. rewrite <- (Q_pending H).
  destruct (assemble (incompleteJsonBuffer a) line); cbv zeta;
    try (apply Q_setPending, H);
    try (apply Q_report, Q_setPending, H).
  - apply same_processComplete, Q_setBraceCount, Q_setPending, H.
  - apply Q_report, Q_setBraceCount, Q_setPending, H.
Qed.

Lemma same_processLines (lines : list jsstring) :
  forall a b,
    Q a b ->
    Q (fold_left
         (processLine decodeHtmlEntities JSON_parse ToString abortsDuring)
         lines a)
      (fold_left
         (processLine decodeHtmlEntities JSON_parse ToString abortsDuring)
         lines b).
Proof.
  induction lines as [|l lines IH]; intros a b H; cbn [fold_left].
  - exact H.
  - apply IH, same_processLine, H.
Qed.

End Related.

Section FrameDecoder.

Variable decodeHtmlEntities : jsstring -> jsstring.
Variable JSON_parse : jsstring -> option JSON.
Variable ToString : JSON -> option jsstring.
Variable abortsDuring : nat -> bool.

Local Abbreviation lines1 :=
  (fold_left
     (processLine decodeHtmlEntities JSON_parse ToString abortsDuring)).
Local Abbreviation chunk1 :=
  (processChunk decodeHtmlEntities JSON_parse ToString abortsDuring).

(** The handling of lines neither reads nor writes the line buffer. *)
Lemma processLines_setBuffer (lines : list jsstring) (b : jsstring)
  (st : Session) :
  lines1 lines (setBuffer b st) = setBuffer b (lines1 lines st).
Proof.
  apply (@same_processLines decodeHtmlEntities JSON_parse ToString
           abortsDuring (fun x y => y = setBuffer b x));
    try (intros; subst; reflexivity).
Qed.

Lemma processChunk_buffer (chunk : jsstring) (st : Session) :
  buffer (chunk1 chunk st) = last (splitLines (buffer st ++ chunk)) [].
Proof.
  unfold processChunk. rewrite processLines_setBuffer. reflexivity.
Qed.

Lemma processChunk_app (c1 c2 : jsstring) (st : Session) :
  chunk1 c2 (chunk1 c1 st) = chunk1 (c1 ++ c2) st.
Proof.
  unfold processChunk at 1. rewrite processChunk_buffer.
  unfold processChunk. rewrite app_assoc, (splitLines_app (buffer st ++ c1)).
  set (L1 := splitLines (buffer st ++ c1)).
  set (L2 := splitLines (last L1 [] ++ c2)).
  assert (N2 : L2 <> []) by apply splitLines_nonempty.
  rewrite (last_app_nonempty _ _ N2), removelast_app by exact N2.
  rewrite fold_left_app, !processLines_setBuffer.
  destruct (lines1 (removelast L1) st). reflexivity.
Qed.

Lemma processChunk_unaborted (chunk : jsstring) (st : Session) :
  (forall n, abortsDuring n = false) ->
  aborted (chunk1 chunk st) = aborted st.
Proof.
  intros H.
  apply (@keeps_processChunk decodeHtmlEntities JSON_parse ToString
           abortsDuring (fun a b => aborted b = aborted a));
    clear - H; try reflexivity.
  - intros a b c E1 E2. congruence.
  - intros t st _. cbn [invoke aborted]. rewrite H. apply orb_false_r.
Qed.

Lemma readLoop_chunks_as_one (cs : list jsstring) :
  (forall n, abortsDuring n = false) ->
  forall c st,
    aborted st = false ->
    readLoop decodeHtmlEntities JSON_parse ToString abortsDuring
      (map ReadChunk (c :: cs)) st
    = chunk1 (c ++ List.concat cs) st.
Proof.
  intros H. induction cs as [|d cs IH]; intros c st A.
  - cbn [map readLoop List.concat]. rewrite A, app_nil_r.
    destruct (aborted (processChunk _ _ _ _ c st)); reflexivity.
  - change (map ReadChunk (c :: d :: cs))
      with (ReadChunk c :: map ReadChunk (d :: cs)).
    cbn [readLoop]. rewrite A.
    rewrite IH by (rewrite processChunk_unaborted; assumption).
    cbn [List.concat]. apply processChunk_app.
Qed.

End FrameDecoder.

(** X3.  The reads may cut the text of the response anywhere: two chunks
    read one after the other are handled as the one chunk made of both, and
    the line buffer holds the unfinished last line of what has been read.
    So, when no callback aborts the signal, sessions whose chunks make up
    the same text are the same, whatever the reader delivers next. *)
Theorem X3_chunk_boundaries_do_not_matter
  (decodeHtmlEntities : jsstring -> jsstring)
  (JSON_parse : jsstring -> option JSON) (ToString : JSON -> option jsstring)
  (abortsDuring : nat -> bool) :
  let processChunk :=
    processChunk decodeHtmlEntities JSON_parse ToString abortsDuring in
  let session := fun reads =>
    streamContract decodeHtmlEntities JSON_parse ToString abortsDuring
      (Connected reads) in
  (forall c1 c2 st, processChunk c2 (processChunk c1 st)
                    = processChunk (c1 ++ c2) st)
  /\ (forall chunk st,
         buffer (processChunk chunk st)
         = last (splitLines (buffer st ++ chunk)) [])
  /\ ((forall n, abortsDuring n = false) ->
      forall chunks1 chunks2 rest,
        List.concat chunks1 = List.concat chunks2 ->
        session (map ReadChunk chunks1 ++ rest)
        = session (map ReadChunk chunks2 ++ rest)).
Proof.
  cbv zeta. split; [|split].
  - apply processChunk_app.
  - apply processChunk_buffer.
  - intros H chunks1 chunks2 rest E. unfold streamContract.
    rewrite !readLoop_chunks_then. f_equal.
    assert (W : forall cs,
               readLoop decodeHtmlEntities JSON_parse ToString abortsDuring
                 (map ReadChunk cs) initial
               = processChunk decodeHtmlEntities JSON_parse ToString
                   abortsDuring (List.concat cs) initial).
    { intros [|c cs]; [reflexivity|].
      apply readLoop_chunks_as_one; [exact H | reflexivity]. }
    rewrite !W, E. reflexivity.
Qed.

Lemma X3_chunk_boundaries_witness :
  let session := fun reads =>
    streamContract decodePlain parseTextObject noToString neverAborts
      (Connected reads) in
  session (map ReadChunk [js "data: " ++ jsq "{'tex"; jsq "t':'Hi'}" ++ [LF]]
           ++ [ReadDone])
  = session (map ReadChunk [js "da"; js "ta: " ++ jsq "{'text':'Hi'}";
                            [LF]] ++ [ReadDone]).
Proof.
  pose proof (X3_chunk_boundaries_do_not_matter
                decodePlain parseTextObject noToString neverAborts)
    as (_ & _ & S).
  cbv zeta in *. apply (S (fun n => eq_refl)). reflexivity.
Defined.

(** ** The pending buffer is an unfinished object *)

Lemma assemble_pendingOpen (pending line : jsstring) :
  pendingOpen pending ->
  pendingOpen (pendingAfter pending (assemble pending line)).
Proof.
  intros P. unfold assemble.
  destruct (startsWith line (js "data: ")); [|exact P]. cbv zeta.
  destruct (JsString.eqb _ (js "[DONE]")); [exact P|].
  destruct (truthy (trim (slice 6 line))); [|exact P]. cbn [negb].
  destruct (startsWith _ [LBRACE]) eqn:S.
  - destruct (Z.eqb _ 0) eqn:Z0; cbn [pendingAfter]; [left; reflexivity|].
    right. split; [exact S | apply Z.eqb_neq, Z0].
  - destruct (startsWith _ [LBRACKET]); left; reflexivity.
Qed.

Lemma assemble_joins (pending line : jsstring) :
  pending <> [] -> startsWith pending [LBRACE] = true ->
  match assemble pending line with
  | ArrayData _ | NonJson _ => False
  | _ => True
  end.
Proof.
  intros N S. unfold assemble.
  destruct (startsWith line (js "data: ")); [|exact I]. cbv zeta.
  destruct (JsString.eqb _ (js "[DONE]")); [exact I|].
  destruct (truthy (trim (slice 6 line))); [|exact I]. cbn [negb].
  destruct pending as [|c pending]; [congruence|]. cbn [truthy].
  assert (S' : startsWith ((c :: pending) ++ trim (slice 6 line)) [LBRACE]
               = true) by exact S.
  rewrite S'. destruct (Z.eqb _ 0); exact I.
Qed.

Section PendingBuffer.

Variable decodeHtmlEntities : jsstring -> jsstring.
Variable JSON_parse : jsstring -> option JSON.
Variable ToString : JSON -> option jsstring.
Variable abortsDuring : nat -> bool.

Lemma processChunk_pendingOpen (chunk : jsstring) (st : Session) :
  pendingOpen (incompleteJsonBuffer st) ->
  pendingOpen
    (incompleteJsonBuffer
       (processChunk decodeHtmlEntities JSON_parse ToString abortsDuring
          chunk st)).
Proof.
  apply (@steps_processChunk decodeHtmlEntities JSON_parse ToString
           abortsDuring
           (fun a b => pendingOpen (incompleteJsonBuffer a) ->
                       pendingOpen (incompleteJsonBuffer b)));
    clear; try tauto.
  intros line st. apply assemble_pendingOpen.
Qed.

Lemma finish_pending (st : Session) :
  incompleteJsonBuffer (finish decodeHtmlEntities JSON_parse abortsDuring st)
  = incompleteJsonBuffer st.
Proof.
  unfold finish, flushBuffer.
  destruct (truthy (trim (buffer st))); cbv zeta;
    [destruct (truthy (processBufferContent _ _ _ _))|];
    cbn [accumulatedContent setAccumulatedContent];
    destruct (truthy _); reflexivity.
Qed.

Lemma readLoop_pendingOpen (reads : list ReadResult) :
  forall st,
    pendingOpen (incompleteJsonBuffer st) ->
    pendingOpen
      (incompleteJsonBuffer
         (readLoop decodeHtmlEntities JSON_parse ToString abortsDuring
            reads st)).
Proof.
  induction reads as [|r reads IH]; intros st P; cbn [readLoop].
  - destruct (aborted st); exact P.
  - destruct (aborted st); [exact P|].
    destruct r as [chunk| |[|]].
    + apply IH, processChunk_pendingOpen, P.
    + rewrite finish_pending. exact P.
    + exact P.
    + exact P.
Qed.

End PendingBuffer.

(** X4.  In every session the pending buffer is empty or holds text that
    opens with a brace and whose scan ends at a depth other than zero; and
    while it holds text, no payload is skipped as array data or as non-JSON
    data: whatever payload comes is joined to the pending text. *)
Theorem X4_pending_buffer_is_an_unfinished_object
  (decodeHtmlEntities : jsstring -> jsstring)
  (JSON_parse : jsstring -> option JSON) (ToString : JSON -> option jsstring)
  (abortsDuring : nat -> bool) (reads : list ReadResult) :
  let pending :=
    incompleteJsonBuffer
      (streamContract decodeHtmlEntities JSON_parse ToString abortsDuring
         (Connected reads)) in
  pendingOpen pending
  /\ (pending <> [] ->
      forall line,
        match assemble pending line with
        | ArrayData _ | NonJson _ => False
        | _ => True
        end).
Proof.
  cbv zeta. unfold streamContract.
  assert (P : pendingOpen
                (incompleteJsonBuffer
                   (readLoop decodeHtmlEntities JSON_parse ToString
                      abortsDuring reads initial))).
  { apply readLoop_pendingOpen. left. reflexivity. }
  split; [exact P|]. intros N line.
  destruct P as [E | [S _]]; [congruence|].
  apply assemble_joins; assumption.
Qed.

(** ** The nested response shape *)

Section Nested.

Variable decodeHtmlEntities : jsstring -> jsstring.
Variable JSON_parse : jsstring -> option JSON.
Variable ToString : JSON -> option jsstring.
Variable abortsDuring : nat -> bool.

Local Abbreviation fragment :=
  (fun t : jsstring =>
     processFragment decodeHtmlEntities ToString abortsDuring (JString t)).
Local Abbreviation fragments :=
  (fold_left (fun st t => fst (fragment t st))).

Lemma processFragment_string (t : jsstring) (st : Session) :
  snd (fragment t st) = Some tt.
Proof.
  unfold processFragment. cbn [toText].
  destruct (truthy (processTextContent _ _ _)); cbv zeta;
    [destruct (truthy (accumulateStreamingContent _ _ _))|]; reflexivity.
Qed.

Lemma member_object (key : jsstring) (v x : JSON) :
  member key v = Some x -> exists members, v = JObject members.
Proof. destruct v; cbn [member]; try discriminate. eexists. reflexivity. Qed.

Lemma processPart_text (t : jsstring) (part : JSON) (st : Session) :
  isPart t part ->
  processPart decodeHtmlEntities ToString abortsDuring part st = fragment t st.
Proof.
  intros [M N]. destruct (member_object _ _ M) as [members ->].
  unfold processPart. rewrite M. cbn [truthyValue].
  destruct t; [congruence | reflexivity].
Qed.

(** A run of parts with texts is handled as the run of their texts. *)
Lemma forEach_parts (ts : list jsstring) (parts : list JSON) :
  Forall2 isPart ts parts ->
  forall (rest : list JSON) (st : Session),
    forEach (parts ++ rest)
      (processPart decodeHtmlEntities ToString abortsDuring) st
    = forEach rest (processPart decodeHtmlEntities ToString abortsDuring)
        (fragments ts st).
Proof.
  induction 1 as [|t part ts parts P _ IH]; intros rest st; [reflexivity|].
  cbn [app forEach fold_left]. unfold bind at 1.
  rewrite (processPart_text st P).
  pose proof (processFragment_string t st) as Ok.
  destruct (fragment t st) as [st' [u|]]; cbn [fst snd] in *;
    [apply IH | discriminate].
Qed.

Lemma processCandidate_texts (ts : list jsstring) (candidate : JSON)
  (st : Session) :
  isCandidate ts candidate ->
  processCandidate decodeHtmlEntities ToString abortsDuring candidate st
  = (fragments ts st, Some tt).
Proof.
  intros (content & parts & Mc & Mp & F).
  destruct (member_object _ _ Mc) as [members ->].
  destruct (member_object _ _ Mp) as [members' ->].
  unfold processCandidate. rewrite Mc. cbn [truthyValue]. rewrite Mp.
  cbn [truthyValue processParts].
  rewrite <- (app_nil_r parts), (forEach_parts F). reflexivity.
Qed.

Lemma forEach_candidates (tss : list (list jsstring)) (candidates : list JSON) :
  Forall2 isCandidate tss candidates ->
  forall (rest : list JSON) (st : Session),
    forEach (candidates ++ rest)
      (processCandidate decodeHtmlEntities ToString abortsDuring) st
    = forEach rest (processCandidate decodeHtmlEntities ToString abortsDuring)
        (fragments (List.concat tss) st).
Proof.
  induction 1 as [|ts c tss cs P _ IH]; intros rest st; [reflexivity|].
  cbn [app forEach List.concat]. unfold bind at 1.
  rewrite (processCandidate_texts st P), fold_left_app. apply IH.
Qed.

Lemma processParsed_candidates (parsed : JSON) (candidates : list JSON) :
  (forall t, member (js "text") parsed <> Some (JString t)) ->
  member (js "candidates") parsed = Some (JArray candidates) ->
  processParsed decodeHtmlEntities ToString abortsDuring parsed
  = forEach candidates
      (processCandidate decodeHtmlEntities ToString abortsDuring).
Proof.
  intros T C. destruct (member_object _ _ C) as [members ->].
  unfold processParsed. cbn [truthyValue]. rewrite C.
  destruct (member (js "text") (JObject members)) as [[| | |t| |]|] eqn:E;
    try reflexivity.
  exfalso. exact (T t eq_refl).
Qed.

End Nested.

(** X5.  An object of the nested shape is handled as the sequence of its
    texts: each text of each part of each candidate, in array order, is
    accumulated and emitted exactly as the text of a flat object would
    be, and nothing is thrown. *)
Theorem X5_nested_shape_is_the_sequence_of_its_texts
  (decodeHtmlEntities : jsstring -> jsstring)
  (ToString : JSON -> option jsstring) (abortsDuring : nat -> bool)
  (tss : list (list jsstring)) (parsed : JSON) (st : Session) :
  isNested tss parsed ->
  processParsed decodeHtmlEntities ToString abortsDuring parsed st
  = (fold_left
       (fun st t =>
          fst (processFragment decodeHtmlEntities ToString abortsDuring
                 (JString t) st))
       (List.concat tss) st,
     Some tt).
Proof.
  intros (T & candidates & C & F).
  rewrite (processParsed_candidates decodeHtmlEntities ToString abortsDuring
             parsed T C).
  rewrite <- (app_nil_r candidates), (forEach_candidates _ _ _ F).
  reflexivity.
Qed.

Lemma X5_nested_shape_witness :
  let part := fun t => JObject [(js "text", JString t)] in
  let parsed :=
    JObject
      [(js "candidates",
        JArray
          [JObject [(js "content",
                     JObject [(js "role", JString (js "model"));
                              (js "parts", JArray [part (js "One"); part (js "Two")])]);
                    (js "index", JNumber 0%float)];
           JObject [(js "content",
                     JObject [(js "parts", JArray [part (js "Three")])])]])] in
  accumulatedContent
    (fst (processParsed decodePlain noToString neverAborts parsed initial))
  = js "OneTwoThree".
Proof.
  cbv zeta.
  rewrite (@X5_nested_shape_is_the_sequence_of_its_texts
             decodePlain noToString neverAborts
             [[js "One"; js "Two"]; [js "Three"]]).
  - reflexivity.
  - split; [intros t; discriminate|].
    eexists. split; [reflexivity|].
    repeat (constructor; try (eexists; eexists; split; [reflexivity|];
                              split; [reflexivity|]);
            try (split; [reflexivity | discriminate])).
Defined.

(** X6.  A [null] among the parts stops the handling of the object.  The
    texts before it, those of the earlier candidates included, have been
    accumulated and emitted and stay so; the parts and candidates after it
    are not looked at; and the console gets the line of a parse failure,
    although the object did parse.  No other callback is made. *)
Theorem X6_null_part_stops_the_object
  (decodeHtmlEntities : jsstring -> jsstring)
  (JSON_parse : jsstring -> option JSON) (ToString : JSON -> option jsstring)
  (abortsDuring : nat -> bool)
  (jsonData : jsstring) (parsed content : JSON)
  (tss : list (list jsstring)) (ts : list jsstring)
  (before after partsBefore partsAfter : list JSON) (candidate : JSON)
  (st : Session) :
  JSON_parse jsonData = Some parsed ->
  (forall t, member (js "text") parsed <> Some (JString t)) ->
  member (js "candidates") parsed
  = Some (JArray (before ++ candidate :: after)) ->
  Forall2 isCandidate tss before ->
  member (js "content") candidate = Some content ->
  member (js "parts") content
  = Some (JArray (partsBefore ++ JNull :: partsAfter)) ->
  Forall2 isPart ts partsBefore ->
  fst (processComplete decodeHtmlEntities JSON_parse ToString abortsDuring
         jsonData st)
  = report (FailedToParse jsonData)
      (fold_left
         (fun st t =>
            fst (processFragment decodeHtmlEntities ToString abortsDuring
                   (JString t) st))
         (List.concat tss ++ ts) st).
Proof.
  intros P T C Fb Mc Mp Fp.
  unfold processComplete, tryCatch. rewrite P.
  rewrite (processParsed_candidates decodeHtmlEntities ToString abortsDuring
             parsed T C).
  rewrite (forEach_candidates _ _ _ Fb).
  cbn [forEach]. unfold bind at 1.
  destruct (member_object _ _ Mc) as [members ->].
  destruct (member_object _ _ Mp) as [members' ->].
  assert (E : processCandidate decodeHtmlEntities ToString abortsDuring
                (JObject members)
                (fold_left
                   (fun st t =>
                      fst (processFragment decodeHtmlEntities ToString
                             abortsDuring (JString t) st))
                   (List.concat tss) st)
              = (fold_left
                   (fun st t =>
                      fst (processFragment decodeHtmlEntities ToString
                             abortsDuring (JString t) st))
                   (List.concat tss ++ ts) st, None)).
  { unfold processCandidate. rewrite Mc. cbn [truthyValue]. rewrite Mp.
    cbn [truthyValue processParts].
    rewrite (forEach_parts _ _ _ Fp), fold_left_app. reflexivity. }
  rewrite E. reflexivity.
Qed.

Lemma X6_null_part_witness :
  let part := fun t => JObject [(js "text", JString t)] in
  let content :=
    JObject [(js "parts", JArray [part (js "One"); JNull; part (js "Two")])] in
  let candidate := JObject [(js "content", content)] in
  let parsed := JObject [(js "candidates", JArray [candidate])] in
  let st := fst (processComplete decodePlain (fun _ => Some parsed) noToString
                   neverAborts (js "{}") initial) in
  accumulatedContent st = js "One"
  /\ consoleLines st = [FailedToParse (js "{}")]
  /\ List.length (calls st) = 1.
Proof.
  intros part content candidate parsed.
  assert (T : forall t, member (js "text") parsed <> Some (JString t))
    by (intros t; discriminate).
  assert (F : Forall2 isPart [js "One"] [part (js "One")])
    by (repeat constructor; discriminate).
  cbv zeta.
  rewrite (@X6_null_part_stops_the_object
             decodePlain (fun _ => Some parsed) noToString neverAborts
             (js "{}") parsed content [] [js "One"] [] [] [part (js "One")]
             [part (js "Two")] candidate initial
             eq_refl T eq_refl (Forall2_nil _) eq_refl eq_refl F).
  repeat split.
Defined.

(** ** Facts about the matcher *)

Module RunFacts.

Lemma takeRun_dropRun (p : char -> bool) (s : jsstring) :
  takeRun p s ++ dropRun p s = s.
Proof.
  induction s as [|c s IH]; cbn [takeRun dropRun]; [reflexivity|].
  destruct (p c); cbn [app]; [rewrite IH|]; reflexivity.
Qed.

Lemma length_runs (p : char -> bool) (s : jsstring) :
  List.length s = List.length (takeRun p s) + List.length (dropRun p s).
Proof. rewrite <- (takeRun_dropRun p s) at 1. apply length_app. Qed.

Lemma skipn_takeRun (p : char -> bool) (s : jsstring) :
  skipn (List.length (takeRun p s)) s = dropRun p s.
Proof.
  rewrite <- (takeRun_dropRun p s) at 2.
  rewrite skipn_app, skipn_all, Nat.sub_diag. reflexivity.
Qed.

Lemma dropRun_head (p : char -> bool) (s : jsstring) :
  match dropRun p s with
  | c :: _ => p c = false
  | [] => True
  end.
Proof.
  induction s as [|c s IH]; cbn [dropRun]; [exact I|].
  destruct (p c) eqn:E; [exact IH | exact E].
Qed.

Lemma takeRun_all (p : char -> bool) (s : jsstring) :
  forallb p (takeRun p s) = true.
Proof.
  induction s as [|c s IH]; cbn [takeRun]; [reflexivity|].
  destruct (p c) eqn:E; [cbn [forallb]; rewrite E; exact IH | reflexivity].
Qed.

Lemma trimStart_dropRun (s : jsstring) : trimStart s = dropRun isWhiteSpace s.
Proof.
  induction s as [|c s IH]; cbn [trimStart dropRun]; [reflexivity|].
  destruct (isWhiteSpace c); [exact IH | reflexivity].
Qed.

Lemma Suffix_refl (s : jsstring) : Suffix s s.
Proof. exists []. reflexivity. Qed.

Lemma Suffix_cons (c : char) (t s : jsstring) : Suffix t s -> Suffix t (c :: s).
Proof. intros [pre ->]. exists (c :: pre). reflexivity. Qed.

Lemma Suffix_trans (a b c : jsstring) : Suffix a b -> Suffix b c -> Suffix a c.
Proof.
  intros [p ->] [q ->]. exists (q ++ p). rewrite app_assoc. reflexivity.
Qed.

Lemma Suffix_skipn (n : nat) (s : jsstring) : Suffix (skipn n s) s.
Proof. exists (firstn n s). symmetry. apply firstn_skipn. Qed.

Lemma Suffix_length (t s : jsstring) :
  Suffix t s -> List.length t <= List.length s.
Proof. intros [pre ->]. rewrite length_app. lia. Qed.

Lemma includes_Suffix (s t w : jsstring) :
  includes s w = false -> Suffix t s -> startsWith t w = false.
Proof.
  intros I [pre ->]. induction pre as [|c pre IH].
  - destruct t; cbn [app includes] in I; apply orb_false_iff in I; tauto.
  - apply IH. cbn [app includes] in I. apply orb_false_iff in I. tauto.
Qed.

Lemma includes_Suffix_false (s t w : jsstring) :
  includes s w = false -> Suffix t s -> includes t w = false.
Proof.
  intros I [pre ->]. induction pre as [|c pre IH]; [exact I|].
  apply IH. cbn [app includes] in I. apply orb_false_iff in I. tauto.
Qed.

End RunFacts.
Import RunFacts.

Section EngineFacts.

Variable multiline : bool.

Section Repeats.

Variable p : char -> bool.
Variable k : option char -> jsstring -> option result.

(** A greedy quantifier takes the whole run when the rest of the pattern
    matches after it. *)
Lemma repGreedy_longest (s : jsstring) (r : result) :
  (forall prev, k prev (dropRun p s) = Some r) ->
  forall min prev,
    min <= List.length (takeRun p s) ->
    repGreedy p k min prev s = Some r.
Proof.
  induction s as [|c s IH]; intros K min prev L; cbn [takeRun dropRun] in *.
  - cbn [List.length] in L. assert (min = 0) as -> by lia. apply K.
  - cbn [repGreedy]. destruct (p c).
    + rewrite IH; [reflexivity | exact K | cbn [List.length] in L; lia].
    + cbn [List.length] in L. assert (min = 0) as -> by lia. apply K.
Qed.

Lemma repGreedy_short (s : jsstring) :
  forall min prev,
    List.length (takeRun p s) < min -> repGreedy p k min prev s = None.
Proof.
  induction s as [|c s IH]; intros min prev L; cbn [takeRun] in *;
    cbn [repGreedy].
  - destruct min; [cbn in L; lia | reflexivity].
  - destruct (p c).
    + rewrite IH by (cbn [List.length] in L; lia).
      destruct min; [lia | reflexivity].
    + destruct min; [cbn in L; lia | reflexivity].
Qed.

(** When the rest of the pattern cannot start with a character of the
    class, there is nothing to backtrack to. *)
Lemma repGreedy_exclusive (s : jsstring) :
  (forall a b t, k a t = k b t) ->
  (forall a c t, p c = true -> k a (c :: t) = None) ->
  forall min prev,
    repGreedy p k min prev s
    = if min <=? List.length (takeRun p s) then k None (dropRun p s)
      else None.
Proof.
  intros Ind Ex. induction s as [|c s IH]; intros min prev;
    cbn [takeRun dropRun repGreedy].
  - destruct min; [apply Ind | reflexivity].
  - destruct (p c) eqn:E.
    + rewrite IH. cbn [List.length].
      destruct min as [|min]; cbn [pred Nat.leb Nat.eqb].
      * destruct (k None (dropRun p s)); [reflexivity | apply Ex, E].
      * destruct (min <=? List.length (takeRun p s)); [|reflexivity].
        destruct (k None (dropRun p s)); reflexivity.
    + destruct min; [apply Ind | reflexivity].
Qed.

(** When the rest of the pattern matches nowhere in the input, neither
    does the quantified pattern. *)
Lemma repGreedy_nowhere (s : jsstring) :
  (forall prev t, Suffix t s -> k prev t = None) ->
  forall min prev, repGreedy p k min prev s = None.
Proof.
  induction s as [|c s IH]; intros K min prev; cbn [repGreedy].
  - rewrite K by apply Suffix_refl. destruct (Nat.eqb min 0); reflexivity.
  - rewrite IH by (intros; apply K, Suffix_cons; assumption).
    rewrite K by apply Suffix_refl.
    destruct (p c), (Nat.eqb min 0); reflexivity.
Qed.

Lemma repLazy_nowhere (s : jsstring) :
  (forall prev t, Suffix t s -> k prev t = None) ->
  forall min prev, repLazy p k min prev s = None.
Proof.
  induction s as [|c s IH]; intros K min prev; cbn [repLazy].
  - rewrite K by apply Suffix_refl. destruct (Nat.eqb min 0); reflexivity.
  - rewrite IH by (intros; apply K, Suffix_cons; assumption).
    rewrite K by apply Suffix_refl.
    destruct (p c), (Nat.eqb min 0); reflexivity.
Qed.

End Repeats.

(** A pattern that opens with the word [w] matches only where [w]
    stands. *)
Lemma rmatch_Str (w : jsstring) :
  forall s prev caps k,
    startsWith s w = false -> rmatch multiline (Str w) prev s caps k = None.
Proof.
  induction w as [|d w IH]; intros s prev caps k S; [discriminate|].
  cbn [Str rmatch]. destruct s as [|c s]; [reflexivity|].
  cbn [startsWith] in S. destruct (N.eqb c d); [|reflexivity].
  apply IH. exact S.
Qed.

Section Replacing.

Variable r : regex.
Variable tmpl : list piece.

(** The characters of a match are passed over. *)
Lemma replaceFrom_skip (n : nat) :
  forall s prev,
    n <= List.length s ->
    exists prev',
      replaceFrom multiline r tmpl prev s n
      = replaceFrom multiline r tmpl prev' (skipn n s) 0.
Proof.
  induction n as [|n IH]; intros s prev L.
  - exists prev. reflexivity.
  - destruct s as [|c s]; [cbn in L; lia|].
    cbn [replaceFrom skipn]. apply IH. cbn [List.length] in L. lia.
Qed.

Lemma replaceFrom_nowhere (s : jsstring) :
  matchesNowhere multiline r s ->
  forall prev, replaceFrom multiline r tmpl prev s 0 = s.
Proof.
  induction s as [|c s IH]; intros N prev; cbn [replaceFrom];
    rewrite (N prev _ (Suffix_refl _)); [reflexivity|].
  rewrite IH; [reflexivity|].
  intros q t St. apply N, Suffix_cons, St.
Qed.

Lemma replaceFirstFrom_nowhere (s : jsstring) :
  matchesNowhere multiline r s ->
  forall prev, replaceFirstFrom multiline r tmpl prev s = s.
Proof.
  induction s as [|c s IH]; intros N prev; cbn [replaceFirstFrom];
    rewrite (N prev _ (Suffix_refl _)); [reflexivity|].
  rewrite IH; [reflexivity|].
  intros q t St. apply N, Suffix_cons, St.
Qed.

Lemma testFrom_nowhere (s : jsstring) :
  matchesNowhere multiline r s ->
  forall prev, testFrom multiline r prev s = false.
Proof.
  induction s as [|c s IH]; intros N prev; cbn [testFrom];
    rewrite (N prev _ (Suffix_refl _)); [reflexivity|].
  apply IH. intros q t St. apply N, Suffix_cons, St.
Qed.

Lemma splitFrom_nowhere (s : jsstring) :
  matchesNowhere multiline r s ->
  forall prev cur,
    splitFrom multiline r prev s 0 cur = [rev cur ++ s].
Proof.
  induction s as [|c s IH]; intros N prev cur; cbn [splitFrom].
  - rewrite app_nil_r. reflexivity.
  - rewrite (N prev _ (Suffix_refl _)), IH.
    + cbn [rev]. rewrite <- app_assoc. reflexivity.
    + intros q t St. apply N, Suffix_cons, St.
Qed.

End Replacing.

End EngineFacts.

(** ** White space after formatting *)

Module TidyFacts.

Lemma matchAt_spaces2 (prev : option char) (s : jsstring) :
  matchAt false re_spaces2 prev s
  = if 2 <=? List.length (takeRun isWhiteSpace s)
    then Some (dropRun isWhiteSpace s, [])
    else None.
Proof.
  unfold matchAt, re_spaces2. cbn [rmatch].
  destruct (2 <=? List.length (takeRun isWhiteSpace s)) eqn:E.
  - apply repGreedy_longest; [reflexivity | apply Nat.leb_le, E].
  - apply repGreedy_short. apply Nat.leb_gt, E.
Qed.

Lemma noAdjacentSpace_cons (c : char) (t : jsstring) :
  noAdjacentSpace t = true ->
  isWhiteSpace c = false \/ startsDark t = true ->
  noAdjacentSpace (c :: t) = true.
Proof.
  intros N D. destruct t as [|d t]; [reflexivity|].
  cbn [noAdjacentSpace] in *. rewrite N, andb_true_r.
  destruct D as [D | D]; [rewrite D; reflexivity|].
  cbn [startsDark] in D. apply negb_true_iff in D. rewrite D.
  rewrite andb_false_r. reflexivity.
Qed.

Lemma noAdjacentSpace_tail (c : char) (t : jsstring) :
  noAdjacentSpace (c :: t) = true -> noAdjacentSpace t = true.
Proof.
  destruct t as [|d t]; [reflexivity|]. cbn [noAdjacentSpace].
  intros H. apply andb_true_iff in H. tauto.
Qed.

Lemma noAdjacentSpace_suffix (a b : jsstring) :
  noAdjacentSpace (a ++ b) = true -> noAdjacentSpace b = true.
Proof.
  induction a as [|c a IH]; intros N; [exact N|].
  apply IH, (noAdjacentSpace_tail c), N.
Qed.

Lemma noAdjacentSpace_prefix (a b : jsstring) :
  noAdjacentSpace (a ++ b) = true -> noAdjacentSpace a = true.
Proof.
  induction a as [|c a IH]; intros N; [reflexivity|].
  destruct a as [|d a]; [reflexivity|].
  cbn [app noAdjacentSpace] in *. apply andb_true_iff in N.
  destruct N as [N1 N2]. rewrite N1. apply IH, N2.
Qed.

Lemma startsDark_app (a b : jsstring) :
  startsDark (a ++ b) = match a with [] => startsDark b | _ => startsDark a end.
Proof. destruct a; reflexivity. Qed.

Lemma noAdjacentSpace_app (a b : jsstring) :
  noAdjacentSpace a = true -> noAdjacentSpace b = true ->
  startsDark (rev a) = true \/ startsDark b = true ->
  noAdjacentSpace (a ++ b) = true.
Proof.
  induction a as [|x a IH]; intros A B D; [exact B|].
  destruct a as [|y a].
  - cbn [app]. apply noAdjacentSpace_cons; [exact B|].
    destruct D as [D | D]; [left | right; exact D].
    cbn in D. apply negb_true_iff, D.
  - assert (T : noAdjacentSpace ((y :: a) ++ b) = true).
    { apply IH; [apply (noAdjacentSpace_tail x), A | exact B |].
      destruct D as [D | D]; [left | right; exact D].
      change (rev (x :: y :: a)) with (rev (y :: a) ++ [x]) in D.
      rewrite startsDark_app in D.
      destruct (rev (y :: a)) eqn:E; [|exact D].
      apply (f_equal (@List.length _)) in E.
      rewrite length_rev in E. discriminate. }
    cbn [app noAdjacentSpace] in *. rewrite T, andb_true_r.
    apply andb_true_iff in A. tauto.
Qed.

(** After [replace(/\s{2,}/g, ' ')] no two white-space characters are
    side by side. *)
Lemma spaces_collapsed (n : nat) :
  forall s prev,
    List.length s <= n ->
    noAdjacentSpace (replaceFrom false re_spaces2 [TLit [32%N]] prev s 0)
    = true
    /\ (startsDark s = true ->
        startsDark (replaceFrom false re_spaces2 [TLit [32%N]] prev s 0)
        = true).
Proof.
  induction n as [|n IH]; intros s prev L.
  - destruct s; [|cbn in L; lia]. split; reflexivity.
  - destruct s as [|c s]; [split; reflexivity|].
    cbn [replaceFrom]. rewrite matchAt_spaces2.
    destruct (2 <=? _) eqn:E.
    + apply Nat.leb_le in E.
      pose proof (length_runs isWhiteSpace (c :: s)) as LR.
      pose proof (skipn_takeRun isWhiteSpace (c :: s)) as SK.
      pose proof (dropRun_head isWhiteSpace (c :: s)) as DH.
      set (run := takeRun isWhiteSpace (c :: s)) in *.
      set (rest := dropRun isWhiteSpace (c :: s)) in *.
      assert (W : isWhiteSpace c = true).
      { subst run. cbn [takeRun] in E. destruct (isWhiteSpace c);
          [reflexivity | cbn in E; lia]. }
      cbv zeta.
      destruct (List.length run) as [|[|m]] eqn:LRun; try lia.
      replace (List.length (c :: s) - List.length rest) with (S (S m))
        by lia.
      cbn [Nat.eqb expand app Nat.sub].
      destruct (@replaceFrom_skip false re_spaces2 [TLit [32%N]]
                  (S m) s (Some c)) as [prev' ->].
      { cbn [List.length] in LR. lia. }
      change (skipn (S m) s) with (skipn (S (S m)) (c :: s)). rewrite SK.
      destruct (IH rest prev') as [N D]; [lia|].
      assert (DR : startsDark rest = true).
      { destruct rest; [reflexivity|]. cbn [startsDark]. rewrite DH.
        reflexivity. }
      split.
      * rewrite ?Nat.sub_0_r. apply noAdjacentSpace_cons; [exact N|].
        right. apply D, DR.
      * cbn [startsDark]. rewrite W. discriminate.
    + apply Nat.leb_gt in E.
      destruct (IH s (Some c)) as [N D]; [cbn [List.length] in L; lia|].
      split; [|intros H; exact H].
      apply noAdjacentSpace_cons; [exact N|].
      destruct (isWhiteSpace c) eqn:W; [right | left; reflexivity].
      apply D. cbn [takeRun] in E. rewrite W in E.
      destruct s as [|d s]; [reflexivity|].
      cbn [takeRun List.length] in E. cbn [startsDark].
      destruct (isWhiteSpace d); [cbn in E; lia | reflexivity].
Qed.

Lemma startsDark_trimStart (s : jsstring) : startsDark (trimStart s) = true.
Proof.
  rewrite trimStart_dropRun.
  pose proof (dropRun_head isWhiteSpace s) as H.
  destruct (dropRun isWhiteSpace s); [reflexivity|].
  cbn [startsDark]. rewrite H. reflexivity.
Qed.

Lemma trimStart_Suffix (s : jsstring) : Suffix (trimStart s) s.
Proof.
  exists (takeRun isWhiteSpace s). rewrite trimStart_dropRun.
  symmetry. apply takeRun_dropRun.
Qed.

Lemma trimEnd_prefix (s : jsstring) : exists post, s = trimEnd s ++ post.
Proof.
  destruct (trimStart_Suffix (rev s)) as [pre E].
  exists (rev pre). unfold trimEnd.
  rewrite <- rev_app_distr, <- E, rev_involutive. reflexivity.
Qed.

Lemma tidy_trim (s : jsstring) :
  noAdjacentSpace s = true -> tidy (trim s) = true.
Proof.
  intros N. unfold tidy, trim.
  destruct (trimStart_Suffix s) as [pre E].
  destruct (trimEnd_prefix (trimStart s)) as [post F].
  assert (N1 : noAdjacentSpace (trimStart s) = true).
  { apply (noAdjacentSpace_suffix pre). rewrite <- E. exact N. }
  assert (N2 : noAdjacentSpace (trimEnd (trimStart s)) = true).
  { apply (noAdjacentSpace_prefix _ post). rewrite <- F. exact N1. }
  rewrite N2. cbn [andb].
  assert (D2 : startsDark (rev (trimEnd (trimStart s))) = true).
  { unfold trimEnd. rewrite rev_involutive. apply startsDark_trimStart. }
  rewrite D2, andb_true_r.
  pose proof (startsDark_trimStart s) as D1.
  rewrite F, startsDark_app in D1.
  destruct (trimEnd (trimStart s)); [reflexivity | exact D1].
Qed.

Lemma noAdjacentSpace_includes (s : jsstring) (a b : char) :
  noAdjacentSpace s = true ->
  isWhiteSpace a = true -> isWhiteSpace b = true ->
  includes s [a; b] = false.
Proof.
  intros N A B. induction s as [|x s IH]; [reflexivity|].
  cbn [includes]. rewrite IH by apply (noAdjacentSpace_tail x), N.
  rewrite orb_false_r. cbn [startsWith].
  destruct (N.eqb_spec x a) as [->|]; [|reflexivity].
  destruct s as [|y s]; [reflexivity|].
  destruct (N.eqb_spec y b) as [->|]; [|reflexivity].
  cbn [noAdjacentSpace] in N. rewrite A, B in N. discriminate.
Qed.

Lemma formatTextContent_tidy (decodeHtmlEntities : jsstring -> jsstring)
  (text : jsstring) :
  tidy (formatTextContent decodeHtmlEntities text) = true.
Proof.
  unfold formatTextContent. cbv zeta. apply tidy_trim.
  unfold replace_g at 1. unfold replaceAll.
  apply (@spaces_collapsed _ _ None (le_n _)).
Qed.

Lemma tidy_app (a b : jsstring) :
  tidy a = true -> tidy b = true -> tidy (a ++ b) = true.
Proof.
  unfold tidy. intros A B.
  apply andb_true_iff in A. destruct A as [A A3].
  apply andb_true_iff in A. destruct A as [A1 A2].
  apply andb_true_iff in B. destruct B as [B B3].
  apply andb_true_iff in B. destruct B as [B1 B2].
  rewrite noAdjacentSpace_app by (try assumption; left; assumption).
  rewrite rev_app_distr, !startsDark_app.
  destruct a as [|x a].
  - rewrite B2. destruct (rev b); assumption.
  - rewrite A2. destruct (rev b); assumption.
Qed.

Lemma trimStart_dark (s : jsstring) : startsDark s = true -> trimStart s = s.
Proof.
  destruct s as [|c s]; [reflexivity|]. cbn [startsDark trimStart].
  intros D. apply negb_true_iff in D. rewrite D. reflexivity.
Qed.

Lemma trim_dark (s : jsstring) :
  startsDark s = true -> startsDark (rev s) = true -> trim s = s.
Proof.
  intros D1 D2. unfold trim, trimEnd.
  rewrite (trimStart_dark _ D1), (trimStart_dark _ D2).
  apply rev_involutive.
Qed.

End TidyFacts.
Import TidyFacts.

(** X7.  Whatever the text and the decoder, [formatTextContent] returns a
    text with no white space at either end and no two white-space
    characters side by side.  In particular it holds no two newlines in a
    row: the pair of newlines that line 85 puts in place of a longer run
    does not outlast line 86. *)
Theorem X7_formatted_text_has_single_spaces
  (decodeHtmlEntities : jsstring -> jsstring) (text : jsstring) :
  tidy (formatTextContent decodeHtmlEntities text) = true
  /\ includes (formatTextContent decodeHtmlEntities text) [LF; LF] = false.
Proof.
  pose proof (formatTextContent_tidy decodeHtmlEntities text) as T.
  split; [exact T|].
  unfold tidy in T. apply andb_true_iff in T. destruct T as [T _].
  apply andb_true_iff in T. destruct T as [T _].
  apply noAdjacentSpace_includes; [exact T | reflexivity | reflexivity].
Qed.

Section TidyAccumulation.

Variable decodeHtmlEntities : jsstring -> jsstring.
Variable JSON_parse : jsstring -> option JSON.
Variable ToString : JSON -> option jsstring.
Variable abortsDuring : nat -> bool.

Lemma processTextContent_tidy (text acc : jsstring) :
  tidy acc = true ->
  tidy (processTextContent decodeHtmlEntities text acc) = true.
Proof.
  intros T. unfold processTextContent. cbv zeta.
  destruct (truthy acc); [|apply formatTextContent_tidy].
  destruct (includes acc _); [exact T|].
  apply tidy_app; [exact T | apply formatTextContent_tidy].
Qed.

Lemma processChunk_tidy (chunk : jsstring) (st : Session) :
  tidy (accumulatedContent st) = true ->
  tidy (accumulatedContent
          (processChunk decodeHtmlEntities JSON_parse ToString abortsDuring
             chunk st)) = true.
Proof.
  apply (@steps_processChunk decodeHtmlEntities JSON_parse ToString
           abortsDuring
           (fun a b => tidy (accumulatedContent a) = true ->
                       tidy (accumulatedContent b) = true));
    clear; try tauto.
  intros text st _. apply processTextContent_tidy.
Qed.

Lemma processBufferContent_tidy (buffer acc : jsstring) :
  tidy acc = true ->
  tidy (processBufferContent decodeHtmlEntities JSON_parse buffer acc) = true.
Proof.
  intros T. unfold processBufferContent.
  destruct (negb _); [exact T|].
  destruct (JSON_parse buffer) as [parsed|];
    [|apply tidy_app; [exact T | apply formatTextContent_tidy]].
  destruct (if truthyValue parsed then _ else _) as [[| | |t| |]|];
    try exact T.
  apply tidy_app; [exact T | apply formatTextContent_tidy].
Qed.

Lemma finish_tidy (st : Session) :
  tidy (accumulatedContent st) = true ->
  tidy (accumulatedContent
          (finish decodeHtmlEntities JSON_parse abortsDuring st)) = true.
Proof.
  intros T.
  assert (F : tidy (accumulatedContent
                      (flushBuffer decodeHtmlEntities JSON_parse st))
              = true).
  { unfold flushBuffer. destruct (truthy (trim (buffer st))); [|exact T].
    cbv zeta. destruct (truthy (processBufferContent _ _ _ _)); [|exact T].
    apply processBufferContent_tidy, T. }
  unfold finish. cbv zeta.
  destruct (truthy (accumulatedContent (flushBuffer _ _ st))); exact F.
Qed.

Lemma readLoop_tidy (reads : list ReadResult) :
  forall st,
    tidy (accumulatedContent st) = true ->
    tidy (accumulatedContent
            (readLoop decodeHtmlEntities JSON_parse ToString abortsDuring
               reads st)) = true.
Proof.
  induction reads as [|r reads IH]; intros st T; cbn [readLoop].
  - destruct (aborted st); exact T.
  - destruct (aborted st); [exact T|].
    destruct r as [chunk| |[|]].
    + apply IH, processChunk_tidy, T.
    + apply finish_tidy, T.
    + exact T.
    + exact T.
Qed.

End TidyAccumulation.

(** X8.  In every session the accumulated content has no white space at
    either end and no two white-space characters side by side: the
    fragments are joined with nothing between them, and no fragment brings
    a blank line or a paragraph break into the accumulation. *)
Theorem X8_accumulation_has_single_spaces
  (decodeHtmlEntities : jsstring -> jsstring)
  (JSON_parse : jsstring -> option JSON) (ToString : JSON -> option jsstring)
  (abortsDuring : nat -> bool) (c : Connection) :
  let acc :=
    accumulatedContent
      (streamContract decodeHtmlEntities JSON_parse ToString abortsDuring c) in
  tidy acc = true /\ trim acc = acc /\ includes acc [LF; LF] = false.
Proof.
  cbv zeta.
  assert (T : tidy (accumulatedContent
                      (streamContract decodeHtmlEntities JSON_parse ToString
                         abortsDuring c)) = true).
  { destruct c as [[|]|reads]; try reflexivity.
    apply readLoop_tidy. reflexivity. }
  split; [exact T|].
  unfold tidy in T. apply andb_true_iff in T. destruct T as [T D2].
  apply andb_true_iff in T. destruct T as [N D1].
  split; [|apply noAdjacentSpace_includes; [exact N | reflexivity ..]].
  apply trim_dark; assumption.
Qed.

(** ** Tags *)

Module TagFacts.

Lemma dropRun_all (p : char -> bool) (s : jsstring) :
  forallb p s = true -> dropRun p s = [].
Proof.
  induction s as [|c s IH]; [reflexivity|]. cbn [forallb dropRun].
  intros H. apply andb_true_iff in H. destruct H as [-> H]. apply IH, H.
Qed.

(** A tag is a [<], the characters up to the next [>], and that [>]. *)
Lemma matchAt_tag (multiline : bool) (prev : option char) (s : jsstring) :
  matchAt multiline re_tag prev s
  = match s with
    | c :: s' =>
        if N.eqb c 60%N then
          match dropRun cNotGt s' with
          | _ :: rest => Some (rest, [])
          | [] => None
          end
        else None
    | [] => None
    end.
Proof.
  unfold matchAt, re_tag. cbn [Seq rmatch].
  destruct s as [|c s]; [reflexivity|].
  destruct (N.eqb c 60%N); [|reflexivity].
  unfold Star. cbn [rmatch]. rewrite repGreedy_exclusive.
  - cbn [Nat.leb]. pose proof (dropRun_head cNotGt s) as H.
    destruct (dropRun cNotGt s) as [|x rest]; [reflexivity|].
    unfold cNotGt in H. apply negb_false_iff in H. rewrite H. reflexivity.
  - reflexivity.
  - intros a x t H. unfold cNotGt in H. apply negb_true_iff in H.
    rewrite H. reflexivity.
Qed.

Lemma tagFree_Suffix (t s : jsstring) :
  Suffix t s -> tagFree s = true -> tagFree t = true.
Proof.
  intros [pre ->]. induction pre as [|c pre IH]; intros T; [exact T|].
  cbn [app tagFree] in T. apply andb_true_iff in T. apply IH. tauto.
Qed.

Lemma tagFree_prefix (a b : jsstring) :
  tagFree (a ++ b) = true -> tagFree a = true.
Proof.
  induction a as [|c a IH]; intros T; [reflexivity|].
  cbn [app tagFree] in *. apply andb_true_iff in T. destruct T as [H T].
  rewrite (IH T), andb_true_r.
  destruct (N.eqb c 60%N); [|reflexivity]. cbn [negb orb] in *.
  rewrite forallb_app in H. apply andb_true_iff in H. tauto.
Qed.

Lemma noGt_tagFree (s : jsstring) :
  forallb cNotGt s = true -> tagFree s = true.
Proof.
  induction s as [|c s IH]; intros H; [reflexivity|].
  cbn [forallb tagFree] in *. apply andb_true_iff in H.
  destruct H as [_ H]. rewrite H, (IH H), orb_true_r. reflexivity.
Qed.

Lemma tagFree_nowhere (multiline : bool) (s : jsstring) :
  tagFree s = true -> matchesNowhere multiline re_tag s.
Proof.
  intros T prev t St. rewrite matchAt_tag.
  apply (tagFree_Suffix St) in T.
  destruct t as [|c t]; [reflexivity|].
  destruct (N.eqb c 60%N) eqn:E; [|reflexivity].
  cbn [tagFree] in T. rewrite E in T. cbn [negb orb] in T.
  apply andb_true_iff in T. destruct T as [T _].
  rewrite (dropRun_all _ _ T). reflexivity.
Qed.

(** After [replace(/<[^>]*>/g, '')] no tag is left. *)
Lemma tags_removed (n : nat) :
  forall s prev,
    List.length s <= n ->
    tagFree (replaceFrom false re_tag [] prev s 0) = true.
Proof.
  induction n as [|n IH]; intros s prev L.
  - destruct s; [reflexivity | cbn in L; lia].
  - destruct s as [|c s]; [reflexivity|].
    cbn [replaceFrom]. rewrite matchAt_tag.
    cbn [List.length] in L.
    destruct (N.eqb c 60%N) eqn:E.
    + pose proof (length_runs cNotGt s) as LR.
      pose proof (skipn_takeRun cNotGt s) as SK.
      destruct (dropRun cNotGt s) as [|x rest] eqn:D.
      * assert (A : forallb cNotGt s = true).
        { rewrite <- (takeRun_dropRun cNotGt s), D, app_nil_r.
          apply takeRun_all. }
        rewrite replaceFrom_nowhere
          by apply tagFree_nowhere, noGt_tagFree, A.
        cbn [tagFree]. rewrite A, (noGt_tagFree _ A), orb_true_r.
        reflexivity.
      * cbv zeta. cbn [expand app List.length] in *.
        replace (S (List.length s) - List.length rest)
          with (S (S (List.length (takeRun cNotGt s)))) by lia.
        cbn [Nat.eqb Nat.sub]. rewrite ?Nat.sub_0_r.
        destruct (@replaceFrom_skip false re_tag []
                    (S (List.length (takeRun cNotGt s))) s (Some c))
          as [prev' ->]; [lia|].
        replace (skipn (S (List.length (takeRun cNotGt s))) s) with rest.
        2:{ rewrite <- (takeRun_dropRun cNotGt s) at 2. rewrite D.
            change (S (List.length (takeRun cNotGt s)))
              with (1 + List.length (takeRun cNotGt s)).
            rewrite <- skipn_skipn, skipn_app, skipn_all, Nat.sub_diag.
            reflexivity. }
        apply IH. lia.
    + cbn [tagFree]. rewrite E. cbn [negb orb andb]. apply IH. lia.
Qed.

Lemma tagFree_trim (s : jsstring) : tagFree s = true -> tagFree (trim s) = true.
Proof.
  intros T. unfold trim.
  destruct (trimEnd_prefix (trimStart s)) as [post F].
  apply (tagFree_prefix _ post). rewrite <- F.
  apply (tagFree_Suffix (trimStart_Suffix s) T).
Qed.

(** A test that fails has found no match at any position. *)
Lemma testFrom_false (multiline : bool) (r : regex) :
  (forall a b t, matchAt multiline r a t = matchAt multiline r b t) ->
  forall s prev,
    testFrom multiline r prev s = false -> matchesNowhere multiline r s.
Proof.
  intros Ind. induction s as [|c s IH]; intros prev T q t [pre E];
    cbn [testFrom] in T.
  - destruct pre; [|discriminate]. cbn [app] in E. subst t.
    rewrite (Ind q prev). destruct (matchAt multiline r prev []);
      [discriminate | reflexivity].
  - destruct (matchAt multiline r prev (c :: s)) eqn:M; [discriminate|].
    destruct pre as [|d pre]; cbn [app] in E.
    + subst t. rewrite (Ind q prev). exact M.
    + injection E as _ E. apply (IH _ T). exists pre. exact E.
Qed.

End TagFacts.
Import TagFacts.

(** X9.  What [extractPlainText] returns holds no tag, whatever the
    content and the decoder: [isHtmlContent] is false of it.  And a decoded
    content in which [isHtmlContent] finds no tag is returned as it is,
    trimmed. *)
Theorem X9_extracted_text_has_no_tag
  (decodeHtmlEntities : jsstring -> jsstring) :
  (forall content,
     isHtmlContent (extractPlainText decodeHtmlEntities content) = false)
  /\ (forall content,
        isHtmlContent (decodeHtmlEntities content) = false ->
        extractPlainText decodeHtmlEntities content
        = trim (decodeHtmlEntities content)).
Proof.
  split; intros content.
  - unfold isHtmlContent, extractPlainText, test. cbv zeta.
    apply testFrom_nowhere, tagFree_nowhere, tagFree_trim.
    apply (@tags_removed _ _ None (le_n _)).
  - unfold isHtmlContent, extractPlainText, test, replace_g, replaceAll.
    cbv zeta. intros T. rewrite replaceFrom_nowhere; [reflexivity|].
    apply (@testFrom_false false re_tag) with (prev := None); [|exact T].
    intros a b t. rewrite !matchAt_tag. reflexivity.
Qed.

Lemma X9_extracted_text_witness :
  isHtmlContent (extractPlainText decodePlain (js " <p>a < b</p> ")) = false
  /\ extractPlainText decodePlain (js " 1 < 2 ") = js "1 < 2".
Proof.
  destruct (X9_extracted_text_has_no_tag decodePlain) as [A B].
  split; [apply A | apply B; reflexivity].
Defined.

(** ** The final clean-up on content without markup *)

Module CleanupFacts.

Lemma includes_within (a m b w : jsstring) :
  includes (a ++ m ++ b) w = false -> includes m w = false.
Proof.
  intros H. destruct (includes m w) eqn:E; [|reflexivity].
  apply includes_spec in E. destruct E as (x & y & ->).
  rewrite <- H. symmetry. apply includes_spec.
  exists (a ++ x), (y ++ b). rewrite <- !app_assoc. reflexivity.
Qed.

Lemma trim_within (s : jsstring) : exists pre post, s = pre ++ trim s ++ post.
Proof.
  destruct (trimStart_Suffix s) as [pre E].
  destruct (trimEnd_prefix (trimStart s)) as [post F].
  exists pre, post. unfold trim. rewrite <- F. exact E.
Qed.

Lemma includes_trim (s w : jsstring) :
  includes s w = false -> includes (trim s) w = false.
Proof.
  intros H. destruct (trim_within s) as (pre & post & E).
  rewrite E in H. apply (includes_within _ _ _ _ H).
Qed.

Lemma trim_trim (s : jsstring) : trim (trim s) = trim s.
Proof.
  apply trim_dark.
  - pose proof (startsDark_trimStart s) as D.
    destruct (trimEnd_prefix (trimStart s)) as [post F].
    rewrite F, startsDark_app in D. unfold trim.
    destruct (trimEnd (trimStart s)); [reflexivity | exact D].
  - unfold trim, trimEnd. rewrite rev_involutive.
    apply startsDark_trimStart.
Qed.

Section Nowhere.

Variable multiline : bool.
Variable s : jsstring.

Lemma Str_nowhere (w : jsstring) (rest : regex) :
  includes s w = false -> matchesNowhere multiline (Cat (Str w) rest) s.
Proof.
  intros I prev t St. unfold matchAt. cbn [rmatch].
  apply rmatch_Str. apply (includes_Suffix _ I St).
Qed.

Lemma Grp_Str_nowhere (n : nat) (w : jsstring) (rest : regex) :
  includes s w = false ->
  matchesNowhere multiline (Grp n (Cat (Str w) rest)) s.
Proof.
  intros I prev t St. unfold matchAt. cbn [rmatch].
  apply rmatch_Str. apply (includes_Suffix _ I St).
Qed.

Lemma text_html_end_nowhere :
  includes s html = false -> matchesNowhere multiline re_text_html_end s.
Proof.
  intros I prev t St. unfold matchAt, re_text_html_end, Plus.
  cbn [Seq rmatch]. apply repGreedy_nowhere.
  intros prev' t' St'. apply rmatch_Str.
  apply (includes_Suffix _ I (Suffix_trans St' St)).
Qed.

Lemma html_leading_nowhere :
  includes s html = false -> matchesNowhere multiline re_html_leading s.
Proof.
  intros I prev t St. unfold matchAt, re_html_leading, Star.
  cbn [Seq rmatch]. destruct (atBol multiline prev); [|reflexivity].
  apply repGreedy_nowhere.
  intros prev' t' St'. apply rmatch_Str.
  apply (includes_Suffix _ I (Suffix_trans St' St)).
Qed.

End Nowhere.

Lemma replace_g_nowhere (r : regex) (tmpl : list piece) (s : jsstring) :
  matchesNowhere false r s -> replace_g r tmpl s = s.
Proof. intros N. apply replaceFrom_nowhere, N. Qed.

Lemma split_nowhere (r : regex) (s : jsstring) :
  matchesNowhere false r s -> split false r s = [s].
Proof.
  intros N. unfold split. destruct s as [|c s].
  - rewrite (N None [] (Suffix_refl _)). reflexivity.
  - apply (splitFrom_nowhere N).
Qed.

(** Content that holds neither the word [html] nor the opening of a header
    tag comes out of the clean-up as it went in, trimmed. *)
Lemma cleanup_plain (content : jsstring) :
  includes content html = false ->
  includes content (js "<h") = false ->
  cleanupAccumulatedContent content = trim content.
Proof.
  intros H T. unfold cleanupAccumulatedContent. cbv zeta.
  rewrite (@replace_g_nowhere re_html_html _ content)
    by apply Str_nowhere, H.
  rewrite (@replace_g_nowhere re_html_nl_html _ content)
    by apply Str_nowhere, H.
  rewrite (@replace_g_nowhere re_html_nl_nl_html _ content)
    by apply Str_nowhere, H.
  rewrite (@replace_g_nowhere re_text_html_end _ content)
    by apply text_html_end_nowhere, H.
  rewrite (@replace_g_nowhere re_html_trailing _ content)
    by apply Str_nowhere, H.
  rewrite (@replace_g_nowhere re_html_leading _ content)
    by apply html_leading_nowhere, H.
  apply includes_trim in H, T.
  pose proof (trim_trim content) as TT.
  set (cleaned := trim content) in *.
  rewrite (@split_nowhere re_header cleaned)
    by apply Grp_Str_nowhere, T.
  clearbody cleaned.
  assert (Tr : truthy cleaned = true \/ cleaned = [])
    by (destruct cleaned; [right | left]; reflexivity).
  destruct Tr as [Tr | ->]; [|reflexivity].
  cbn [collectSections]. unfold addSection. rewrite TT, Tr.
  cbn [andb has existsb negb app rebuildSections].
  rewrite !app_nil_r.
  assert (F : (if test false re_numbered
                    (trim (replace_g re_tag [] cleaned))
               then replaceFirst false re_numbered_header
                      [TLit (js "<h2>" ++ decimal 1 ++ js ".");
                       TCap 2; TLit (js "</h2>")] cleaned
               else cleaned) = cleaned).
  { destruct (test false re_numbered _); [|reflexivity].
    apply replaceFirstFrom_nowhere, Str_nowhere, T. }
  rewrite F.
  rewrite (@replace_g_nowhere re_html_html _ cleaned)
    by apply Str_nowhere, H.
  rewrite (@replace_g_nowhere re_html_nl_html _ cleaned)
    by apply Str_nowhere, H.
  rewrite (@replace_g_nowhere re_text_html_end _ cleaned)
    by apply text_html_end_nowhere, H.
  exact TT.
Qed.

End CleanupFacts.
Import CleanupFacts.

(** X10.  [cleanupAccumulatedContent] does nothing but trim a content that
    holds neither the word [html] nor the opening [<h] of a header tag:
    none of its patterns matches, the content is one section, and the
    section is put back as it was. *)
Theorem X10_cleanup_only_trims_plain_content (content : jsstring) :
  includes content (js "html") = false ->
  includes content (js "<h") = false ->
  cleanupAccumulatedContent content = trim content.
Proof. apply cleanup_plain. Qed.

Lemma X10_cleanup_witness :
  cleanupAccumulatedContent (js "  1. Parties: A < B.  ")
  = js "1. Parties: A < B.".
Proof.
  rewrite (@X10_cleanup_only_trims_plain_content (js "  1. Parties: A < B.  "));
    reflexivity.
Defined.

(** X11.  When the reader is done and the accumulated content holds
    neither [html] nor [<h], the final emission is the plain-text
    conversion of the accumulated content itself: the clean-up between
    the two changes nothing.  It is followed by [onComplete] and by
    nothing else. *)
Theorem X11_final_emission_of_plain_content
  (decodeHtmlEntities : jsstring -> jsstring)
  (JSON_parse : jsstring -> option JSON) (ToString : JSON -> option jsstring)
  (abortsDuring : nat -> bool) (chunks : list jsstring) :
  let st :=
    flushBuffer decodeHtmlEntities JSON_parse
      (streamContract decodeHtmlEntities JSON_parse ToString abortsDuring
         (Connected (map ReadChunk chunks))) in
  aborted st = false ->
  truthy (accumulatedContent st) = true ->
  includes (accumulatedContent st) (js "html") = false ->
  includes (accumulatedContent st) (js "<h") = false ->
  calls (streamContract decodeHtmlEntities JSON_parse ToString abortsDuring
           (Connected (map ReadChunk chunks ++ [ReadDone])))
  = calls st
    ++ [OnData (convertToPlainText decodeHtmlEntities (accumulatedContent st))
          true;
        OnComplete].
Proof.
  cbv zeta. unfold streamContract. rewrite readLoop_chunks_then.
  set (st0 := readLoop _ _ _ _ (map ReadChunk chunks) initial).
  assert (T0 : tidy (accumulatedContent st0) = true)
    by (apply readLoop_tidy; reflexivity).
  assert (T : tidy (accumulatedContent
                      (flushBuffer decodeHtmlEntities JSON_parse st0))
              = true).
  { unfold flushBuffer. destruct (truthy (trim (buffer st0))); [|exact T0].
    cbv zeta. destruct (truthy (processBufferContent _ _ _ _)); [|exact T0].
    apply processBufferContent_tidy, T0. }
  assert (FA : aborted (flushBuffer decodeHtmlEntities JSON_parse st0)
               = aborted st0).
  { unfold flushBuffer. destruct (truthy (trim (buffer st0))); [|reflexivity].
    cbv zeta. destruct (truthy (processBufferContent _ _ _ _)); reflexivity. }
  rewrite FA. intros A Tr H Hh. cbn [readLoop]. rewrite A.
  unfold finish. cbv zeta. rewrite Tr.
  rewrite (cleanup_plain _ H Hh).
  unfold tidy in T. apply andb_true_iff in T. destruct T as [T D2].
  apply andb_true_iff in T. destruct T as [_ D1].
  rewrite (trim_dark _ D1 D2).
  cbn [invoke calls]. rewrite <- app_assoc. reflexivity.
Qed.

Lemma X11_final_emission_witness :
  calls (streamContract decodePlain parseTextObject noToString neverAborts
           (Connected
              (map ReadChunk [chunkOf [dataLine (jsq "{'text':'# Lease'}")]]
               ++ [ReadDone])))
  = [OnData (js "Lease" ++ [LF] ++ js "Lease") false;
     OnData (js "Lease") true; OnComplete].
Proof.
  rewrite (@X11_final_emission_of_plain_content
             decodePlain parseTextObject noToString neverAborts
             [chunkOf [dataLine (jsq "{'text':'# Lease'}")]]);
    reflexivity.
Defined.

(** ** The unterminated end of the response *)

Section Tail.

Variable decodeHtmlEntities : jsstring -> jsstring.
Variable JSON_parse : jsstring -> option JSON.
Variable ToString : JSON -> option jsstring.
Variable abortsDuring : nat -> bool.

Lemma finish_accumulated (st : Session) :
  accumulatedContent (finish decodeHtmlEntities JSON_parse abortsDuring st)
  = accumulatedContent (flushBuffer decodeHtmlEntities JSON_parse st).
Proof.
  unfold finish. cbv zeta.
  destruct (truthy (accumulatedContent (flushBuffer _ _ st))); reflexivity.
Qed.

Lemma flushBuffer_text (st : Session) :
  truthy (trim (buffer st)) = true ->
  JSON_parse (buffer st) = None ->
  accumulatedContent (flushBuffer decodeHtmlEntities JSON_parse st)
  = accumulatedContent st ++ formatTextContent decodeHtmlEntities (buffer st).
Proof.
  intros T P. unfold flushBuffer, processBufferContent. rewrite T, P.
  cbn [negb]. cbv zeta.
  destruct (accumulatedContent st ++ formatTextContent _ _) eqn:E;
    cbn [truthy]; [|reflexivity].
  apply app_eq_nil in E. destruct E as [E _]. exact E.
Qed.

Lemma chunks_buffer (chunks : list jsstring) :
  (forall n, abortsDuring n = false) ->
  let st :=
    readLoop decodeHtmlEntities JSON_parse ToString abortsDuring
      (map ReadChunk chunks) initial in
  buffer st = last (splitLines (List.concat chunks)) [] /\ aborted st = false.
Proof.
  intros H. cbv zeta. destruct chunks as [|c cs]; [split; reflexivity|].
  rewrite readLoop_chunks_as_one by (exact H || reflexivity).
  rewrite processChunk_buffer, processChunk_unaborted by exact H.
  split; reflexivity.
Qed.

End Tail.

(** X12.  What stands after the last newline of the response is never
    handled as an event.  When the reader is done and this tail is not
    blank and does not parse as JSON, as no line opening with [data: ]
    does, it is formatted as text, with its [data: ] and its braces, and
    appended to the accumulated content. *)
Theorem X12_unterminated_tail_is_appended_as_text
  (decodeHtmlEntities : jsstring -> jsstring)
  (JSON_parse : jsstring -> option JSON) (ToString : JSON -> option jsstring)
  (abortsDuring : nat -> bool) (chunks : list jsstring) :
  (forall n, abortsDuring n = false) ->
  let tail := last (splitLines (List.concat chunks)) [] in
  let session := fun reads =>
    streamContract decodeHtmlEntities JSON_parse ToString abortsDuring
      (Connected reads) in
  truthy (trim tail) = true ->
  JSON_parse tail = None ->
  accumulatedContent (session (map ReadChunk chunks ++ [ReadDone]))
  = accumulatedContent (session (map ReadChunk chunks))
    ++ formatTextContent decodeHtmlEntities tail.
Proof.
  intros H. cbv zeta. unfold streamContract.
  destruct (@chunks_buffer decodeHtmlEntities JSON_parse ToString
              abortsDuring chunks H) as [B A].
  rewrite <- B. intros T P.
  rewrite readLoop_chunks_then. cbn [readLoop]. rewrite A.
  rewrite finish_accumulated. apply flushBuffer_text; assumption.
Qed.

Lemma X12_unterminated_tail_witness :
  accumulatedContent
    (streamContract decodePlain parseTextObject noToString neverAborts
       (Connected
          (map ReadChunk
             [chunkOf [dataLine (jsq "{'text':'One'}")]
              ++ dataLine (jsq "{'text':'Two'}")]
           ++ [ReadDone])))
  = js "One" ++ dataLine (jsq "{'text':'Two'}").
Proof.
  rewrite (@X12_unterminated_tail_is_appended_as_text
             decodePlain parseTextObject noToString neverAborts
             [chunkOf [dataLine (jsq "{'text':'One'}")]
              ++ dataLine (jsq "{'text':'Two'}")]);
    reflexivity.
Defined.

(** ** A header at the start of the content *)

Module HeaderFacts.

Lemma repLazy_through (p : char -> bool)
  (k : option char -> jsstring -> option result)
  (title rest : jsstring) (res : result) :
  forallb p title = true ->
  (forall prev t, t <> [] -> Suffix t title -> k prev (t ++ rest) = None) ->
  (forall prev, k prev rest = Some res) ->
  forall prev, repLazy p k 0 prev (title ++ rest) = Some res.
Proof.
  intros P N K. induction title as [|c title IH]; intros prev.
  - cbn [app]. destruct rest; cbn [repLazy Nat.eqb]; rewrite K; reflexivity.
  - cbn [app repLazy Nat.eqb pred].
    assert (E : k prev ((c :: title) ++ rest) = None)
      by (apply N; [discriminate | apply Suffix_refl]).
    cbn [app] in E. rewrite E.
    cbn [forallb] in P. apply andb_true_iff in P. destruct P as [-> P].
    apply IH; [exact P|].
    intros q t Ne St. apply N; [exact Ne | apply Suffix_cons, St].
Qed.

Lemma matchAt_header (d d' : char) (title body : jsstring)
  (prev : option char) :
  c1to6 d = true -> c1to6 d' = true ->
  forallb (fun c => cDot c && negb (N.eqb c 60%N)) title = true ->
  exists caps,
    matchAt false re_header prev
      (60%N :: 104%N :: d :: 62%N :: title
       ++ 60%N :: 47%N :: 104%N :: d' :: 62%N :: body)
    = Some (body, caps).
Proof.
  intros D D' T. unfold matchAt, re_header.
  cbn. rewrite D.
  match goal with
  | |- exists caps, repLazy _ ?k _ _ _ = _ => set (K := k)
  end.
  assert (R : exists caps, forall q,
                K q (60%N :: 47%N :: 104%N :: d' :: 62%N :: body)
                = Some (body, caps)).
  { subst K. cbn. rewrite D'. eexists. intros q. reflexivity. }
  destruct R as [caps R]. exists caps.
  apply repLazy_through.
  - apply forallb_forall. intros c I.
    rewrite forallb_forall in T. apply T in I.
    apply andb_true_iff in I. tauto.
  - intros q t Ne [pre E]. subst K. cbn beta.
    destruct t as [|c t]; [congruence|]. cbn [app].
    rewrite forallb_forall in T.
    assert (I : In c title) by (rewrite E; apply in_or_app; right; left; reflexivity).
    apply T in I. apply andb_true_iff in I. destruct I as [_ I].
    apply negb_true_iff in I. rewrite I. reflexivity.
  - exact R.
Qed.

Lemma splitFrom_skip (r : regex) (n : nat) :
  forall s prev cur,
    n <= List.length s ->
    exists prev',
      splitFrom false r prev s n cur = splitFrom false r prev' (skipn n s) 0 cur.
Proof.
  induction n as [|n IH]; intros s prev cur L.
  - exists prev. reflexivity.
  - destruct s as [|c s]; [cbn in L; lia|].
    cbn [splitFrom skipn]. apply IH. cbn [List.length] in L. lia.
Qed.

Lemma trimStart_app_dark (x y : jsstring) :
  startsDark y = true -> trimStart (x ++ y) = trimStart x ++ y.
Proof.
  intros D. induction x as [|c x IH]; cbn [app trimStart].
  - apply trimStart_dark, D.
  - destruct (isWhiteSpace c); [exact IH | reflexivity].
Qed.

Lemma trimEnd_app_dark (a b : jsstring) :
  startsDark (rev a) = true -> trimEnd (a ++ b) = a ++ trimEnd b.
Proof.
  intros D. unfold trimEnd.
  rewrite rev_app_distr, (trimStart_app_dark _ _ D), rev_app_distr,
    rev_involutive.
  reflexivity.
Qed.

Lemma trimStart_app_blank (x y : jsstring) :
  trimStart (x ++ y)
  = if forallb isWhiteSpace x then trimStart y else trimStart x ++ y.
Proof.
  induction x as [|c x IH]; cbn [app trimStart forallb]; [reflexivity|].
  destruct (isWhiteSpace c); [exact IH | reflexivity].
Qed.

Lemma trimEnd_cons (c : char) (b : jsstring) :
  trimEnd (c :: b)
  = if forallb isWhiteSpace (rev b)
    then (if isWhiteSpace c then [] else [c])
    else c :: trimEnd b.
Proof.
  unfold trimEnd. cbn [rev]. rewrite trimStart_app_blank.
  destruct (forallb isWhiteSpace (rev b)).
  - cbn [trimStart]. destruct (isWhiteSpace c); reflexivity.
  - rewrite rev_app_distr. reflexivity.
Qed.

Lemma trimStart_blank (b : jsstring) :
  forallb isWhiteSpace b = true -> trimStart b = [].
Proof. rewrite trimStart_dropRun. apply dropRun_all. Qed.

Lemma trimStart_trimEnd (b : jsstring) :
  trimStart (trimEnd b) = trimEnd (trimStart b).
Proof.
  induction b as [|c b IH]; [reflexivity|].
  rewrite trimEnd_cons. cbn [trimStart].
  destruct (forallb isWhiteSpace (rev b)) eqn:B.
  - destruct (isWhiteSpace c) eqn:W.
    + assert (Bb : trimStart b = []).
      { apply trimStart_blank, forallb_forall. intros x I.
        rewrite forallb_forall in B. apply B, in_rev. rewrite rev_involutive.
        exact I. }
      rewrite Bb. reflexivity.
    + cbn [trimStart]. rewrite W, trimEnd_cons, B, W. reflexivity.
  - cbn [trimStart]. destruct (isWhiteSpace c) eqn:W; [exact IH|].
    rewrite trimEnd_cons, B. reflexivity.
Qed.

Lemma trim_trimEnd (b : jsstring) : trim (trimEnd b) = trim b.
Proof.
  unfold trim. rewrite trimStart_trimEnd. unfold trimEnd at 1 2.
  rewrite rev_involutive.
  rewrite (trimStart_dark (trimStart _)) by apply startsDark_trimStart.
  reflexivity.
Qed.

(** The sections of a content that is one section without a header. *)
Lemma sections_plain (body : jsstring) :
  includes body html = false ->
  includes body (js "<h") = false ->
  trim
    (replace_g re_text_html_end [TCap 1]
       (replace_g re_html_nl_html [TLit html]
          (replace_g re_html_html [TLit html]
             (rebuildSections (collectSections [body] []) 1))))
  = trim body.
Proof.
  intros H T. cbn [collectSections]. unfold addSection.
  destruct (truthy body && truthy (trim body)) eqn:E.
  - cbn [andb has existsb negb app rebuildSections]. rewrite !app_nil_r.
    assert (F : (if test false re_numbered
                      (trim (replace_g re_tag [] body))
                 then replaceFirst false re_numbered_header
                        [TLit (js "<h2>" ++ decimal 1 ++ js ".");
                         TCap 2; TLit (js "</h2>")] body
                 else body) = body).
    { destruct (test false re_numbered _); [|reflexivity].
      apply replaceFirstFrom_nowhere, Str_nowhere, T. }
    rewrite F.
    rewrite (@replace_g_nowhere re_html_html _ body)
      by apply Str_nowhere, H.
    rewrite (@replace_g_nowhere re_html_nl_html _ body)
      by apply Str_nowhere, H.
    rewrite (@replace_g_nowhere re_text_html_end _ body)
      by apply text_html_end_nowhere, H.
    reflexivity.
  - cbn [rebuildSections].
    assert (B : trim body = []).
    { destruct body; [reflexivity|]. cbn [truthy andb] in E.
      apply truthy_false, E. }
    rewrite B. reflexivity.
Qed.

Lemma cleanup_header (d d' : char) (title body : jsstring) :
  c1to6 d = true -> c1to6 d' = true ->
  forallb (fun c => cDot c && negb (N.eqb c 60%N)) title = true ->
  let content :=
    60%N :: 104%N :: d :: 62%N :: title
    ++ 60%N :: 47%N :: 104%N :: d' :: 62%N :: body in
  includes content html = false ->
  includes body (js "<h") = false ->
  cleanupAccumulatedContent content = trim body.
Proof.
  intros D D' Ti content H T. unfold cleanupAccumulatedContent. cbv zeta.
  rewrite (@replace_g_nowhere re_html_html _ content)
    by apply Str_nowhere, H.
  rewrite (@replace_g_nowhere re_html_nl_html _ content)
    by apply Str_nowhere, H.
  rewrite (@replace_g_nowhere re_html_nl_nl_html _ content)
    by apply Str_nowhere, H.
  rewrite (@replace_g_nowhere re_text_html_end _ content)
    by apply text_html_end_nowhere, H.
  rewrite (@replace_g_nowhere re_html_trailing _ content)
    by apply Str_nowhere, H.
  rewrite (@replace_g_nowhere re_html_leading _ content)
    by apply html_leading_nowhere, H.
  set (mid := 104%N :: d :: 62%N :: title
              ++ [60%N; 47%N; 104%N; d'; 62%N]).
  assert (C : content = (60%N :: mid) ++ body).
  { subst content mid. cbn [app]. rewrite <- app_assoc. reflexivity. }
  assert (Tr : trim content = (60%N :: mid) ++ trimEnd body).
  { unfold trim. change (trimStart content) with content. rewrite C.
    apply trimEnd_app_dark. subst mid. cbn [rev].
    rewrite !rev_app_distr. reflexivity. }
  rewrite Tr.
  destruct (trimEnd_prefix body) as [post P].
  assert (H1 : includes (trimEnd body) html = false).
  { apply (@includes_within (60%N :: mid) _ post). rewrite <- P.
    rewrite C in H. exact H. }
  assert (T1 : includes (trimEnd body) (js "<h") = false).
  { apply (@includes_within [] _ post). cbn [app]. rewrite <- P. exact T. }
  set (body1 := trimEnd body) in *.
  assert (S : exists cap,
             split false re_header ((60%N :: mid) ++ body1)
             = [[]; cap; body1]).
  { cbn [app]. unfold split. cbn [splitFrom].
    assert (E : mid ++ body1
                = 104%N :: d :: 62%N :: title
                  ++ 60%N :: 47%N :: 104%N :: d' :: 62%N :: body1).
    { subst mid. cbn [app]. rewrite <- app_assoc. reflexivity. }
    rewrite E.
    destruct (@matchAt_header d d' title body1 None D D' Ti) as [caps ->].
    rewrite <- E. cbv zeta. unfold jsstring, char in *.
    replace (List.length (60%N :: mid ++ body1) - List.length body1)
      with (S (List.length mid))
      by (change (List.length (60%N :: mid ++ body1))
            with (S (List.length (mid ++ body1)));
          rewrite length_app;
          generalize (List.length mid), (List.length body1); intros; lia).
    cbn [Nat.eqb rev].
    replace (S (List.length mid) - 1) with (List.length mid)
      by (generalize (List.length mid); intros; lia).
    destruct (@splitFrom_skip re_header (List.length mid) (mid ++ body1)
                (Some 60%N) []) as [prev' Sk].
    { rewrite length_app. lia. }
    unfold jsstring, char in Sk. rewrite Sk.
    rewrite skipn_app, skipn_all, Nat.sub_diag. cbn [skipn app].
    rewrite splitFrom_nowhere by apply Grp_Str_nowhere, T1.
    eexists. reflexivity. }
  destruct S as [cap ->].
  change (collectSections [[]; cap; body1] [])
    with (collectSections [body1] []).
  rewrite (@sections_plain body1 H1 T1). apply trim_trimEnd.
Qed.

End HeaderFacts.
Import HeaderFacts.

(** X13.  A header that opens the content is dropped by the clean-up.  The
    content is split at its headers and the loop takes the pieces two by
    two as header and content; the piece before the opening header is
    empty, so the pair it makes with the header is passed over, and what
    is left is the text after the header, trimmed. *)
Theorem X13_cleanup_drops_an_opening_header
  (d d' : char) (title body : jsstring) :
  c1to6 d = true -> c1to6 d' = true ->
  forallb (fun c => cDot c && negb (N.eqb c 60%N)) title = true ->
  let content :=
    js "<h" ++ [d] ++ js ">" ++ title ++ js "</h" ++ [d'] ++ js ">" ++ body in
  includes content (js "html") = false ->
  includes body (js "<h") = false ->
  cleanupAccumulatedContent content = trim body.
Proof. intros D D' T. apply (@cleanup_header d d' title body D D' T). Qed.

Lemma X13_cleanup_header_witness :
  cleanupAccumulatedContent (js "<h1>Lease</h1>The lessor lets the flat.")
  = js "The lessor lets the flat.".
Proof.
  apply (@X13_cleanup_drops_an_opening_header
           49%N 49%N (js "Lease") (js "The lessor lets the flat."));
    reflexivity.
Defined.

(** ** Back quotes after the conversion to plain text *)

Module ApartFacts.

Section Apart.

Variable q : char.

Lemma apart_tail (c : char) (t : jsstring) :
  apart q (c :: t) = true -> apart q t = true.
Proof.
  destruct t as [|d t]; [reflexivity|]. cbn [apart].
  intros H. apply andb_true_iff in H. tauto.
Qed.

Lemma apart_cons (c : char) (t : jsstring) :
  apart q t = true ->
  N.eqb c q = false \/ startsWith t [q] = false ->
  apart q (c :: t) = true.
Proof.
  intros A D. destruct t as [|d t]; [reflexivity|].
  cbn [apart] in *. rewrite A, andb_true_r.
  destruct D as [D | D]; [rewrite D; reflexivity|].
  cbn [startsWith] in D. rewrite andb_true_r in D. rewrite D.
  rewrite andb_false_r. reflexivity.
Qed.

Lemma apart_Suffix (t s : jsstring) :
  Suffix t s -> apart q s = true -> apart q t = true.
Proof.
  intros [pre ->]. induction pre as [|c pre IH]; intros A; [exact A|].
  apply IH, (apart_tail c), A.
Qed.

Lemma apart_prefix (a b : jsstring) :
  apart q (a ++ b) = true -> apart q a = true.
Proof.
  induction a as [|c a IH]; intros A; [reflexivity|].
  destruct a as [|d a]; [reflexivity|].
  cbn [app apart] in *. apply andb_true_iff in A.
  destruct A as [A1 A2]. rewrite A1. apply IH, A2.
Qed.

Lemma free_apart (s : jsstring) : free q s = true -> apart q s = true.
Proof.
  induction s as [|c s IH]; intros F; [reflexivity|].
  cbn [free forallb] in F. apply andb_true_iff in F. destruct F as [C F].
  apply apart_cons; [apply IH, F | left; apply negb_true_iff, C].
Qed.

Lemma free_head (s : jsstring) : free q s = true -> startsWith s [q] = false.
Proof.
  destruct s as [|c s]; [reflexivity|]. cbn [free forallb startsWith].
  intros F. apply andb_true_iff in F. destruct F as [C _].
  apply negb_true_iff in C. rewrite C. reflexivity.
Qed.

(** Two texts are joined without bringing two [q] together when the
    second does not open with one. *)
Lemma apart_app (a b : jsstring) :
  apart q a = true -> apart q b = true -> startsWith b [q] = false ->
  apart q (a ++ b) = true.
Proof.
  intros A B D. induction a as [|c a IH]; [exact B|].
  cbn [app]. apply apart_cons; [apply IH, (apart_tail c), A|].
  destruct a as [|d a]; [right; exact D|].
  cbn [apart] in A. apply andb_true_iff in A. destruct A as [A _].
  apply negb_true_iff, andb_false_iff in A.
  destruct A as [A | A]; [left; exact A | right].
  cbn [app startsWith]. rewrite A. reflexivity.
Qed.

Lemma free_app_apart (a b : jsstring) :
  free q a = true -> apart q b = true -> apart q (a ++ b) = true.
Proof.
  intros F B. induction a as [|c a IH]; [exact B|].
  cbn [free forallb] in F. apply andb_true_iff in F. destruct F as [C F].
  cbn [app]. apply apart_cons; [apply IH, F|].
  left. apply negb_true_iff, C.
Qed.

Lemma apart_includes (s w : jsstring) :
  apart q s = true -> includes s (q :: q :: w) = false.
Proof.
  intros A. induction s as [|c s IH]; [reflexivity|].
  cbn [includes]. rewrite (IH (apart_tail c _ A)), orb_false_r.
  cbn [startsWith]. destruct (N.eqb c q) eqn:C; [|reflexivity].
  destruct s as [|d s]; [reflexivity|].
  destruct (N.eqb d q) eqn:D; [|reflexivity].
  cbn [apart] in A. rewrite C, D in A. discriminate.
Qed.

End Apart.

End ApartFacts.
Import ApartFacts.

Section MatchShapes.

Variable multiline : bool.

(** Where a word of the pattern has matched, the word stands. *)
Lemma rmatch_Str_shape (w : jsstring) :
  forall s prev caps k res,
    rmatch multiline (Str w) prev s caps k = Some res ->
    exists prev' s', s = w ++ s' /\ k prev' s' caps = Some res.
Proof.
  induction w as [|d w IH]; intros s prev caps k res M.
  - exists prev, s. split; [reflexivity | exact M].
  - cbn [Str rmatch] in M. destruct s as [|c s]; [discriminate|].
    destruct (N.eqb_spec c d) as [->|]; [|discriminate].
    apply IH in M. destruct M as (prev' & s' & -> & M).
    exists prev', s'. split; [reflexivity | exact M].
Qed.

Lemma repGreedy_shape (p : char -> bool)
  (k : option char -> jsstring -> option result) (s : jsstring) :
  forall min prev res,
    repGreedy p k min prev s = Some res ->
    exists run s' prev',
      s = run ++ s' /\ forallb p run = true /\ min <= List.length run
      /\ k prev' s' = Some res.
Proof.
  induction s as [|c s IH]; intros min prev res M; cbn [repGreedy] in M.
  - destruct min; [|discriminate].
    exists [], [], prev. repeat split; [lia | exact M].
  - assert (Stop : (if Nat.eqb min 0 then k prev (c :: s) else None)
                   = Some res ->
                   exists run s' prev',
                     c :: s = run ++ s' /\ forallb p run = true
                     /\ min <= List.length run /\ k prev' s' = Some res).
    { destruct min; [|discriminate]. intros K.
      exists [], (c :: s), prev. repeat split; [lia | exact K]. }
    destruct (p c) eqn:P; [|exact (Stop M)].
    destruct (repGreedy p k (pred min) (Some c) s) as [r|] eqn:G;
      [|exact (Stop M)].
    injection M as ->. apply IH in G.
    destruct G as (run & s' & prev' & -> & F & L & K).
    exists (c :: run), s', prev'. cbn [forallb List.length app].
    rewrite P, F. repeat split; [lia | exact K].
Qed.

(** [(.*$)]: the group holds characters of one line, and the line ends
    where it ends. *)
Lemma restOfLine_shape (s : jsstring) (prev : option char) (caps : captures)
  (k : option char -> jsstring -> captures -> option result) (res : result) :
  rmatch multiline restOfLine prev s caps k = Some res ->
  exists run s' prev',
    s = run ++ s' /\ forallb cDot run = true /\ atEol multiline s' = true
    /\ k prev' s' ((1, run) :: caps) = Some res.
Proof.
  unfold restOfLine, Star. cbn [rmatch]. intros M.
  apply repGreedy_shape in M.
  destruct M as (run & s' & prev' & -> & F & _ & K).
  destruct (atEol multiline s') eqn:E; [|discriminate].
  exists run, s', prev'. repeat split; try assumption.
  rewrite length_app, Nat.add_sub, firstn_app, Nat.sub_diag, firstn_all in K.
  cbn [firstn] in K. rewrite app_nil_r in K. exact K.
Qed.

End MatchShapes.

Module CodeFacts.

(** A lazy quantifier stops at the first place where the rest of the
    pattern, which opens with the character [d], matches. *)
Lemma repLazy_until (p : char -> bool) (d : char)
  (f : jsstring -> result)
  (k : option char -> jsstring -> option result) :
  (forall prev t,
     k prev t = match t with
                | x :: _ => if N.eqb x d then Some (f t) else None
                | [] => None
                end) ->
  forall s prev,
    repLazy p k 0 prev s
    = match dropRun (fun c => p c && negb (N.eqb c d)) s with
      | x :: t => if N.eqb x d then Some (f (x :: t)) else None
      | [] => None
      end.
Proof.
  intros K. induction s as [|c s IH]; intros prev;
    cbn [repLazy dropRun Nat.eqb pred]; rewrite K; [reflexivity|].
  destruct (N.eqb c d) eqn:E.
  - rewrite andb_false_r, E. reflexivity.
  - rewrite andb_true_r. destruct (p c); [apply IH|].
    rewrite E. reflexivity.
Qed.

Lemma firstn_takeRun (p : char -> bool) (s : jsstring) :
  firstn (List.length s - List.length (dropRun p s)) s = takeRun p s.
Proof.
  rewrite (length_runs p s), Nat.add_sub.
  rewrite <- (takeRun_dropRun p s) at 2.
  rewrite firstn_app, Nat.sub_diag, firstn_all. cbn [firstn].
  apply app_nil_r.
Qed.

(** A code span is a back quote, the characters of the line up to the
    next back quote, and that back quote. *)
Lemma matchAt_code (multiline : bool) (prev : option char) (s : jsstring) :
  matchAt multiline re_code prev s
  = match s with
    | c :: s' =>
        if N.eqb c BACKQUOTE then
          match dropRun inCode s' with
          | x :: rest =>
              if N.eqb x BACKQUOTE then Some (rest, [(1, takeRun inCode s')])
              else None
          | [] => None
          end
        else None
    | [] => None
    end.
Proof.
  unfold matchAt, re_code, LazyStar. cbn [Seq rmatch].
  destruct s as [|c s]; [reflexivity|]. unfold BACKQUOTE.
  destruct (N.eqb c 96%N); [|reflexivity].
  rewrite (@repLazy_until cDot 96%N
             (fun t => (tl t,
                        [(1, firstn (List.length s - List.length t) s)]))).
  - fold BACKQUOTE. fold inCode.
    pose proof (firstn_takeRun inCode s) as F.
    destruct (dropRun inCode s) as [|x rest]; [reflexivity|].
    rewrite F. reflexivity.
  - intros q t. destruct t as [|x t]; [reflexivity|].
    destruct (N.eqb x 96%N); reflexivity.
Qed.

Lemma takeRun_free (s : jsstring) : free BACKQUOTE (takeRun inCode s) = true.
Proof.
  unfold free. apply forallb_forall. intros c I.
  pose proof (takeRun_all inCode s) as A. rewrite forallb_forall in A.
  apply A in I. unfold inCode in I. apply andb_true_iff in I. tauto.
Qed.

Lemma code_head (s : jsstring) (prev : option char) :
  startsWith s [BACKQUOTE] = false ->
  startsWith (replaceFrom false re_code [TCap 1] prev s 0) [BACKQUOTE]
  = false.
Proof.
  destruct s as [|c s]; [reflexivity|]. cbn [startsWith replaceFrom].
  rewrite andb_true_r, matchAt_code. intros H. rewrite H.
  cbn [startsWith]. rewrite H. reflexivity.
Qed.

(** After [replace(/`(.*?)`/g, '$1')] no two back quotes are side by
    side. *)
Lemma code_apart (n : nat) :
  forall s prev,
    List.length s <= n ->
    apart BACKQUOTE (replaceFrom false re_code [TCap 1] prev s 0) = true.
Proof.
  induction n as [|n IH]; intros s prev L.
  - destruct s; [reflexivity | cbn in L; lia].
  - destruct s as [|c s]; [reflexivity|].
    cbn [List.length] in L.
    assert (Plain : apart BACKQUOTE
                      (c :: replaceFrom false re_code [TCap 1] (Some c) s 0)
                    = true
                    \/ (N.eqb c BACKQUOTE = true
                        /\ startsWith s [BACKQUOTE] = true)).
    { destruct (startsWith s [BACKQUOTE]) eqn:H.
      - destruct (N.eqb c BACKQUOTE) eqn:C; [right; split; reflexivity|].
        left. apply apart_cons; [apply IH; lia | left; exact C].
      - left. apply apart_cons; [apply IH; lia|].
        right. apply code_head, H. }
    cbn [replaceFrom]. rewrite matchAt_code.
    destruct (N.eqb c BACKQUOTE) eqn:C;
      [|destruct Plain as [P | [P _]]; [exact P | discriminate]].
    pose proof (length_runs inCode s) as LR.
    pose proof (takeRun_dropRun inCode s) as TD.
    pose proof (dropRun_head inCode s) as DH.
    destruct (dropRun inCode s) as [|x rest] eqn:D.
    + destruct Plain as [P | [_ P]]; [exact P|].
      destruct s as [|y s]; [discriminate|].
      cbn [startsWith] in P. rewrite andb_true_r in P.
      cbn [dropRun] in D. unfold inCode at 1 in D. rewrite P in D.
      rewrite andb_false_r in D. discriminate.
    + destruct (N.eqb x BACKQUOTE) eqn:X.
      * cbv zeta. cbn [expand capture Nat.eqb List.length] in *.
        rewrite app_nil_r.
        replace (S (List.length s) - List.length rest)
          with (S (S (List.length (takeRun inCode s)))) by lia.
        cbn [Nat.eqb Nat.sub]. rewrite ?Nat.sub_0_r.
        destruct (@replaceFrom_skip false re_code [TCap 1]
                    (S (List.length (takeRun inCode s))) s (Some c))
          as [prev' ->]; [lia|].
        replace (skipn (S (List.length (takeRun inCode s))) s) with rest.
        2:{ rewrite <- TD at 2.
            change (S (List.length (takeRun inCode s)))
              with (1 + List.length (takeRun inCode s)).
            rewrite <- skipn_skipn, skipn_app, skipn_all, Nat.sub_diag.
            reflexivity. }
        apply free_app_apart; [apply takeRun_free | apply IH; lia].
      * destruct Plain as [P | [_ P]]; [exact P|].
        destruct s as [|y s]; [discriminate|].
        cbn [startsWith] in P. rewrite andb_true_r in P.
        cbn [dropRun] in D. unfold inCode at 1 in D. rewrite P in D.
        rewrite andb_false_r in D. injection D as -> _.
        rewrite P in X. discriminate.
Qed.

End CodeFacts.
Import CodeFacts.

Section LineRules.

Variable q : char.
Variable r : regex.
Variable tmpl : list piece.
Hypothesis q_in_line : isLineTerminator q = false.
Hypothesis rule : lineRule q r tmpl.

Lemma rule_not_at_line_end (prev : option char) (s : jsstring) :
  atEol true s = true -> matchAt true r prev s = None.
Proof.
  intros E. destruct (matchAt true r prev s) as [[rest caps]|] eqn:M;
    [|reflexivity].
  apply rule in M. destruct M as (_ & pre & lead & run & -> & P & _).
  destruct pre as [|c pre]; [discriminate|].
  cbn [app atEol] in *. congruence.
Qed.

(** The replacements at the starts of lines bring no two [q] together. *)
Lemma lines_apart (n : nat) :
  forall s prev,
    List.length s <= n ->
    apart q s = true ->
    apart q (replaceFrom true r tmpl prev s 0) = true
    /\ (startsWith (replaceFrom true r tmpl prev s 0) [q] = true ->
        startsWith s [q] = true \/ matchAt true r prev s <> None).
Proof.
  induction n as [|n IH]; intros s prev L A.
  - destruct s; [|cbn in L; lia]. cbn [replaceFrom].
    rewrite rule_not_at_line_end by reflexivity.
    split; [reflexivity | discriminate].
  - destruct s as [|c s].
    { cbn [replaceFrom]. rewrite rule_not_at_line_end by reflexivity.
      split; [reflexivity | discriminate]. }
    cbn [replaceFrom].
    destruct (matchAt true r prev (c :: s)) as [[rest caps]|] eqn:M.
    + destruct (rule _ _ M) as (_ & pre & lead & run & E & P & X & F & Er).
      assert (Lp : 1 <= List.length pre)
        by (destruct pre; [discriminate | cbn; lia]).
      assert (Ls : S (List.length s)
                   = List.length pre + List.length run + List.length rest).
      { change (S (List.length s)) with (List.length (c :: s)).
        rewrite E, !length_app. lia. }
      cbv zeta. rewrite X. cbn [List.length] in L |- *.
      unfold jsstring, char in *.
      replace (S (List.length s) - List.length rest)
        with (S (List.length pre + List.length run - 1)) by lia.
      cbn [Nat.eqb Nat.sub]. rewrite ?Nat.sub_0_r.
      destruct (@replaceFrom_skip true r tmpl
                  (List.length pre + List.length run - 1) s (Some c))
        as [prev' Sk]; [unfold jsstring, char in *; lia|].
      unfold jsstring, char in *. rewrite Sk.
      assert (Rk : skipn (List.length pre + List.length run - 1) s = rest).
      { change (skipn (List.length pre + List.length run - 1) s)
          with (skipn (S (List.length pre + List.length run - 1)) (c :: s)).
        rewrite E, app_assoc.
        replace (S (List.length pre + List.length run - 1))
          with (List.length (pre ++ run)) by (rewrite length_app; lia).
        rewrite skipn_app, skipn_all, Nat.sub_diag. reflexivity. }
      rewrite Rk.
      assert (Ar : apart q rest = true).
      { apply (@apart_Suffix q rest (c :: s)); [|exact A].
        exists (pre ++ run). rewrite E, app_assoc. reflexivity. }
      assert (Arun : apart q run = true).
      { apply (@apart_prefix q run rest).
        apply (@apart_Suffix q (run ++ rest) (c :: s)); [|exact A].
        exists pre. exact E. }
      destruct (IH rest prev') as [A' Hd'];
        [unfold jsstring, char in *; lia | exact Ar |].
      split; [|intros _; right; discriminate].
      apply apart_app; [apply free_app_apart; assumption | exact A' |].
      destruct (startsWith (replaceFrom true r tmpl prev' rest 0) [q])
        eqn:S; [exfalso | try reflexivity; exact S].
      destruct (Hd' eq_refl) as [H | H].
      * destruct rest as [|x rest]; [discriminate|].
        cbn [startsWith atEol andb] in *. rewrite andb_true_r in H.
        apply N.eqb_eq in H. subst x. congruence.
      * apply H, rule_not_at_line_end, Er.
    + destruct (IH s (Some c)) as [A' Hd'];
        [cbn [List.length] in L; lia | apply (apart_tail q c), A |].
      split.
      * apply apart_cons; [exact A'|].
        destruct (N.eqb c q) eqn:C; [right | left; reflexivity].
        destruct (startsWith (replaceFrom true r tmpl (Some c) s 0) [q])
          eqn:S; [exfalso | try reflexivity; exact S].
        destruct (Hd' eq_refl) as [H | H].
        -- destruct s as [|d s]; [discriminate|].
           cbn [startsWith] in H. rewrite andb_true_r in H.
           cbn [apart] in A. rewrite C, H in A. discriminate.
        -- destruct (matchAt true r (Some c) s) as [[rest caps]|] eqn:M';
             [|apply H; reflexivity].
           destruct (rule _ _ M') as (B & _). cbn [atBol andb] in B.
           apply N.eqb_eq in C. subst c. congruence.
      * cbn [startsWith]. intros H. left. exact H.
Qed.

Lemma replace_gm_apart (s : jsstring) :
  apart q s = true -> apart q (replace_gm r tmpl s) = true.
Proof. intros A. apply (@lines_apart _ s None (le_n _) A). Qed.

End LineRules.

Module LineFacts.

Lemma digit_in_line (c : char) : cDigit c = true -> isLineTerminator c = false.
Proof.
  unfold cDigit, inRange, isLineTerminator. intros H.
  apply andb_true_iff in H. destruct H as [H1 H2].
  apply N.leb_le in H1, H2.
  repeat (apply orb_false_iff; split); apply N.eqb_neq; lia.
Qed.

(** [/^w(.*$)/gm] for a word [w] that opens with a character of a line. *)
Lemma rule_word (q c0 : char) (w lead : jsstring) (tmpl : list piece) :
  isLineTerminator c0 = false ->
  (forall run caps, expand tmpl ((1, run) :: caps) = lead ++ run) ->
  free q lead = true ->
  lineRule q (Seq [Bol; Str (c0 :: w); restOfLine]) tmpl.
Proof.
  intros C X F prev s rest caps M. unfold matchAt in M.
  cbn [Seq rmatch] in M. destruct (atBol true prev); [|discriminate].
  split; [reflexivity|].
  apply (rmatch_Str_shape true (c0 :: w)) in M.
  destruct M as (prev1 & s1 & -> & M).
  apply restOfLine_shape in M.
  destruct M as (run & s2 & prev2 & -> & _ & E & M).
  cbn [rmatch] in M. injection M as <- <-.
  exists (c0 :: w), lead, run.
  split; [reflexivity|]. split; [cbn [atEol andb]; exact C|].
  split; [apply X|]. split; [exact F | exact E].
Qed.

(** [/^\d+\. (.*$)/gm] *)
Lemma rule_number (q : char) : lineRule q re_number_item [TCap 1].
Proof.
  intros prev s rest caps M. unfold matchAt, re_number_item, Plus in M.
  cbn [Seq rmatch] in M. destruct (atBol true prev); [|discriminate].
  split; [reflexivity|].
  apply repGreedy_shape in M.
  destruct M as (digits & s1 & prev1 & -> & D & L & M).
  destruct s1 as [|x s1]; [discriminate|].
  destruct (N.eqb_spec x 46%N) as [->|]; [|discriminate].
  destruct s1 as [|y s1]; [discriminate|].
  destruct (N.eqb_spec y 32%N) as [->|]; [|discriminate].
  apply restOfLine_shape in M.
  destruct M as (run & s2 & prev2 & -> & _ & E & M).
  cbn [rmatch] in M. injection M as <- <-.
  exists (digits ++ [46%N; 32%N]), [], run.
  split; [rewrite <- app_assoc; reflexivity|].
  split.
  { destruct digits as [|d digits]; [cbn in L; lia|].
    cbn [forallb] in D. apply andb_true_iff in D. destruct D as [D _].
    cbn [app atEol andb]. apply digit_in_line, D. }
  split; [cbn [expand capture Nat.eqb app]; apply app_nil_r|].
  split; [reflexivity | exact E].
Qed.

Lemma convertToPlainText_apart (decodeHtmlEntities : jsstring -> jsstring)
  (rawText : jsstring) :
  apart BACKQUOTE (convertToPlainText decodeHtmlEntities rawText) = true.
Proof.
  unfold convertToPlainText. cbv zeta.
  assert (T : forall run caps,
            expand [TCap 1] ((1, run) :: caps) = [] ++ run)
    by (intros; cbn [expand capture Nat.eqb app]; apply app_nil_r).
  apply replace_gm_apart; [reflexivity | apply rule_number|].
  apply replace_gm_apart;
    [reflexivity
    | apply (@rule_word BACKQUOTE 45%N [32%N] bullet);
        [reflexivity | | reflexivity]
    |].
  { intros; cbn [expand capture Nat.eqb app]. rewrite app_nil_r.
    reflexivity. }
  apply replace_gm_apart;
    [reflexivity
    | apply (@rule_word BACKQUOTE 35%N (js "## ") []);
        [reflexivity | exact T | reflexivity]
    |].
  apply replace_gm_apart;
    [reflexivity
    | apply (@rule_word BACKQUOTE 35%N (js "# ") []);
        [reflexivity | exact T | reflexivity]
    |].
  apply replace_gm_apart;
    [reflexivity
    | apply (@rule_word BACKQUOTE 35%N (js " ") []);
        [reflexivity | exact T | reflexivity]
    |].
  apply (@code_apart _ _ None (le_n _)).
Qed.

Lemma convertToPlainText_notComplete
  (decodeHtmlEntities : jsstring -> jsstring) (rawText : jsstring) :
  isStreamComplete (convertToPlainText decodeHtmlEntities rawText) = false.
Proof.
  unfold isStreamComplete.
  change (js "```") with [BACKQUOTE; BACKQUOTE; BACKQUOTE].
  rewrite (apart_includes BACKQUOTE _ [BACKQUOTE]
             (convertToPlainText_apart decodeHtmlEntities rawText)).
  reflexivity.
Qed.

End LineFacts.
Import LineFacts.

(** X14.  The plain text of a content never holds two back quotes side by
    side, whatever the content and the decoder: the code spans are
    replaced by their inside, which holds no back quote, and the
    replacements at the starts of lines bring no two back quotes together.
    So it holds no code fence, and [isStreamComplete], which looks for
    one, is false of it. *)
Theorem X14_plain_text_is_never_complete
  (decodeHtmlEntities : jsstring -> jsstring) (content : jsstring) :
  apart BACKQUOTE (getPlainTextContent decodeHtmlEntities content) = true
  /\ includes (getPlainTextContent decodeHtmlEntities content) (js "```")
     = false
  /\ isStreamComplete (getPlainTextContent decodeHtmlEntities content)
     = false.
Proof.
  unfold getPlainTextContent.
  pose proof (convertToPlainText_apart decodeHtmlEntities content) as A.
  split; [exact A|].
  split; [|apply convertToPlainText_notComplete].
  apply (apart_includes BACKQUOTE _ [BACKQUOTE] A).
Qed.

Section EmittedTexts.

Variable decodeHtmlEntities : jsstring -> jsstring.
Variable JSON_parse : jsstring -> option JSON.
Variable ToString : JSON -> option jsstring.
Variable abortsDuring : nat -> bool.

Lemma processChunk_notComplete (chunk : jsstring) (st : Session) :
  forallb notComplete (calls st) = true ->
  forallb notComplete
    (calls (processChunk decodeHtmlEntities JSON_parse ToString abortsDuring
              chunk st)) = true.
Proof.
  apply (@steps_processChunk decodeHtmlEntities JSON_parse ToString
           abortsDuring
           (fun a b => forallb notComplete (calls a) = true ->
                       forallb notComplete (calls b) = true));
    clear; try tauto.
  intros text st _ _ H. cbn [invoke calls].
  rewrite forallb_app, H. cbn [forallb notComplete andb].
  unfold accumulateStreamingContent.
  destruct (negb (truthy _)); rewrite convertToPlainText_notComplete;
    reflexivity.
Qed.

Lemma finish_notComplete (st : Session) :
  forallb notComplete (calls st) = true ->
  forallb notComplete
    (calls (finish decodeHtmlEntities JSON_parse abortsDuring st)) = true.
Proof.
  intros H.
  assert (F : calls (flushBuffer decodeHtmlEntities JSON_parse st)
              = calls st).
  { unfold flushBuffer. destruct (truthy (trim (buffer st))); [|reflexivity].
    cbv zeta. destruct (truthy (processBufferContent _ _ _ _)); reflexivity. }
  unfold finish. cbv zeta.
  destruct (truthy (accumulatedContent (flushBuffer _ _ st)));
    cbn [invoke calls]; rewrite ?forallb_app, F, H;
    cbn [forallb notComplete andb];
    rewrite ?convertToPlainText_notComplete; reflexivity.
Qed.

Lemma readLoop_notComplete (reads : list ReadResult) :
  forall st,
    forallb notComplete (calls st) = true ->
    forallb notComplete
      (calls (readLoop decodeHtmlEntities JSON_parse ToString abortsDuring
                reads st)) = true.
Proof.
  induction reads as [|r reads IH]; intros st H; cbn [readLoop].
  - destruct (aborted st); exact H.
  - destruct (aborted st); [exact H|].
    destruct r as [chunk| |[|]].
    + apply IH, processChunk_notComplete, H.
    + apply finish_notComplete, H.
    + exact H.
    + cbn [caught invoke calls]. rewrite forallb_app, H. reflexivity.
Qed.

End EmittedTexts.

(** X15.  No text that a session hands to [onData], final or not, is
    complete in the sense of [isStreamComplete]: every one of them comes
    out of [convertToPlainText]. *)
Theorem X15_no_emitted_text_is_complete
  (decodeHtmlEntities : jsstring -> jsstring)
  (JSON_parse : jsstring -> option JSON) (ToString : JSON -> option jsstring)
  (abortsDuring : nat -> bool) (c : Connection) :
  forallb notComplete
    (calls (streamContract decodeHtmlEntities JSON_parse ToString
              abortsDuring c)) = true.
Proof.
  destruct c as [[|]|reads]; try reflexivity.
  apply readLoop_notComplete. reflexivity.
Qed.

(** ** A stream of well-formed events *)

Section WellFormedStream.

Variable decodeHtmlEntities : jsstring -> jsstring.
Variable JSON_parse : jsstring -> option JSON.
Variable ToString : JSON -> option jsstring.
Variable abortsDuring : nat -> bool.

Local Abbreviation fragment :=
  (fun t : jsstring =>
     processFragment decodeHtmlEntities ToString abortsDuring (JString t)).
Local Abbreviation fragments :=
  (fold_left (fun st t => fst (fragment t st))).

(** The assembler is idle: nothing is pending. *)
Local Abbreviation idle :=
  (fun st : Session => incompleteJsonBuffer st = [] /\ braceCount st = 0%Z).

Lemma fragment_idle (t : jsstring) (st : Session) :
  idle st -> idle (fst (fragment t st)).
Proof.
  intros I. unfold processFragment. cbn [toText].
  destruct (truthy (processTextContent _ _ _)); cbv zeta;
    [destruct (truthy (accumulateStreamingContent _ _ _))|]; exact I.
Qed.

Lemma fragments_idle (texts : list jsstring) :
  forall st, idle st -> idle (fragments texts st).
Proof.
  induction texts as [|t texts IH]; intros st I; [exact I|].
  cbn [fold_left]. apply IH, fragment_idle, I.
Qed.

Lemma processParsed_carried (parsed : JSON) (texts : list jsstring)
  (st : Session) :
  (exists t, member (js "text") parsed = Some (JString t) /\ texts = [t])
  \/ (exists tss, isNested tss parsed /\ texts = List.concat tss) ->
  processParsed decodeHtmlEntities ToString abortsDuring parsed st
  = (fragments texts st, Some tt).
Proof.
  intros [(t & Mt & ->) | (tss & (T & candidates & C & F) & ->)].
  - destruct (member_object _ _ Mt) as [members ->].
    unfold processParsed. cbn [truthyValue]. rewrite Mt. cbn [fold_left].
    pose proof (processFragment_string decodeHtmlEntities ToString
                  abortsDuring t st) as Ok.
    destruct (fragment t st) as [st' [[]|]]; [reflexivity | discriminate].
  - rewrite (processParsed_candidates decodeHtmlEntities ToString
               abortsDuring parsed T C).
    rewrite <- (app_nil_r candidates), (forEach_candidates _ _ _ F).
    reflexivity.
Qed.

(** The line of a well-formed event is handled as the texts it
    carries. *)
Lemma processLine_event (payload : jsstring) (texts : list jsstring)
  (st : Session) :
  idle st ->
  carries JSON_parse payload texts ->
  processLine decodeHtmlEntities JSON_parse ToString abortsDuring st
    (dataLine payload)
  = fragments texts st.
Proof.
  intros [Ip Ib] (Tr & Sb & Sc & _ & parsed & P & Sh).
  assert (Ne : payload <> []) by (destruct payload; [discriminate | congruence]).
  assert (D : JsString.eqb payload (js "[DONE]") = false).
  { destruct payload as [|c payload]; [congruence|].
    cbn [startsWith] in Sb. rewrite andb_true_r in Sb.
    apply N.eqb_eq in Sb. subst c. reflexivity. }
  unfold processLine.
  rewrite (assemble_piece (incompleteJsonBuffer st)
             (trim_cleanEdges Ne Tr) D), Ip.
  cbv zeta. cbn [app]. rewrite Sb, Sc. cbn [Z.eqb pendingAfter].
  replace (setBraceCount 0 (setIncompleteJsonBuffer [] st)) with st
    by (destruct st; cbn in *; subst; reflexivity).
  unfold processComplete, tryCatch. rewrite P.
  rewrite (processParsed_carried st Sh). reflexivity.
Qed.

Lemma processLines_events (payloads : list jsstring)
  (textss : list (list jsstring)) :
  Forall2 (carries JSON_parse) payloads textss ->
  forall st,
    idle st ->
    fold_left
      (processLine decodeHtmlEntities JSON_parse ToString abortsDuring)
      (map dataLine payloads) st
    = fragments (List.concat textss) st.
Proof.
  induction 1 as [|payload texts payloads textss C _ IH]; intros st I;
    [reflexivity|].
  cbn [map fold_left List.concat]. rewrite fold_left_app.
  rewrite (processLine_event I C). apply IH, fragments_idle, I.
Qed.

Lemma dataLines_noLF (payloads : list jsstring)
  (textss : list (list jsstring)) :
  Forall2 (carries JSON_parse) payloads textss ->
  forallb noLF (map dataLine payloads) = true.
Proof.
  induction 1 as [|payload texts payloads textss C _ IH]; [reflexivity|].
  cbn [map forallb]. rewrite IH, andb_true_r.
  destruct C as (_ & _ & _ & L & _).
  unfold dataLine, noLF, Invariants.noLF in *.
  rewrite forallb_app. apply andb_true_iff. split; [reflexivity | exact L].
Qed.

End WellFormedStream.

(** X16.  A response made of well-formed events, one object of the flat or
    of the nested shape on each [data: ] line, is handled as the sequence
    of the texts that its objects carry, however the response is cut into
    chunks: the session is the one reached by accumulating and emitting
    these texts one after the other. *)
Theorem X16_well_formed_stream_is_the_sequence_of_its_texts
  (decodeHtmlEntities : jsstring -> jsstring)
  (JSON_parse : jsstring -> option JSON) (ToString : JSON -> option jsstring)
  (abortsDuring : nat -> bool)
  (payloads : list jsstring) (textss : list (list jsstring))
  (chunks : list jsstring) :
  (forall n, abortsDuring n = false) ->
  Forall2 (carries JSON_parse) payloads textss ->
  List.concat chunks = chunkOf (map dataLine payloads) ->
  streamContract decodeHtmlEntities JSON_parse ToString abortsDuring
    (Connected (map ReadChunk chunks))
  = fold_left
      (fun st t =>
         fst (processFragment decodeHtmlEntities ToString abortsDuring
                (JString t) st))
      (List.concat textss) initial.
Proof.
  intros H F E. unfold streamContract.
  destruct chunks as [|c cs].
  - destruct F as [|payload texts payloads textss C F]; [reflexivity|].
    cbn [map chunkOf List.concat] in E. unfold dataLine in E at 1.
    discriminate.
  - rewrite readLoop_chunks_as_one by (exact H || reflexivity).
    change (c ++ List.concat cs) with (List.concat (c :: cs)). rewrite E.
    rewrite processChunk_chunkOf
      by (try reflexivity; apply (dataLines_noLF F)).
    change (setBuffer [] initial) with initial.
    apply (processLines_events decodeHtmlEntities ToString abortsDuring F).
    split; reflexivity.
Qed.

Lemma X16_well_formed_stream_witness :
  let nested :=
    JObject
      [(js "candidates",
        JArray
          [JObject
             [(js "content",
               JObject
                 [(js "parts",
                   JArray [JObject [(js "text", JString (js "Two"))];
                           JObject [(js "text", JString (js "Three"))]])])]])]
  in
  let parse := fun s =>
    if JsString.eqb s (js "{N}") then Some nested else parseTextObject s in
  accumulatedContent
    (streamContract decodePlain parse noToString neverAborts
       (Connected
          (map ReadChunk
             [js "data: {"; jsq "'text':'One'}" ++ [LF] ++ js "data"; js ": {N";
              js "}" ++ [LF]])))
  = js "OneTwoThree".
Proof.
  intros nested parse.
  rewrite (@X16_well_formed_stream_is_the_sequence_of_its_texts
             decodePlain parse noToString neverAborts
             [jsq "{'text':'One'}"; js "{N}"]
             [[js "One"]; [js "Two"; js "Three"]]).
  - reflexivity.
  - reflexivity.
  - constructor; [|constructor; [|constructor]].
    + repeat (split; [reflexivity|]). eexists. split; [reflexivity|].
      left. eexists. split; reflexivity.
    + repeat (split; [reflexivity|]). exists nested. split; [reflexivity|].
      right. exists [[js "Two"; js "Three"]]. split; [|reflexivity].
      split; [intros t; discriminate|].
      eexists. split; [reflexivity|].
      constructor; [|constructor].
      eexists. eexists. split; [reflexivity|]. split; [reflexivity|].
      repeat (constructor; try (split; [reflexivity | discriminate])).
  - reflexivity.
Defined.

(** ** Replacement invents no character *)

Section Within.

Variable multiline : bool.
Variable q : char -> bool.

Lemma repLazy_shape (p : char -> bool)
  (k : option char -> jsstring -> option result) (s : jsstring) :
  forall min prev res,
    repLazy p k min prev s = Some res ->
    exists prev' s', Suffix s' s /\ k prev' s' = Some res.
Proof.
  induction s as [|c s IH]; intros min prev res M; cbn [repLazy] in M.
  - destruct (Nat.eqb min 0); [|discriminate].
    destruct (k prev []) as [r|] eqn:K; [|discriminate].
    injection M as ->. exists prev, []. split; [apply Suffix_refl | exact K].
  - destruct (if Nat.eqb min 0 then k prev (c :: s) else None) as [r|] eqn:K.
    + injection M as ->. destruct (Nat.eqb min 0); [|discriminate].
      exists prev, (c :: s). split; [apply Suffix_refl | exact K].
    + destruct (p c); [|discriminate]. apply IH in M.
      destruct M as (prev' & s' & St & M).
      exists prev', s'. split; [apply Suffix_cons, St | exact M].
Qed.

Lemma forallb_Suffix (t s : jsstring) :
  Suffix t s -> forallb q s = true -> forallb q t = true.
Proof.
  intros [pre ->] H. rewrite forallb_app in H.
  apply andb_true_iff in H. tauto.
Qed.

Lemma forallb_firstn (n : nat) (s : jsstring) :
  forallb q s = true -> forallb q (firstn n s) = true.
Proof.
  intros H. rewrite <- (firstn_skipn n s), forallb_app in H.
  apply andb_true_iff in H. tauto.
Qed.

(** Where the rest of the pattern is tried, the input left and the texts
    captured so far are made of characters of the subject. *)
Lemma rmatch_within (r : regex) :
  forall prev s caps k res,
    forallb q s = true -> capturesWithin q caps = true ->
    rmatch multiline r prev s caps k = Some res ->
    exists prev' s' caps',
      forallb q s' = true /\ capturesWithin q caps' = true
      /\ k prev' s' caps' = Some res.
Proof.
  induction r as [|c|p|greedy min p| | |r1 IH1 r2 IH2|n r IH];
    intros prev s caps k res S C M; cbn [rmatch] in M.
  - exists prev, s, caps. auto.
  - destruct s as [|x s]; [discriminate|].
    destruct (N.eqb x c); [|discriminate].
    cbn [forallb] in S. apply andb_true_iff in S.
    exists (Some x), s, caps. tauto.
  - destruct s as [|x s]; [discriminate|].
    destruct (p x); [|discriminate].
    cbn [forallb] in S. apply andb_true_iff in S.
    exists (Some x), s, caps. tauto.
  - assert (exists prev' s', Suffix s' s /\ k prev' s' caps = Some res)
      as (prev' & s' & St & K).
    { destruct greedy.
      - apply repGreedy_shape in M.
        destruct M as (run & s' & prev' & -> & _ & _ & K).
        exists prev', s'. split; [exists run; reflexivity | exact K].
      - apply repLazy_shape in M. exact M. }
    exists prev', s', caps.
    split; [apply (forallb_Suffix St S) | split; assumption].
  - destruct (atBol multiline prev); [|discriminate].
    exists prev, s, caps. auto.
  - destruct (atEol multiline s); [|discriminate].
    exists prev, s, caps. auto.
  - apply (IH1 _ _ _ _ _ S C) in M.
    destruct M as (prev1 & s1 & caps1 & S1 & C1 & M).
    apply (IH2 _ _ _ _ _ S1 C1) in M. exact M.
  - apply (IH _ _ _ _ _ S C) in M.
    destruct M as (prev1 & s1 & caps1 & S1 & C1 & M).
    exists prev1, s1, ((n, firstn (List.length s - List.length s1) s) :: caps1).
    split; [exact S1|]. split; [|exact M].
    cbn [capturesWithin forallb snd]. rewrite forallb_firstn by exact S.
    exact C1.
Qed.

Lemma capture_within (n : nat) (caps : captures) :
  capturesWithin q caps = true -> forallb q (capture n caps) = true.
Proof.
  induction caps as [|[m w] caps IH]; intros C; [reflexivity|].
  cbn [capturesWithin forallb snd] in C. apply andb_true_iff in C.
  cbn [capture]. destruct (Nat.eqb m n); [tauto | apply IH; tauto].
Qed.

Lemma expand_within (tmpl : list piece) (caps : captures) :
  forallb (pieceWithin q) tmpl = true -> capturesWithin q caps = true ->
  forallb q (expand tmpl caps) = true.
Proof.
  intros T C. induction tmpl as [|[w|n] tmpl IH]; [reflexivity| |];
    cbn [forallb pieceWithin] in T; apply andb_true_iff in T;
    destruct T as [T1 T2]; cbn [expand]; rewrite forallb_app, (IH T2).
  - rewrite T1. reflexivity.
  - rewrite (capture_within n caps C). reflexivity.
Qed.

(** Every character of [s.replace(r, tmpl)] is a character of [s] or of
    [tmpl]. *)
Lemma replaceFrom_within (r : regex) (tmpl : list piece) (s : jsstring) :
  forallb (pieceWithin q) tmpl = true ->
  forallb q s = true ->
  forall prev skip,
    forallb q (replaceFrom multiline r tmpl prev s skip) = true.
Proof.
  intros T. induction s as [|c s IH]; intros S prev skip.
  - destruct skip; [|reflexivity]. cbn [replaceFrom].
    destruct (matchAt multiline r prev []) as [[rest caps]|] eqn:M;
      [|reflexivity].
    cbv zeta. rewrite app_nil_r. apply expand_within; [exact T|].
    unfold matchAt in M. apply rmatch_within in M; try reflexivity.
    destruct M as (prev' & s' & caps' & _ & C & M).
    injection M as _ <-. exact C.
  - cbn [forallb] in S. apply andb_true_iff in S. destruct S as [Q S].
    destruct skip as [|skip]; cbn [replaceFrom]; [|apply IH, S].
    destruct (matchAt multiline r prev (c :: s)) as [[rest caps]|] eqn:M.
    + cbv zeta. rewrite forallb_app.
      assert (C : capturesWithin q caps = true).
      { unfold matchAt in M. apply rmatch_within in M;
          [|cbn [forallb]; rewrite Q, S; reflexivity | reflexivity].
        destruct M as (prev' & s' & caps' & _ & C & M).
        injection M as _ <-. exact C. }
      rewrite (expand_within _ _ T C).
      destruct (Nat.eqb _ 0); cbn [forallb andb]; rewrite ?Q; apply IH, S.
    + cbn [forallb]. rewrite Q. apply IH, S.
Qed.

Lemma replace_within (r : regex) (tmpl : list piece) (s : jsstring) :
  forallb (pieceWithin q) tmpl = true ->
  forallb q s = true ->
  forallb q (replaceAll multiline r tmpl s) = true.
Proof. intros T S. apply replaceFrom_within; assumption. Qed.

Lemma trim_within_class (s : jsstring) :
  forallb q s = true -> forallb q (trim s) = true.
Proof.
  intros S. destruct (trim_within s) as (pre & post & E).
  rewrite E, !forallb_app in S.
  apply andb_true_iff in S. destruct S as [_ S].
  apply andb_true_iff in S. tauto.
Qed.

End Within.

Module HtmlFacts.

Lemma splitLines_noLF (s : jsstring) :
  forallb Invariants.noLF (splitLines s) = true.
Proof.
  induction s as [|c s IH]; [reflexivity|]. cbn [splitLines].
  destruct (N.eqb c LF) eqn:E; [exact IH|].
  destruct (splitLines s) as [|l ls]; cbn [forallb Invariants.noLF] in *;
    rewrite E; [reflexivity | exact IH].
Qed.

Local Abbreviation inLine := (fun c : char => negb (N.eqb c LF)).

Lemma lineToHtml_noLF (line : jsstring) :
  Invariants.noLF line = true -> Invariants.noLF (lineToHtml line) = true.
Proof.
  unfold Invariants.noLF. intros L.
  apply (trim_within_class inLine) in L.
  unfold lineToHtml. cbv zeta.
  assert (K : forall n, forallb inLine (trim (skipn n (trim line))) = true).
  { intros n. apply trim_within_class.
    apply (@forallb_Suffix inLine _ (trim line)); [|exact L].
    apply Suffix_skipn. }
  repeat match goal with
         | |- context [if ?b then _ else _] => destruct b
         end;
    rewrite ?forallb_app; repeat (apply andb_true_iff; split);
    try reflexivity; try apply K; try exact L;
    try (apply trim_within_class; exact L).
  unfold replace_g. apply replace_within; [reflexivity | exact L].
Qed.

Lemma convertToStructuredHtml_noLF
  (decodeHtmlEntities : jsstring -> jsstring) (rawText : jsstring) :
  Invariants.noLF (convertToStructuredHtml decodeHtmlEntities rawText) = true.
Proof.
  unfold convertToStructuredHtml. cbv zeta.
  set (cleaned := trim _).
  apply (replace_within false inLine); [reflexivity|].
  apply (replace_within false inLine); [reflexivity|].
  rewrite forallb_app, andb_true_r.
  pose proof (splitLines_noLF cleaned) as S.
  set (lines := splitLines cleaned) in *. clearbody lines.
  assert (G : forall ls html,
            forallb Invariants.noLF ls = true ->
            forallb inLine html = true ->
            forallb inLine
              (fold_left (fun htmlContent line =>
                            htmlContent ++ lineToHtml line) ls html) = true).
  { induction ls as [|l ls IH]; intros html Ls H; [exact H|].
    cbn [forallb] in Ls. apply andb_true_iff in Ls. destruct Ls as [Ll Ls].
    cbn [fold_left]. apply IH; [exact Ls|].
    rewrite forallb_app, H. apply (lineToHtml_noLF _ Ll). }
  apply G; [|reflexivity].
  apply forallb_forall. intros l I. apply filter_In in I.
  rewrite forallb_forall in S. apply S. tauto.
Qed.

End HtmlFacts.
Import HtmlFacts.

(** X17.  The HTML view of a content is one line: whatever the content and
    the decoder, what [getHtmlContent] and [accumulateStreamingHtml]
    return holds no newline.  The lines of the content are joined with
    nothing between them, and no replacement brings a newline in. *)
Theorem X17_html_view_is_one_line
  (decodeHtmlEntities : jsstring -> jsstring) (content more : jsstring) :
  includes (getHtmlContent decodeHtmlEntities content) [LF] = false
  /\ includes (accumulateStreamingHtml decodeHtmlEntities more content) [LF]
     = false.
Proof.
  assert (N : forall s, Invariants.noLF s = true -> includes s [LF] = false).
  { induction s as [|c s IH]; intros L; [reflexivity|].
    cbn [Invariants.noLF forallb] in L. apply andb_true_iff in L.
    destruct L as [C L]. cbn [includes startsWith].
    apply negb_true_iff in C. rewrite C. apply IH, L. }
  split; apply N.
  - apply convertToStructuredHtml_noLF.
  - unfold accumulateStreamingHtml.
    destruct (negb _); apply convertToStructuredHtml_noLF.
Qed.
